(** * MixtureWCRP: the weighted Chinese restaurant process sampler

    A shallow embedding of [src/src/MixtureWCRP.cpp] (class [MixtureWCRP],
    declared in [src/include/MixtureWCRP.hpp]) and the verification of its
    partition ledger, likelihood engine, seating statistic and sample
    recorder.

    Conventions of the embedding.
    - [size_t] identifiers and indices (items, students, trials, table ids)
      are [nat]; [size_t] counters that the code increments and decrements
      ([table_sizes], [num_used_skills]) are [Z] with the 64-bit wrap-around
      written out ([wrap64]), and so is the arithmetic of the constructor on
      the expert labels ([1 + label], [1 + max label]).  The counter
      [tables_ever_instantiated] is a [nat]: it is taken not to reach
      [2 ^ 64], and the [int] counts of [compute_K] not to reach [2 ^ 31].
    - [double] is a type [D] with the operations of class [Double]; the
      instance [R_Double] reads them over the real numbers: every value is
      finite, the arithmetic is exact and [exp] is positive, so that a
      theorem stated with [R_Double] says nothing about rounding, about
      infinities or about [log_gamma = -inf] (which [beta = 1] gives).
    - [std::vector] is [list]; [boost::unordered_map] and [std::set] are
      stdpp's [gmap] and [gset].
    - A member function that may stop the program returns an [outcome]:
      a failed [assert], a [std::out_of_range] thrown by [at()], or an
      unchecked [operator[]] outside its vector. *)

From Stdlib Require Import Reals Lra ZArith Lia.
From stdpp Require Import gmap list fin_maps fin_sets sorting.

Set Default Proof Using "Type".

(** ** Outcomes *)

Inductive failure := AssertionFailed | OutOfRange | UndefinedBehaviour.

Inductive outcome (A : Type) :=
  | Ret (a : A)
  | Fail (f : failure).
Arguments Ret {A} a.
Arguments Fail {A} f.

Definition obind {A B} (m : outcome A) (k : A -> outcome B) : outcome B :=
  match m with
  | Ret a => k a
  | Fail f => Fail f
  end.

Notation "x <- e ;; k" := (obind e (fun x => k))
  (at level 20, e at level 99, k at level 200, only parsing).
Notation "' p <- e ;; k" := (obind e (fun x => match x with p => k end))
  (at level 20, p pattern, e at level 99, k at level 200, only parsing).

(** [assert(b)] *)
Definition assert (b : bool) : outcome unit :=
  if b then Ret tt else Fail AssertionFailed.

(** [v.at(i)] on a vector *)
Definition vec_at {A} (v : list A) (i : nat) : outcome A :=
  match v !! i with Some x => Ret x | None => Fail OutOfRange end.

(** [m.at(k)] on an unordered map *)
Definition map_at {A} (m : gmap nat A) (k : nat) : outcome A :=
  match m !! k with Some x => Ret x | None => Fail OutOfRange end.

(** [v[i]] read, unchecked *)
Definition vec_get {A} (v : list A) (i : nat) : outcome A :=
  match v !! i with Some x => Ret x | None => Fail UndefinedBehaviour end.

(** [v[i] = x], unchecked *)
Definition vec_set {A} (v : list A) (i : nat) (x : A) : outcome (list A) :=
  if decide (i < length v) then Ret (<[i:=x]> v) else Fail UndefinedBehaviour.

(** A [for] loop over the elements of [l], threading the loop state. *)
Fixpoint for_each {A S} (l : list A) (body : A -> S -> outcome S) (s : S)
  : outcome S :=
  match l with
  | [] => Ret s
  | x :: l' => s' <- body x s ;; for_each l' body s'
  end.

(** [for (size_t i = 0; i < n; i++)] *)
Definition for_range {S} (n : nat) (body : nat -> S -> outcome S) (s : S)
  : outcome S :=
  for_each (seq 0 n) body s.

(** One result per element, in order. *)
Fixpoint map_each {A B} (f : A -> outcome B) (l : list A) : outcome (list B) :=
  match l with
  | [] => Ret []
  | x :: l' => y <- f x ;; ys <- map_each f l' ;; Ret (y :: ys)
  end.

(** ** Machine integers *)

Definition wrap64 (z : Z) : Z := (z mod 2 ^ 64)%Z.

(** ** Doubles *)

Class Double (D : Type) := {
  d_of_Z : Z -> D;
  d_add : D -> D -> D;
  d_sub : D -> D -> D;
  d_mul : D -> D -> D;
  d_div : D -> D -> D;
  d_log : D -> D;
  d_exp : D -> D;
  d_abs : D -> D;
  d_opp : D -> D;
  d_pow : D -> Z -> D;
  d_ltb : D -> D -> bool;
  d_leb : D -> D -> bool;
  d_isfinite : D -> bool;
}.

Declare Scope double_scope.
Delimit Scope double_scope with D.
Notation "0" := (d_of_Z 0) : double_scope.
Notation "1" := (d_of_Z 1) : double_scope.
Infix "+" := d_add : double_scope.
Infix "-" := d_sub : double_scope.
Infix "*" := d_mul : double_scope.
Infix "/" := d_div : double_scope.
Notation "- x" := (d_opp x) : double_scope.
Infix "<?" := d_ltb : double_scope.
Infix "<=?" := d_leb : double_scope.

(** The constants of [common.hpp], which is not among the sources: they are
    parameters of the development. *)
Class Constants (D : Type) := {
  TOL : D;
  ONEMINUSTOL : D;
  HYPER_AP1 : D;
  HYPER_AP2 : D;
}.

(** Modelled from the spec: the sentinel [UNASSIGNED] of [common.hpp], which
    is not among the sources.  Table ids start at [UNASSIGNED + 1] and the
    expert tables are numbered [1 + label], so the sentinel is [0]. *)
Definition UNASSIGNED : nat := 0.

(** The interface of [Random.hpp], which is not among the sources: the
    generator is a state [G] advanced by each draw. *)
Class Random (G D : Type) := {
  sampleUniform01 : G -> D * G;
  sampleGamma : D -> D -> G -> D * G;
  sampleUnnormalizedDiscrete : list D -> G -> nat * G;
  shuffle : forall {A : Type}, list A -> G -> list A * G;
}.

(** [std::min] and [std::max] on doubles *)
Definition d_min `{Double D} (a b : D) : D := if (b <? a)%D then b else a.
Definition d_max `{Double D} (a b : D) : D := if (a <? b)%D then b else a.

(** [std::merge] of two sorted ranges *)
Fixpoint merge (l1 : list nat) : list nat -> list nat :=
  fix merge_aux (l2 : list nat) : list nat :=
    match l1, l2 with
    | [], _ => l2
    | _, [] => l1
    | x :: l1', y :: l2' =>
        if y <? x then y :: merge_aux l2' else x :: merge l1' l2
    end.

(** [tmp] after the filtering loop of [remove_item_from_table]: the elements
    of [cur] without those of [trials], which are skipped one after the other
    as [num_ignored] advances. *)
Definition remove_trials_step (trials : list nat) (acc : list nat * nat) (x : nat)
  : list nat * nat :=
  let '(tmp, num_ignored) := acc in
  if (num_ignored <? length trials) && negb (x =? default 0 (trials !! num_ignored))
     || (length trials <=? num_ignored)
  then (tmp ++ [x], num_ignored)
  else (tmp, S num_ignored).

Definition remove_trials (cur trials : list nat) : list nat :=
  fst (fold_left (remove_trials_step trials) cur ([], 0)).

(** ** The data model *)

Record bkt_parameters (D : Type) := {
  psi : D;
  mu : D;
  pi1 : D;
  prop0 : D;
}.
Arguments psi {D}. Arguments mu {D}. Arguments pi1 {D}. Arguments prop0 {D}.

(** The constants of a [MixtureWCRP] object and its dataset helper variables,
    fixed once the constructor has filled them. *)
Record dataset := {
  train_students : gset nat;
  recall_sequences : list (list bool);
  item_sequences : list (list nat);
  provided_skill_assignments : list nat;
  num_students : nat;
  num_items : nat;
  num_subsamples : nat;
  use_expert_labels : bool;
  ever_studied : list (list bool);
  students_who_studied : list (list nat);
  all_first_encounters : list (list nat);
  first_encounter : list (list nat);
  trials_studied : list (list (list nat));
  num_expert_provided_skills : nat;
  item_and_recall_sequences : list (list (nat * bool));
}.

(** The Markov chain state, the MCMC helper variables and the recorded
    samples. *)
Record chain (G D : Type) := {
  generator : G;
  seating_arrangement : list nat;
  parameters : gmap nat (bkt_parameters D);
  log_alpha_prime : D;
  log_gamma : D;
  num_used_skills : Z;
  table_sizes : gmap nat Z;
  extant_tables : gset nat;
  trial_lookup : gmap nat (gmap nat (list nat));
  tables_ever_instantiated : nat;
  prior_samples : list (bkt_parameters D);
  singleton_skill_data_lp : list (list D);
  all_items : list nat;
  pRT_samples : list (list (list D));
  skill_label_samples : list (list nat);
  train_ll_samples : list D;
}.
Arguments generator {G D}. Arguments seating_arrangement {G D}.
Arguments parameters {G D}. Arguments log_alpha_prime {G D}.
Arguments log_gamma {G D}. Arguments num_used_skills {G D}.
Arguments table_sizes {G D}. Arguments extant_tables {G D}.
Arguments trial_lookup {G D}. Arguments tables_ever_instantiated {G D}.
Arguments prior_samples {G D}. Arguments singleton_skill_data_lp {G D}.
Arguments all_items {G D}. Arguments pRT_samples {G D}.
Arguments skill_label_samples {G D}. Arguments train_ll_samples {G D}.

Section Setters.
Context {G D : Type}.
Implicit Type st : chain G D.

Definition set_generator (g : G) st : chain G D :=
  {| generator := g; seating_arrangement := seating_arrangement st;
     parameters := parameters st; log_alpha_prime := log_alpha_prime st;
     log_gamma := log_gamma st; num_used_skills := num_used_skills st;
     table_sizes := table_sizes st; extant_tables := extant_tables st;
     trial_lookup := trial_lookup st;
     tables_ever_instantiated := tables_ever_instantiated st;
     prior_samples := prior_samples st;
     singleton_skill_data_lp := singleton_skill_data_lp st;
     all_items := all_items st; pRT_samples := pRT_samples st;
     skill_label_samples := skill_label_samples st;
     train_ll_samples := train_ll_samples st |}.

Definition set_seating_arrangement (v : list nat) st : chain G D :=
  {| generator := generator st; seating_arrangement := v;
     parameters := parameters st; log_alpha_prime := log_alpha_prime st;
     log_gamma := log_gamma st; num_used_skills := num_used_skills st;
     table_sizes := table_sizes st; extant_tables := extant_tables st;
     trial_lookup := trial_lookup st;
     tables_ever_instantiated := tables_ever_instantiated st;
     prior_samples := prior_samples st;
     singleton_skill_data_lp := singleton_skill_data_lp st;
     all_items := all_items st; pRT_samples := pRT_samples st;
     skill_label_samples := skill_label_samples st;
     train_ll_samples := train_ll_samples st |}.

Definition set_parameters (v : gmap nat (bkt_parameters D)) st : chain G D :=
  {| generator := generator st; seating_arrangement := seating_arrangement st;
     parameters := v; log_alpha_prime := log_alpha_prime st;
     log_gamma := log_gamma st; num_used_skills := num_used_skills st;
     table_sizes := table_sizes st; extant_tables := extant_tables st;
     trial_lookup := trial_lookup st;
     tables_ever_instantiated := tables_ever_instantiated st;
     prior_samples := prior_samples st;
     singleton_skill_data_lp := singleton_skill_data_lp st;
     all_items := all_items st; pRT_samples := pRT_samples st;
     skill_label_samples := skill_label_samples st;
     train_ll_samples := train_ll_samples st |}.

Definition set_log_alpha_prime (v : D) st : chain G D :=
  {| generator := generator st; seating_arrangement := seating_arrangement st;
     parameters := parameters st; log_alpha_prime := v;
     log_gamma := log_gamma st; num_used_skills := num_used_skills st;
     table_sizes := table_sizes st; extant_tables := extant_tables st;
     trial_lookup := trial_lookup st;
     tables_ever_instantiated := tables_ever_instantiated st;
     prior_samples := prior_samples st;
     singleton_skill_data_lp := singleton_skill_data_lp st;
     all_items := all_items st; pRT_samples := pRT_samples st;
     skill_label_samples := skill_label_samples st;
     train_ll_samples := train_ll_samples st |}.

Definition set_log_gamma (v : D) st : chain G D :=
  {| generator := generator st; seating_arrangement := seating_arrangement st;
     parameters := parameters st; log_alpha_prime := log_alpha_prime st;
     log_gamma := v; num_used_skills := num_used_skills st;
     table_sizes := table_sizes st; extant_tables := extant_tables st;
     trial_lookup := trial_lookup st;
     tables_ever_instantiated := tables_ever_instantiated st;
     prior_samples := prior_samples st;
     singleton_skill_data_lp := singleton_skill_data_lp st;
     all_items := all_items st; pRT_samples := pRT_samples st;
     skill_label_samples := skill_label_samples st;
     train_ll_samples := train_ll_samples st |}.

Definition set_num_used_skills (v : Z) st : chain G D :=
  {| generator := generator st; seating_arrangement := seating_arrangement st;
     parameters := parameters st; log_alpha_prime := log_alpha_prime st;
     log_gamma := log_gamma st; num_used_skills := v;
     table_sizes := table_sizes st; extant_tables := extant_tables st;
     trial_lookup := trial_lookup st;
     tables_ever_instantiated := tables_ever_instantiated st;
     prior_samples := prior_samples st;
     singleton_skill_data_lp := singleton_skill_data_lp st;
     all_items := all_items st; pRT_samples := pRT_samples st;
     skill_label_samples := skill_label_samples st;
     train_ll_samples := train_ll_samples st |}.

Definition set_table_sizes (v : gmap nat Z) st : chain G D :=
  {| generator := generator st; seating_arrangement := seating_arrangement st;
     parameters := parameters st; log_alpha_prime := log_alpha_prime st;
     log_gamma := log_gamma st; num_used_skills := num_used_skills st;
     table_sizes := v; extant_tables := extant_tables st;
     trial_lookup := trial_lookup st;
     tables_ever_instantiated := tables_ever_instantiated st;
     prior_samples := prior_samples st;
     singleton_skill_data_lp := singleton_skill_data_lp st;
     all_items := all_items st; pRT_samples := pRT_samples st;
     skill_label_samples := skill_label_samples st;
     train_ll_samples := train_ll_samples st |}.

Definition set_extant_tables (v : gset nat) st : chain G D :=
  {| generator := generator st; seating_arrangement := seating_arrangement st;
     parameters := parameters st; log_alpha_prime := log_alpha_prime st;
     log_gamma := log_gamma st; num_used_skills := num_used_skills st;
     table_sizes := table_sizes st; extant_tables := v;
     trial_lookup := trial_lookup st;
     tables_ever_instantiated := tables_ever_instantiated st;
     prior_samples := prior_samples st;
     singleton_skill_data_lp := singleton_skill_data_lp st;
     all_items := all_items st; pRT_samples := pRT_samples st;
     skill_label_samples := skill_label_samples st;
     train_ll_samples := train_ll_samples st |}.

Definition set_trial_lookup (v : gmap nat (gmap nat (list nat))) st
  : chain G D :=
  {| generator := generator st; seating_arrangement := seating_arrangement st;
     parameters := parameters st; log_alpha_prime := log_alpha_prime st;
     log_gamma := log_gamma st; num_used_skills := num_used_skills st;
     table_sizes := table_sizes st; extant_tables := extant_tables st;
     trial_lookup := v;
     tables_ever_instantiated := tables_ever_instantiated st;
     prior_samples := prior_samples st;
     singleton_skill_data_lp := singleton_skill_data_lp st;
     all_items := all_items st; pRT_samples := pRT_samples st;
     skill_label_samples := skill_label_samples st;
     train_ll_samples := train_ll_samples st |}.

Definition set_tables_ever_instantiated (v : nat) st : chain G D :=
  {| generator := generator st; seating_arrangement := seating_arrangement st;
     parameters := parameters st; log_alpha_prime := log_alpha_prime st;
     log_gamma := log_gamma st; num_used_skills := num_used_skills st;
     table_sizes := table_sizes st; extant_tables := extant_tables st;
     trial_lookup := trial_lookup st;
     tables_ever_instantiated := v;
     prior_samples := prior_samples st;
     singleton_skill_data_lp := singleton_skill_data_lp st;
     all_items := all_items st; pRT_samples := pRT_samples st;
     skill_label_samples := skill_label_samples st;
     train_ll_samples := train_ll_samples st |}.

Definition set_prior_samples (v : list (bkt_parameters D)) st : chain G D :=
  {| generator := generator st; seating_arrangement := seating_arrangement st;
     parameters := parameters st; log_alpha_prime := log_alpha_prime st;
     log_gamma := log_gamma st; num_used_skills := num_used_skills st;
     table_sizes := table_sizes st; extant_tables := extant_tables st;
     trial_lookup := trial_lookup st;
     tables_ever_instantiated := tables_ever_instantiated st;
     prior_samples := v;
     singleton_skill_data_lp := singleton_skill_data_lp st;
     all_items := all_items st; pRT_samples := pRT_samples st;
     skill_label_samples := skill_label_samples st;
     train_ll_samples := train_ll_samples st |}.

Definition set_singleton_skill_data_lp (v : list (list D)) st : chain G D :=
  {| generator := generator st; seating_arrangement := seating_arrangement st;
     parameters := parameters st; log_alpha_prime := log_alpha_prime st;
     log_gamma := log_gamma st; num_used_skills := num_used_skills st;
     table_sizes := table_sizes st; extant_tables := extant_tables st;
     trial_lookup := trial_lookup st;
     tables_ever_instantiated := tables_ever_instantiated st;
     prior_samples := prior_samples st;
     singleton_skill_data_lp := v;
     all_items := all_items st; pRT_samples := pRT_samples st;
     skill_label_samples := skill_label_samples st;
     train_ll_samples := train_ll_samples st |}.

Definition set_all_items (v : list nat) st : chain G D :=
  {| generator := generator st; seating_arrangement := seating_arrangement st;
     parameters := parameters st; log_alpha_prime := log_alpha_prime st;
     log_gamma := log_gamma st; num_used_skills := num_used_skills st;
     table_sizes := table_sizes st; extant_tables := extant_tables st;
     trial_lookup := trial_lookup st;
     tables_ever_instantiated := tables_ever_instantiated st;
     prior_samples := prior_samples st;
     singleton_skill_data_lp := singleton_skill_data_lp st;
     all_items := v; pRT_samples := pRT_samples st;
     skill_label_samples := skill_label_samples st;
     train_ll_samples := train_ll_samples st |}.

Definition set_pRT_samples (v : list (list (list D))) st : chain G D :=
  {| generator := generator st; seating_arrangement := seating_arrangement st;
     parameters := parameters st; log_alpha_prime := log_alpha_prime st;
     log_gamma := log_gamma st; num_used_skills := num_used_skills st;
     table_sizes := table_sizes st; extant_tables := extant_tables st;
     trial_lookup := trial_lookup st;
     tables_ever_instantiated := tables_ever_instantiated st;
     prior_samples := prior_samples st;
     singleton_skill_data_lp := singleton_skill_data_lp st;
     all_items := all_items st; pRT_samples := v;
     skill_label_samples := skill_label_samples st;
     train_ll_samples := train_ll_samples st |}.

Definition set_skill_label_samples (v : list (list nat)) st : chain G D :=
  {| generator := generator st; seating_arrangement := seating_arrangement st;
     parameters := parameters st; log_alpha_prime := log_alpha_prime st;
     log_gamma := log_gamma st; num_used_skills := num_used_skills st;
     table_sizes := table_sizes st; extant_tables := extant_tables st;
     trial_lookup := trial_lookup st;
     tables_ever_instantiated := tables_ever_instantiated st;
     prior_samples := prior_samples st;
     singleton_skill_data_lp := singleton_skill_data_lp st;
     all_items := all_items st; pRT_samples := pRT_samples st;
     skill_label_samples := v;
     train_ll_samples := train_ll_samples st |}.

Definition set_train_ll_samples (v : list D) st : chain G D :=
  {| generator := generator st; seating_arrangement := seating_arrangement st;
     parameters := parameters st; log_alpha_prime := log_alpha_prime st;
     log_gamma := log_gamma st; num_used_skills := num_used_skills st;
     table_sizes := table_sizes st; extant_tables := extant_tables st;
     trial_lookup := trial_lookup st;
     tables_ever_instantiated := tables_ever_instantiated st;
     prior_samples := prior_samples st;
     singleton_skill_data_lp := singleton_skill_data_lp st;
     all_items := all_items st; pRT_samples := pRT_samples st;
     skill_label_samples := skill_label_samples st;
     train_ll_samples := v |}.
End Setters.

(** ** The partition ledger *)

Section Ledger.
Context {G D : Type} `{Double D, Constants D, Random G D}.
Implicit Type st : chain G D.
Implicit Type ds : dataset.

(** [draw_bkt_param_prior]: each parameter uniform on [TOL, 1 - TOL]. *)
Definition draw_bkt_param_prior (g : G) : bkt_parameters D * G :=
  let '(u1, g) := sampleUniform01 g in
  let '(u2, g) := sampleUniform01 g in
  let '(u3, g) := sampleUniform01 g in
  let '(u4, g) := sampleUniform01 g in
  ({| psi := (TOL + (ONEMINUSTOL - TOL) * u1)%D;
      mu := (TOL + (ONEMINUSTOL - TOL) * u2)%D;
      pi1 := (TOL + (ONEMINUSTOL - TOL) * u3)%D;
      prop0 := (TOL + (ONEMINUSTOL - TOL) * u4)%D |}, g).

(** [trials_studied[student][item]] *)
Definition trials_of ds (student item : nat) : outcome (list nat) :=
  row <- vec_get (trials_studied ds) student ;;
  vec_get row item.

(** The loop body of the existing-table branch of [assign_item_to_table]:
    [trial_lookup[table_id]] is created empty when it is missing. *)
Definition assign_student ds (item table_id student : nat)
    (tl : gmap nat (gmap nat (list nat)))
  : outcome (gmap nat (gmap nat (list nat))) :=
  let inner := default ∅ (tl !! table_id) in
  trials <- trials_of ds student item ;;
  match inner !! student with
  | None => Ret (<[table_id := <[student := trials]> inner]> tl)
  | Some cur => Ret (<[table_id := <[student := merge cur trials]> inner]> tl)
  end.

Definition assign_item_to_table ds (item table_id : nat) (is_new_table : bool)
    st : outcome (chain G D) :=
  st' <-
    (if is_new_table then
       let '(new_params, g) := draw_bkt_param_prior (generator st) in
       seating <- vec_set (seating_arrangement st) item table_id ;;
       students <- vec_at (students_who_studied ds) item ;;
       inner <- for_each students
                  (fun student inner =>
                     trials <- trials_of ds student item ;;
                     Ret (<[student := trials]> inner))
                  (∅ : gmap nat (list nat)) ;;
       Ret (set_trial_lookup (<[table_id := inner]> (trial_lookup st))
           (set_num_used_skills (wrap64 (num_used_skills st + 1))
           (set_extant_tables ({[table_id]} ∪ extant_tables st)
           (set_table_sizes (<[table_id := 1%Z]> (table_sizes st))
           (set_seating_arrangement seating
           (set_parameters (<[table_id := new_params]> (parameters st))
           (set_generator g st)))))))
     else
       seating <- vec_set (seating_arrangement st) item table_id ;;
       let size := wrap64 (default 0%Z (table_sizes st !! table_id) + 1) in
       students <- vec_at (students_who_studied ds) item ;;
       tl <- for_each students (assign_student ds item table_id)
               (trial_lookup st) ;;
       Ret (set_trial_lookup tl
           (set_table_sizes (<[table_id := size]> (table_sizes st))
           (set_seating_arrangement seating st)))) ;;
  _ <- assert (num_used_skills st' =? Z.of_nat (size (table_sizes st')))%Z ;;
  Ret st'.

(** The loop body of [remove_item_from_table].  When the list of the
    student is shorter than the trials to take out, [final_size] wraps
    around; the program then stops in [tmp.reserve(final_size)] with a
    [std::length_error], the model at the assertion. *)
Definition remove_student ds (item table_id student : nat)
    (tl : gmap nat (gmap nat (list nat)))
  : outcome (gmap nat (gmap nat (list nat))) :=
  let inner := default ∅ (tl !! table_id) in
  let cur := default [] (inner !! student) in
  trials <- trials_of ds student item ;;
  let final_size :=
    wrap64 (Z.of_nat (length cur) - Z.of_nat (length trials)) in
  if (final_size =? 0)%Z then
    Ret (<[table_id := delete student inner]> tl)
  else
    let tmp := remove_trials cur trials in
    _ <- assert (Z.of_nat (length tmp) =? final_size)%Z ;;
    Ret (<[table_id := <[student := tmp]> inner]> tl).

(** Returns [true] if the table was deleted too. *)
Definition remove_item_from_table ds (item table_id : nat) st
  : outcome (bool * chain G D) :=
  let size := wrap64 (default 0%Z (table_sizes st !! table_id) - 1) in
  seating <- vec_set (seating_arrangement st) item UNASSIGNED ;;
  if (size =? 0)%Z then
    Ret (true,
         set_trial_lookup (delete table_id (trial_lookup st))
        (set_num_used_skills (wrap64 (num_used_skills st - 1))
        (set_extant_tables (extant_tables st ∖ {[table_id]})
        (set_parameters (delete table_id (parameters st))
        (set_table_sizes (delete table_id (table_sizes st))
        (set_seating_arrangement seating st))))))
  else
    students <- vec_at (students_who_studied ds) item ;;
    tl <- for_each students (remove_student ds item table_id)
            (trial_lookup st) ;;
    Ret (false,
         set_trial_lookup tl
        (set_table_sizes (<[table_id := size]> (table_sizes st))
        (set_seating_arrangement seating st))).
End Ledger.

(** ** The likelihood engine *)

Section Likelihood.
Context {G D : Type} `{Double D, Constants D, Random G D}.
Implicit Type st : chain G D.
Implicit Type ds : dataset.

(** The three expressions of the knowledge-tracing filter, which the source
    writes out at each use: the predicted probability of a correct
    response, and the belief after a correct and after an incorrect
    response. *)
Definition predict_correct (skill_pi0 skill_pi1 cur_p_hat : D) : D :=
  (skill_pi0 * (1 - cur_p_hat) + skill_pi1 * cur_p_hat)%D.

Definition update_correct (skill_pi0 skill_pi1 skill_mu cur_p_hat : D) : D :=
  ((skill_pi1 * cur_p_hat + skill_mu * skill_pi0 * (1 - cur_p_hat))
   / (skill_pi1 * cur_p_hat + skill_pi0 * (1 - cur_p_hat)))%D.

Definition update_incorrect (skill_pi0 skill_pi1 skill_mu cur_p_hat : D) : D :=
  (((1 - skill_pi1) * cur_p_hat + skill_mu * (1 - skill_pi0) * (1 - cur_p_hat))
   / ((1 - skill_pi1) * cur_p_hat + (1 - skill_pi0) * (1 - cur_p_hat)))%D.

Definition update_belief (did_recall : bool)
    (skill_pi0 skill_pi1 skill_mu cur_p_hat : D) : D :=
  if did_recall then update_correct skill_pi0 skill_pi1 skill_mu cur_p_hat
  else update_incorrect skill_pi0 skill_pi1 skill_mu cur_p_hat.

(** The log-probability of the observed response. *)
Definition log_response (did_recall : bool)
    (skill_pi0 skill_pi1 cur_p_hat : D) : D :=
  if did_recall then d_log (predict_correct skill_pi0 skill_pi1 cur_p_hat)
  else d_log (1 - predict_correct skill_pi0 skill_pi1 cur_p_hat)%D.

(** [if (x > 0.0) x = 0.0] *)
Definition clamp_nonpositive (x : D) : D := if (0 <? x)%D then 0%D else x.

(** One trial of the from-scratch mode: every trial advances the belief,
    only those at or after [start_trial] are scored. *)
Definition scratch_trial (recall_items : list (nat * bool)) (start_trial : nat)
    (skill_pi0 skill_pi1 skill_mu : D) (trial_idx : nat) (acc : D * D)
  : outcome (D * D) :=
  let '(student_skill_log_lik, cur_p_hat) := acc in
  trial_pair <- vec_at recall_items trial_idx ;;
  Ret (if start_trial <=? trial_idx
       then (student_skill_log_lik
             + log_response (snd trial_pair) skill_pi0 skill_pi1 cur_p_hat)%D
       else student_skill_log_lik,
       update_belief (snd trial_pair) skill_pi0 skill_pi1 skill_mu cur_p_hat).

(** The log-likelihood of one student's trials of the skill, as the inner
    loop of the from-scratch version accumulates it. *)
Definition scratch_student_log_lik ds st (table_id : nat)
    (skill_params : bkt_parameters D) (student start_trial : nat) : outcome D :=
  let skill_pi1 := pi1 skill_params in
  let skill_pi0 := (skill_pi1 * prop0 skill_params)%D in
  let skill_mu := mu skill_params in
  let skill_psi := psi skill_params in
  recall_items <- vec_at (item_and_recall_sequences ds) student ;;
  by_student <- map_at (trial_lookup st) table_id ;;
  trials <- map_at by_student student ;;
  r <- for_each trials
         (scratch_trial recall_items start_trial skill_pi0 skill_pi1 skill_mu)
         (0%D, skill_psi) ;;
  Ret (fst r).

(** The body of the loop over the affected students. *)
Definition scratch_student ds st (table_id : nat)
    (skill_params : bkt_parameters D)
    (affected_students first_exposures : list nat) (k : nat)
    (skill_log_lik : D) : outcome D :=
  student <- vec_at affected_students k ;;
  start_trial <- vec_at first_exposures k ;;
  student_skill_log_lik <-
    scratch_student_log_lik ds st table_id skill_params student start_trial ;;
  _ <- assert (d_isfinite student_skill_log_lik) ;;
  Ret (skill_log_lik + clamp_nonpositive student_skill_log_lik)%D.

(** [skill_log_likelihood], the version without a cached belief. *)
Definition skill_log_likelihood ds (table_id : nat)
    (affected_students first_exposures : list nat) st : outcome D :=
  skill_params <- map_at (parameters st) table_id ;;
  skill_log_lik <-
    for_range (length affected_students)
      (scratch_student ds st table_id skill_params affected_students
         first_exposures)
      0%D ;;
  _ <- assert (d_isfinite skill_log_lik) ;;
  _ <- assert (skill_log_lik <=? TOL)%D ;;
  Ret (d_min 0%D skill_log_lik).

(** One trial of the cached mode: trials before [start_trial] are skipped. *)
Definition cached_trial (recall_items : list (nat * bool)) (start_trial : nat)
    (skill_pi0 skill_pi1 skill_mu : D) (trial_idx : nat) (acc : D * D)
  : outcome (D * D) :=
  let '(student_skill_log_lik, cur_p_hat) := acc in
  if start_trial <=? trial_idx then
    trial_pair <- vec_at recall_items trial_idx ;;
    Ret ((student_skill_log_lik
          + log_response (snd trial_pair) skill_pi0 skill_pi1 cur_p_hat)%D,
         update_belief (snd trial_pair) skill_pi0 skill_pi1 skill_mu cur_p_hat)
  else Ret acc.

(** The log-likelihood of one student's trials of the skill from
    [start_trial] on, resuming from the cached belief. *)
Definition cached_student_log_lik ds (table_id : nat)
    (skill_params : bkt_parameters D) (trials first_exposures : list nat)
    (init_p_hat : list (gmap nat D)) (student_idx student : nat) : outcome D :=
  let skill_pi1 := pi1 skill_params in
  let skill_pi0 := (skill_pi1 * prop0 skill_params)%D in
  let skill_mu := mu skill_params in
  start_trial <- vec_at first_exposures student_idx ;;
  recall_items <- vec_at (item_and_recall_sequences ds) student ;;
  cache <- vec_at init_p_hat student_idx ;;
  cur_p_hat <- map_at cache table_id ;;
  r <- for_each trials
         (cached_trial recall_items start_trial skill_pi0 skill_pi1 skill_mu)
         (0%D, cur_p_hat) ;;
  Ret (fst r).

(** The body of the loop over the affected students: a student without
    trials of the skill is skipped. *)
Definition cached_student ds st (table_id : nat)
    (skill_params : bkt_parameters D)
    (affected_students first_exposures : list nat)
    (init_p_hat : list (gmap nat D)) (student_idx : nat)
    (skill_log_lik : D) : outcome D :=
  student <- vec_at affected_students student_idx ;;
  by_student <- map_at (trial_lookup st) table_id ;;
  match by_student !! student with
  | None => Ret skill_log_lik
  | Some trials =>
      student_skill_log_lik <-
        cached_student_log_lik ds table_id skill_params trials first_exposures
          init_p_hat student_idx student ;;
      _ <- assert (d_isfinite student_skill_log_lik) ;;
      Ret (skill_log_lik + clamp_nonpositive student_skill_log_lik)%D
  end.

(** [skill_log_likelihood], the version resuming from [init_p_hat]. *)
Definition skill_log_likelihood_cached ds (table_id : nat)
    (affected_students first_exposures : list nat)
    (init_p_hat : list (gmap nat D)) st : outcome D :=
  if bool_decide (table_sizes st !! table_id = None)
     || bool_decide (table_sizes st !! table_id = Some 0%Z)
  then Ret 0%D
  else
    skill_params <- map_at (parameters st) table_id ;;
    skill_log_lik <-
      for_range (length affected_students)
        (cached_student ds st table_id skill_params affected_students
           first_exposures init_p_hat)
        0%D ;;
    _ <- assert (d_isfinite skill_log_lik) ;;
    _ <- assert (skill_log_lik <=? 0)%D ;;
    Ret skill_log_lik.

(** One trial of [cache_p_hat]: the belief of the trial's skill advances. *)
Definition cache_trial (recall_sequence : list bool) (item_sequence : list nat)
    st (trial : nat) (p_hat : gmap nat D) : outcome (gmap nat D) :=
  did_recall <- vec_at recall_sequence trial ;;
  item <- vec_at item_sequence trial ;;
  table_id <- vec_at (seating_arrangement st) item ;;
  skill_params <- map_at (parameters st) table_id ;;
  let skill_pi1 := pi1 skill_params in
  let skill_pi0 := (skill_pi1 * prop0 skill_params)%D in
  let skill_mu := mu skill_params in
  cur_p_hat <- map_at p_hat table_id ;;
  Ret (<[table_id :=
           update_belief did_recall skill_pi0 skill_pi1 skill_mu cur_p_hat]>
         p_hat).

(** [cache_p_hat]: the belief per skill right before trial [end_trial]. *)
Definition cache_p_hat ds (student end_trial : nat) (p_hat : gmap nat D) st
  : outcome (gmap nat D) :=
  recall_sequence <- vec_at (recall_sequences ds) student ;;
  item_sequence <- vec_at (item_sequences ds) student ;;
  let p_hat := (psi <$> parameters st) ∪ p_hat in
  for_range end_trial (cache_trial recall_sequence item_sequence st) p_hat.
End Likelihood.

(** ** The seating-probability model *)

Section Seating.
Context {G D : Type} `{Double D, Constants D, Random G D}.
Implicit Type st : chain G D.
Implicit Type ds : dataset.

(** [log_old_table_probability] *)
Definition log_old_table_probability (num_seated : Z) (K log_gamma : D)
    (num_expert_provided_skills : nat) : D :=
  let gamma := d_exp log_gamma in
  let E := d_of_Z (Z.of_nat num_expert_provided_skills) in
  (- d_log (1 * E) + d_log (1 * d_of_Z num_seated)
   + d_log (K + (1 - K) * gamma)
   - d_log (1 / E + (1 - 1 / E) * gamma))%D.

(** [log_new_table_probability] *)
Definition log_new_table_probability (log_alpha_prime log_gamma : D)
    (num_expert_provided_skills : nat) : D :=
  (- d_log (1 * d_of_Z (Z.of_nat num_expert_provided_skills))
   + log_alpha_prime + log_gamma)%D.

(** The counting loop of [compute_K]: [counts] maps an expert label to the
    number of other items at the table that carry it, [max_count] is the
    largest of these numbers. *)
Definition count_label st ds (item table_id other_item : nat)
    (acc : gmap nat Z * Z) : outcome (gmap nat Z * Z) :=
  let '(counts, max_count) := acc in
  if bool_decide (item ≠ other_item) then
    seat <- vec_at (seating_arrangement st) other_item ;;
    if bool_decide (seat = table_id) then
      expert_label <- vec_at (provided_skill_assignments ds) other_item ;;
      let counts :=
        match counts !! expert_label with
        | None => <[expert_label := 1%Z]> counts
        | Some c => <[expert_label := (c + 1)%Z]> counts
        end in
      let c := default 0%Z (counts !! expert_label) in
      Ret (counts, if (max_count <? c)%Z then c else max_count)
    else Ret acc
  else Ret acc.

(** [compute_K]; the sum of the denominator runs over [counts] in the order
    in which the map enumerates its entries. *)
Definition compute_K ds (item table_id : nat) (generative_mode : bool) st
  : outcome D :=
  _ <- (if generative_mode then Ret tt
        else seat <- vec_at (seating_arrangement st) item ;;
             assert (bool_decide (seat = UNASSIGNED))) ;;
  let gamma := d_exp (log_gamma st) in
  let end_idx := if generative_mode then item else num_items ds in
  item_expert_label <- vec_at (provided_skill_assignments ds) item ;;
  '(counts, max_count) <-
    for_range end_idx (count_label st ds item table_id) (∅, 0%Z) ;;
  numerator_K <-
    match counts !! item_expert_label with
    | Some _ =>
        c <- map_at counts item_expert_label ;;
        Ret (d_pow gamma (max_count - c))
    | None => Ret (d_pow gamma max_count)
    end ;;
  let denominator_K :=
    (d_of_Z (wrap64 (Z.of_nat (num_expert_provided_skills ds)
                     - Z.of_nat (size counts)))
     * d_pow gamma max_count)%D in
  let denominator_K :=
    foldl (fun acc kc => (acc + d_pow gamma (max_count - snd kc))%D)
      denominator_K (map_to_list counts) in
  Ret (numerator_K / denominator_K)%D.
End Seating.

(** ** The partition resweep *)

Section Gibbs.
Context {G D : Type} `{Double D, Constants D, Random G D}.
Implicit Type st : chain G D.
Implicit Type ds : dataset.

(** The vectors filled by the loop over the extant tables. *)
Record probe (G D : Type) := {
  probe_chain : chain G D;
  data_lp_with_item : list D;
  data_lp_without_item : list D;
  seating_lp : list D;
  keys : list nat;
}.
Arguments probe_chain {G D}. Arguments data_lp_with_item {G D}.
Arguments data_lp_without_item {G D}. Arguments seating_lp {G D}.
Arguments keys {G D}.

(** The body of the loop over the extant tables: the item is seated at the
    table, scored, removed again and scored again. *)
Definition probe_table ds (item : nat)
    (affected_students first_exposures : list nat)
    (p_hat : list (gmap nat D)) (table : nat) (pr : probe G D)
  : outcome (probe G D) :=
  st1 <- assign_item_to_table ds item table false (probe_chain pr) ;;
  lp_with <- skill_log_likelihood_cached ds table affected_students
               first_exposures p_hat st1 ;;
  '(_, st2) <- remove_item_from_table ds item table st1 ;;
  lp_without <- skill_log_likelihood_cached ds table affected_students
                  first_exposures p_hat st2 ;;
  K <- compute_K ds item table false st2 ;;
  num_seated <- map_at (table_sizes st2) table ;;
  Ret {| probe_chain := st2;
         data_lp_with_item := data_lp_with_item pr ++ [lp_with];
         data_lp_without_item := data_lp_without_item pr ++ [lp_without];
         seating_lp :=
           seating_lp pr ++
           [log_old_table_probability num_seated K (log_gamma st2)
              (num_expert_provided_skills ds)];
         keys := keys pr ++ [table] |}.

(** A [std::set<size_t>] is enumerated in increasing order. *)
Definition set_in_order (s : gset nat) : list nat :=
  merge_sort Nat.le (elements s).

(** The cached beliefs of the affected students: the first loop of
    [gibbs_resample_skill]. *)
Definition cache_all (ds : dataset)
    (affected_students first_exposures : list nat) (st : chain G D)
  : outcome (list (gmap nat D)) :=
  map_each
    (fun student_idx =>
       student <- vec_at affected_students student_idx ;;
       end_trial <- vec_at first_exposures student_idx ;;
       cache_p_hat ds student end_trial ∅ st)
    (seq 0 (length affected_students)).

(** [gibbs_resample_skill]; the extant tables are enumerated as they are
    when the loop starts (the loop leaves the set as it is). *)
Definition gibbs_resample_skill ds (item : nat) st : outcome (chain G D) :=
  cur_table_id <- vec_at (seating_arrangement st) item ;;
  affected_students <- vec_at (students_who_studied ds) item ;;
  first_exposures <- vec_at (all_first_encounters ds) item ;;
  '(_, st) <- remove_item_from_table ds item cur_table_id st ;;
  p_hat <- cache_all ds affected_students first_exposures st ;;
  pr <- for_each (set_in_order (extant_tables st))
          (probe_table ds item affected_students first_exposures p_hat)
          {| probe_chain := st; data_lp_with_item := [];
             data_lp_without_item := []; seating_lp := []; keys := [] |} ;;
  let st := probe_chain pr in
  singleton <- vec_at (singleton_skill_data_lp st) item ;;
  let lp_with := data_lp_with_item pr ++ singleton in
  let lp_without :=
    data_lp_without_item pr ++ replicate (num_subsamples ds) 0%D in
  let lp_seating :=
    seating_lp pr ++
    replicate (num_subsamples ds)
      (log_new_table_probability (log_alpha_prime st) (log_gamma st)
         (num_expert_provided_skills ds)
       - d_log (1 * d_of_Z (Z.of_nat (num_subsamples ds))))%D in
  let expected :=
    wrap64 (num_used_skills st + Z.of_nat (num_subsamples ds)) in
  _ <- assert (Z.of_nat (length lp_with) =? expected)%Z ;;
  _ <- assert (Z.of_nat (length lp_without) =? expected)%Z ;;
  _ <- assert (Z.of_nat (length lp_seating) =? expected)%Z ;;
  proportional_log_probs <-
    map_each
      (fun event =>
         s <- vec_at lp_seating event ;;
         w <- vec_at lp_with event ;;
         wo <- vec_at lp_without event ;;
         Ret (s + w - wo)%D)
      (seq 0 (length lp_seating)) ;;
  let num_extant_tables := size (extant_tables st) in
  let '(drawn_event, g) :=
    sampleUnnormalizedDiscrete proportional_log_probs (generator st) in
  let st := set_generator g st in
  if num_extant_tables <=? drawn_event then
    let table_id := tables_ever_instantiated st in
    st <- assign_item_to_table ds item table_id true
            (set_tables_ever_instantiated (S table_id) st) ;;
    let chosen_subsample := drawn_event - num_extant_tables in
    seat <- vec_at (seating_arrangement st) item ;;
    params <- vec_at (prior_samples st) chosen_subsample ;;
    Ret (set_parameters (<[seat := params]> (parameters st)) st)
  else
    table_id <- vec_at (keys pr) drawn_event ;;
    assign_item_to_table ds item table_id false st.
End Gibbs.

Arguments probe_chain {G D}. Arguments data_lp_with_item {G D}.
Arguments data_lp_without_item {G D}. Arguments seating_lp {G D}.
Arguments keys {G D}.

(** ** The sample recorder and the queries *)

Section Recorder.
Context {G D : Type} `{Double D, Constants D, Random G D}.
Implicit Type st : chain G D.
Implicit Type ds : dataset.

(** The relabelling loop of [record_sample].  In
    [skill_labels[table_id] = skill_labels.size()] the right operand is
    evaluated first (the sequencing of assignment since C++17): a table seen
    for the first time gets the number of tables seen before it. *)
Definition relabel_item st (item : nat) (acc : gmap nat nat * list nat)
  : outcome (gmap nat nat * list nat) :=
  let '(skill_labels, cur_assignments) := acc in
  table_id <- vec_at (seating_arrangement st) item ;;
  let skill_labels :=
    match skill_labels !! table_id with
    | None => <[table_id := size skill_labels]> skill_labels
    | Some _ => skill_labels
    end in
  label <- map_at skill_labels table_id ;;
  cur_assignments <- vec_set cur_assignments item label ;;
  Ret (skill_labels, cur_assignments).

Definition relabel ds st : outcome (list nat) :=
  r <- for_range (num_items ds) (relabel_item st)
         (∅, replicate (num_items ds) 0) ;;
  Ret (snd r).

(** [pRT_samples[student][trial].push_back(x)] *)
Definition push_prediction (student trial : nat) (x : D)
    (samples : list (list (list D))) : outcome (list (list (list D))) :=
  row <- vec_get samples student ;;
  cell <- vec_get row trial ;;
  Ret (<[student := <[trial := cell ++ [x]]> row]> samples).

(** One trial of the replay of [record_sample]. *)
Definition record_trial st (student : nat) (recall_sequence : list bool)
    (item_sequence : list nat) (trial : nat)
    (acc : gmap nat D * list (list (list D)))
  : outcome (gmap nat D * list (list (list D))) :=
  let '(p_hat, samples) := acc in
  did_recall <- vec_at recall_sequence trial ;;
  item <- vec_at item_sequence trial ;;
  table_id <- vec_at (seating_arrangement st) item ;;
  skill_params <- map_at (parameters st) table_id ;;
  let skill_pi1 := pi1 skill_params in
  let skill_pi0 := (skill_pi1 * prop0 skill_params)%D in
  let skill_mu := mu skill_params in
  cur_p_hat <- map_at p_hat table_id ;;
  samples <- push_prediction student trial
               (predict_correct skill_pi0 skill_pi1 cur_p_hat) samples ;;
  Ret (<[table_id :=
           update_belief did_recall skill_pi0 skill_pi1 skill_mu cur_p_hat]>
         p_hat, samples).

Definition record_student ds st (student : nat)
    (samples : list (list (list D))) : outcome (list (list (list D))) :=
  recall_sequence <- vec_at (recall_sequences ds) student ;;
  item_sequence <- vec_at (item_sequences ds) student ;;
  r <- for_range (length recall_sequence)
         (record_trial st student recall_sequence item_sequence)
         (psi <$> parameters st, samples) ;;
  Ret (snd r).

Definition record_sample ds (train_ll : D) st : outcome (chain G D) :=
  let st := set_train_ll_samples (train_ll_samples st ++ [train_ll]) st in
  cur_assignments <- relabel ds st ;;
  let st :=
    set_skill_label_samples (skill_label_samples st ++ [cur_assignments]) st in
  samples <- for_range (num_students ds) (record_student ds st)
               (pRT_samples st) ;;
  Ret (set_pRT_samples samples st).

(** [vector_sum] and [vector_mean] *)
Definition vector_sum (vec : list D) : D :=
  match vec with
  | [] => 0%D
  | _ => foldl d_add 0%D vec
  end.

Definition vector_mean (vec : list D) : outcome D :=
  _ <- assert (negb (bool_decide (vec = []))) ;;
  Ret (vector_sum vec / d_of_Z (Z.of_nat (length vec)))%D.

Definition get_estimated_recall_prob st (student trial : nat) : outcome D :=
  row <- vec_at (pRT_samples st) student ;;
  cell <- vec_at row trial ;;
  _ <- assert (negb (bool_decide (cell = []))) ;;
  vector_mean cell.

Definition get_sampled_skill_labels st : outcome (list (list nat)) :=
  _ <- assert (negb (bool_decide (skill_label_samples st = []))) ;;
  Ret (skill_label_samples st).

(** The selection loop of [get_most_likely_skill_labels]. *)
Definition best_step (train_ll : list D) (sample : nat) (acc : D * nat)
  : outcome (D * nat) :=
  let '(best_ll, best_sample) := acc in
  if bool_decide (sample = 0) then
    ll <- vec_at train_ll sample ;; Ret (ll, sample)
  else
    ll <- vec_at train_ll sample ;;
    if (best_ll <? ll)%D then
      ll <- vec_at train_ll sample ;; Ret (ll, sample)
    else Ret acc.

Definition get_most_likely_skill_labels st : outcome (list nat) :=
  _ <- assert (negb (bool_decide (skill_label_samples st = []))) ;;
  _ <- assert (bool_decide (length (train_ll_samples st)
                            = length (skill_label_samples st))) ;;
  r <- for_range (length (train_ll_samples st))
         (best_step (train_ll_samples st)) (0%D, 0) ;;
  vec_at (skill_label_samples st) (snd r).
End Recorder.

(** ** The constructor *)

Section Constructor.
Context {G D : Type} `{Double D, Constants D, Random G D}.
Implicit Type st : chain G D.
Implicit Type ds : dataset.

Definition equals_zero (x : D) : bool := (d_abs x <=? TOL)%D.
Definition equals_one (x : D) : bool := (d_abs (1 - x) <=? TOL)%D.

(** The rows [first_encounter[student]], [item_and_recall_sequences[student]]
    and [trials_studied[student]] while the trials of the student are
    scanned. *)
Definition index_trial (n_items : nat) (item_sequence : list nat)
    (recall : list (list bool)) (student trial : nat)
    (acc : list nat * list (nat * bool) * list (list nat))
  : outcome (list nat * list (nat * bool) * list (list nat)) :=
  let '(first, pairs, studied) := acc in
  item <- vec_at item_sequence trial ;;
  _ <- assert (item <? n_items) ;;
  old <- vec_at first item ;;
  first <- vec_set first item (Nat.min trial old) ;;
  recall_sequence <- vec_at recall student ;;
  did_recall <- vec_at recall_sequence trial ;;
  pairs <- vec_set pairs trial (item, did_recall) ;;
  cell <- vec_get studied item ;;
  studied <- vec_set studied item (cell ++ [trial]) ;;
  Ret (first, pairs, studied).

Definition index_student (n_items : nat) (items : list (list nat))
    (recall : list (list bool)) (student : nat)
  : outcome (list nat * list (nat * bool) * list (list nat)) :=
  item_sequence <- vec_at items student ;;
  for_range (length item_sequence)
    (index_trial n_items item_sequence recall student)
    (replicate n_items (length item_sequence),
     replicate (length item_sequence) (0, false),
     replicate n_items []).

(** The row [ever_studied[student]]: set for training students only. *)
Definition studied_row (n_items : nat) (train : gset nat)
    (items : list (list nat)) (student : nat) : outcome (list bool) :=
  let row := replicate n_items false in
  if bool_decide (student ∈ train) then
    item_sequence <- vec_at items student ;;
    for_range (length item_sequence)
      (fun trial row =>
         item <- vec_at item_sequence trial ;;
         vec_set row item true)
      row
  else Ret row.

(** [students_who_studied[item]] and [all_first_encounters[item]]. *)
Definition item_students (n_students : nat) (ever : list (list bool))
    (first : list (list nat)) (item : nat) : outcome (list nat * list nat) :=
  for_range n_students
    (fun student acc =>
       row <- vec_at ever student ;;
       b <- vec_at row item ;;
       if b : bool then
         first_row <- vec_at first student ;;
         t <- vec_at first_row item ;;
         Ret (fst acc ++ [student], snd acc ++ [t])
       else Ret acc)
    ([], []).

(** The first seating: every item at the table of its expert label. The
    table id [1 + label] is a [size_t]: the label [2 ^ 64 - 1] gives the
    table 0, which is [UNASSIGNED]. *)
Definition seat_expert ds (item : nat) (acc : chain G D * gset nat)
  : outcome (chain G D * gset nat) :=
  let '(st, skills_encountered) := acc in
  label <- vec_at (provided_skill_assignments ds) item ;;
  let table_id := Z.to_nat (wrap64 (1 + Z.of_nat label)) in
  st <- assign_item_to_table ds item table_id
          (negb (bool_decide (table_id ∈ skills_encountered))) st ;;
  Ret (st, {[table_id]} ∪ skills_encountered).

(** The singleton skill [tmp_table_id] gets the next draw from the prior
    and is scored. *)
Definition singleton_score ds (tmp_table_id : nat)
    (affected_students first_exposures : list nat) (subsample : nat)
    (acc : chain G D * list D) : outcome (chain G D * list D) :=
  let '(st, lps) := acc in
  params <- vec_get (prior_samples st) subsample ;;
  let st := set_parameters (<[tmp_table_id := params]> (parameters st)) st in
  lp <- skill_log_likelihood ds tmp_table_id affected_students
          first_exposures st ;;
  Ret (st, lps ++ [lp]).

(** The marginal likelihood of [item] as a singleton skill, under each
    draw from the prior. *)
Definition singleton_item ds (item : nat) st : outcome (chain G D) :=
  affected_students <- vec_at (students_who_studied ds) item ;;
  first_exposures <- vec_at (all_first_encounters ds) item ;;
  cur_table_id <- vec_at (seating_arrangement st) item ;;
  '(deleted_table, st) <- remove_item_from_table ds item cur_table_id st ;;
  let tmp_table_id := tables_ever_instantiated st in
  st <- assign_item_to_table ds item tmp_table_id true
          (set_tables_ever_instantiated (S tmp_table_id) st) ;;
  '(st, lps) <-
    for_range (num_subsamples ds)
      (singleton_score ds tmp_table_id affected_students first_exposures)
      (st, []) ;;
  rows <- vec_set (singleton_skill_data_lp st) item lps ;;
  let st := set_singleton_skill_data_lp rows st in
  '(_, st) <- remove_item_from_table ds item tmp_table_id st ;;
  if deleted_table : bool then
    let table_id := tables_ever_instantiated st in
    assign_item_to_table ds item table_id true
      (set_tables_ever_instantiated (S table_id) st)
  else assign_item_to_table ds item cur_table_id false st.

(** [num_subsamples] draws of [draw_bkt_param_prior]. *)
Fixpoint draw_prior_samples (n : nat) (g : G) : list (bkt_parameters D) * G :=
  match n with
  | 0 => ([], g)
  | S n' =>
      let '(p, g) := draw_bkt_param_prior g in
      let '(ps, g) := draw_prior_samples n' g in
      (p :: ps, g)
  end.

(** The dataset helper variables, as the constructor fills them;
    [num_expert_provided_skills] is one more than the largest label, as a
    [size_t]. *)
Definition index_dataset (train : gset nat) (recall : list (list bool))
    (items : list (list nat)) (provided : list nat) (use_expert : bool)
    (n_students n_items n_subsamples : nat) : outcome dataset :=
  let n_expert := Z.to_nat (wrap64 (1 + Z.of_nat (foldr Nat.max 0 provided))) in
  rows <- map_each (index_student n_items items recall) (seq 0 n_students) ;;
  ever <- map_each (studied_row n_items train items) (seq 0 n_students) ;;
  let first := (fun r => fst (fst r)) <$> rows in
  per_item <- map_each (item_students n_students ever first) (seq 0 n_items) ;;
  Ret {| train_students := train; recall_sequences := recall;
         item_sequences := items; provided_skill_assignments := provided;
         num_students := n_students; num_items := n_items;
         num_subsamples := n_subsamples;
         use_expert_labels := use_expert;
         ever_studied := ever;
         students_who_studied := fst <$> per_item;
         all_first_encounters := snd <$> per_item;
         first_encounter := first;
         trials_studied := snd <$> rows;
         num_expert_provided_skills := n_expert;
         item_and_recall_sequences := (fun r => snd (fst r)) <$> rows |}.

(** [pRT_samples] after its resizing: one empty cell per trial. *)
Definition empty_samples (recall : list (list bool)) (n_students : nat)
  : outcome (list (list (list D))) :=
  map_each
    (fun student =>
       recall_sequence <- vec_at recall student ;;
       Ret (replicate (length recall_sequence) ([] : list D)))
    (seq 0 n_students).

(** The chain before the first seating. *)
Definition blank_chain ds (g : G) (samples : list (list (list D)))
    (beta init_alpha_prime : D) : chain G D :=
  let '(lap, g) :=
    if (init_alpha_prime <? 0)%D then
      let '(x, g) := sampleGamma HYPER_AP1 HYPER_AP2 g in (d_log x, g)
    else (d_log init_alpha_prime, g) in
  {| generator := g;
     seating_arrangement := replicate (num_items ds) UNASSIGNED;
     parameters := ∅; log_alpha_prime := lap;
     log_gamma := d_log (1 - beta)%D; num_used_skills := 0;
     table_sizes := ∅; extant_tables := ∅; trial_lookup := ∅;
     tables_ever_instantiated := UNASSIGNED + 1;
     prior_samples := []; singleton_skill_data_lp := [];
     all_items := seq 0 (num_items ds); pRT_samples := samples;
     skill_label_samples := []; train_ll_samples := [] |}.

(** The second half of the constructor: the first seating and, unless the
    expert labels are used as they are, the singleton likelihoods. *)
Definition initial_chain ds (st : chain G D) : outcome (chain G D) :=
  '(st, _) <- for_range (num_items ds) (seat_expert ds) (st, ∅) ;;
  let st :=
    set_tables_ever_instantiated
      (tables_ever_instantiated st + (num_expert_provided_skills ds + 1)) st in
  if use_expert_labels ds then Ret st
  else
    let st := set_singleton_skill_data_lp (replicate (num_items ds) []) st in
    let '(priors, g) :=
      draw_prior_samples (num_subsamples ds) (generator st) in
    let st := set_prior_samples priors (set_generator g st) in
    for_range (num_items ds) (singleton_item ds) st.

(** The constructor [MixtureWCRP::MixtureWCRP]. *)
Definition MixtureWCRP (g : G) (train : gset nat) (recall : list (list bool))
    (items : list (list nat)) (provided : list nat)
    (beta init_alpha_prime : D) (n_students n_items n_subsamples : nat)
  : outcome (dataset * chain G D) :=
  _ <- assert (negb (bool_decide (train = ∅))) ;;
  _ <- assert (negb (bool_decide (provided = []))) ;;
  _ <- assert ((0 <=? beta)%D && (beta <=? 1)%D) ;;
  ds <- index_dataset train recall items provided (equals_one beta)
          n_students n_items n_subsamples ;;
  samples <- empty_samples recall n_students ;;
  st <- initial_chain ds (blank_chain ds g samples beta init_alpha_prime) ;;
  Ret (ds, st).
End Constructor.

(** ** The driver *)

(** The stages of one iteration of [run_mcmc], in the order of the calls. *)
Inductive stage :=
  | SliceLogAlphaPrime
  | SliceLogGamma
  | SliceSkillParameters
  | ResweepPartition
  | RecordSample.

(** One iteration of [run_mcmc]: which stages run, from the guards of the
    loop body. *)
Definition run_mcmc_iteration (use_expert : bool) (iter burn : nat)
    (infer_gamma infer_alpha_prime : bool) : list stage :=
  (if negb use_expert && infer_alpha_prime then [SliceLogAlphaPrime] else [])
  ++ (if infer_gamma then [SliceLogGamma] else [])
  ++ [SliceSkillParameters]
  ++ (if negb use_expert then [ResweepPartition] else [])
  ++ (if burn <=? iter then [RecordSample] else []).

Definition run_mcmc (use_expert : bool) (num_iterations burn : nat)
    (infer_gamma infer_alpha_prime : bool) : list (list stage) :=
  (fun iter => run_mcmc_iteration use_expert iter burn infer_gamma
                 infer_alpha_prime) <$> seq 0 num_iterations.

(** ** Instances *)

(** Doubles read as real numbers: every value is finite, [pow] with an
    integer exponent is [powerRZ]. *)
#[global] Instance Rlt_decision (x y : R) : Decision (x < y)%R := Rlt_dec x y.
#[global] Instance Rle_decision (x y : R) : Decision (x <= y)%R := Rle_dec x y.

#[global] Instance R_Double : Double R := {|
  d_of_Z := IZR;
  d_add := Rplus;
  d_sub := Rminus;
  d_mul := Rmult;
  d_div := Rdiv;
  d_log := ln;
  d_exp := exp;
  d_abs := Rabs;
  d_opp := Ropp;
  d_pow := powerRZ;
  d_ltb := fun x y => bool_decide (x < y)%R;
  d_leb := fun x y => bool_decide (x <= y)%R;
  d_isfinite := fun _ => true;
|}.

(** Integers as a stand-in for doubles, to run the ledger on examples: the
    ledger does not look at the numbers it stores. *)
Definition Z_Double : Double Z :=
  Build_Double Z (fun z => z) Z.add Z.sub Z.mul Z.div
    (fun z => (- Z.log2 z)%Z) (fun z => (2 ^ z)%Z) Z.abs Z.opp Z.pow
    Z.ltb Z.leb (fun _ => true).

(** A generator that always makes the same draw; its state counts them. *)
Definition fixed_Random {D : Type} (u : D) : Random nat D :=
  Build_Random nat D
    (fun g => (u, S g))
    (fun _ _ g => (u, S g))
    (fun _ g => (g mod 2, S g))
    (fun _ l g => (l, S g)).

(** ** Invariants of the ledger *)

Section Invariants.
Context {G D : Type} `{Double D, Constants D, Random G D}.
Implicit Type st : chain G D.
Implicit Type ds : dataset.

(** Trial [trial] of [items] is a trial of [item]. *)
Definition studies (items : list nat) (item trial : nat) : bool :=
  bool_decide (items !! trial = Some item).

(** Trial [trial] of [items] is a trial of an item seated at [table]. *)
Definition practises (seating items : list nat) (table trial : nat) : bool :=
  bool_decide (items !! trial ≫= (seating !!.) = Some table).

Definition is_train ds (student : nat) : Prop :=
  student ∈ train_students ds ∧ student < num_students ds.

(** What the constructor's helper variables hold. *)
Record dataset_wf ds : Prop := {
  wf_items_bound : (Z.of_nat (num_items ds) < 2 ^ 64)%Z;
  wf_sequences :
    forall student, student < num_students ds ->
      exists items recall pairs studied,
        item_sequences ds !! student = Some items /\
        recall_sequences ds !! student = Some recall /\
        item_and_recall_sequences ds !! student = Some pairs /\
        trials_studied ds !! student = Some studied /\
        (Z.of_nat (length items) < 2 ^ 64)%Z /\
        Forall (fun item => item < num_items ds) items /\
        length pairs = length items /\
        (forall trial item, items !! trial = Some item ->
           exists did_recall, recall !! trial = Some did_recall /\
                              pairs !! trial = Some (item, did_recall)) /\
        length studied = num_items ds /\
        (forall item, item < num_items ds ->
           studied !! item
           = Some (List.filter (studies items item) (seq 0 (length items))));
  wf_students_len : length (students_who_studied ds) = num_items ds;
  wf_students :
    forall item students, students_who_studied ds !! item = Some students ->
      NoDup students /\
      forall student, student ∈ students <->
        is_train ds student /\
        exists items, item_sequences ds !! student = Some items /\ item ∈ items;
}.

(** Every item has an expert label, below the number of expert skills. *)
Definition labels_wf ds : Prop :=
  forall item, item < num_items ds ->
    exists label, provided_skill_assignments ds !! item = Some label /\
                  label < num_expert_provided_skills ds.

(** The trials that [trial_lookup[table][student]] must hold: those of the
    training student on items seated at the table, in increasing order;
    no entry when there is none. *)
Definition expected_trials ds (seating : list nat) (table student : nat)
  : option (list nat) :=
  if bool_decide (is_train ds student) then
    match item_sequences ds !! student with
    | Some items =>
        match List.filter (practises seating items table)
                (seq 0 (length items)) with
        | [] => None
        | l => Some l
        end
    | None => None
    end
  else None.

(** The number of items seated at [table]. *)
Definition seated (seating : list nat) (table : nat) : nat :=
  length (List.filter (Nat.eqb table) seating).

Record ledger_inv ds st : Prop := {
  inv_seating_len : length (seating_arrangement st) = num_items ds;
  inv_num_used : num_used_skills st = Z.of_nat (size (table_sizes st));
  inv_sizes :
    forall table,
      table_sizes st !! table
      = if bool_decide (table ≠ UNASSIGNED
                        ∧ 0 < seated (seating_arrangement st) table)
        then Some (Z.of_nat (seated (seating_arrangement st) table))
        else None;
  inv_extant : extant_tables st = dom (table_sizes st);
  inv_parameters : dom (parameters st) = dom (table_sizes st);
  inv_lookup_dom : dom (trial_lookup st) = dom (table_sizes st);
  inv_lookup :
    forall table by_student, trial_lookup st !! table = Some by_student ->
      forall student,
        by_student !! student
        = expected_trials ds (seating_arrangement st) table student;
}.

(** Table ids are handed out in increasing order. *)
Definition fresh_inv st : Prop :=
  UNASSIGNED < tables_ever_instantiated st /\
  forall table, table ∈ dom (table_sizes st) ->
    table < tables_ever_instantiated st.

(** Every cell of [pRT_samples] holds one prediction per recorded sample. *)
Record samples_inv ds st : Prop := {
  inv_samples_rows : length (pRT_samples st) = num_students ds;
  inv_samples_cells :
    forall student row, pRT_samples st !! student = Some row ->
      exists recall, recall_sequences ds !! student = Some recall /\
                     length row = length recall /\
                     forall trial cell, row !! trial = Some cell ->
                       length cell = length (train_ll_samples st);
  inv_samples_labels :
    length (skill_label_samples st) = length (train_ll_samples st);
}.

(** The expert labels leave room for the table ids of the constructor: the
    largest expert table [1 + label], the [num_expert_provided_skills + 1]
    ids that [tables_ever_instantiated] skips, and at most two fresh tables
    per item in the pass over the singleton skills, all below [2 ^ 64]. With
    a larger label the [size_t] arithmetic of the constructor wraps around
    (the label [2 ^ 64 - 1] is seated at [UNASSIGNED]). *)
Definition labels_fit (provided : list nat) (n_items : nat) : Prop :=
  Forall (fun label : nat =>
            (Z.of_nat label + 2 * Z.of_nat n_items + 3 < 2 ^ 64)%Z) provided.

(** The states of a chain: the constructed one (from expert labels that
    fit), those that the steps of [gibbs_resample_skill] go through (an item leaves its table; the
    unseated item sits down at an extant table or at a new one), those
    after a slice-sampling update (the parameters of a skill, the two
    hyperparameters), a draw or a shuffle, and those after
    [record_sample]. *)
Inductive reachable ds : chain G D -> Prop :=
  | reach_constructed g train recall items provided beta init_alpha_prime
      n_students n_items n_subsamples st :
      (Z.of_nat n_items < 2 ^ 64)%Z ->
      Forall (fun l : list nat => (Z.of_nat (length l) < 2 ^ 64)%Z) items ->
      labels_fit provided n_items ->
      MixtureWCRP g train recall items provided beta init_alpha_prime
        n_students n_items n_subsamples = Ret (ds, st) ->
      reachable ds st
  | reach_remove st item table deleted st' :
      reachable ds st ->
      seating_arrangement st !! item = Some table ->
      table ≠ UNASSIGNED ->
      remove_item_from_table ds item table st = Ret (deleted, st') ->
      reachable ds st'
  | reach_assign_extant st item table st' :
      reachable ds st ->
      seating_arrangement st !! item = Some UNASSIGNED ->
      table ∈ extant_tables st ->
      assign_item_to_table ds item table false st = Ret st' ->
      reachable ds st'
  | reach_assign_new st item st' :
      reachable ds st ->
      seating_arrangement st !! item = Some UNASSIGNED ->
      assign_item_to_table ds item (tables_ever_instantiated st) true
        (set_tables_ever_instantiated (S (tables_ever_instantiated st)) st)
      = Ret st' ->
      reachable ds st'
  | reach_parameters st table params :
      reachable ds st ->
      table ∈ dom (parameters st) ->
      reachable ds (set_parameters (<[table := params]> (parameters st)) st)
  | reach_log_alpha_prime st x :
      reachable ds st -> reachable ds (set_log_alpha_prime x st)
  | reach_log_gamma st x :
      reachable ds st -> reachable ds (set_log_gamma x st)
  | reach_generator st g :
      reachable ds st -> reachable ds (set_generator g st)
  | reach_shuffle st l :
      reachable ds st -> reachable ds (set_all_items l st)
  | reach_record st train_ll st' :
      reachable ds st ->
      record_sample ds train_ll st = Ret st' ->
      reachable ds st'.

(** Every item has a table. *)
Definition settled st : Prop :=
  Forall (fun table => table ≠ UNASSIGNED) (seating_arrangement st).
End Invariants.

(** The entry that [remove_item_from_table] leaves for a student whose
    list is [cur], when the trials [ts] of the item are taken out. *)
Definition remaining (cur ts : list nat) : option (list nat) :=
  if (wrap64 (Z.of_nat (length cur) - Z.of_nat (length ts)) =? 0)%Z
  then None else Some (remove_trials cur ts).

(** The recorded samples are the same in both states. *)
Definition same_samples {G D} (st st' : chain G D) : Prop :=
  pRT_samples st' = pRT_samples st /\
  skill_label_samples st' = skill_label_samples st /\
  train_ll_samples st' = train_ll_samples st.

(** The ledger is the same in both states, whatever the values of the
    parameters. *)
Definition same_ledger {G D} (st st' : chain G D) : Prop :=
  seating_arrangement st' = seating_arrangement st /\
  num_used_skills st' = num_used_skills st /\
  table_sizes st' = table_sizes st /\
  extant_tables st' = extant_tables st /\
  trial_lookup st' = trial_lookup st /\
  tables_ever_instantiated st' = tables_ever_instantiated st /\
  dom (parameters st') = dom (parameters st).

(** The invariants of a chain. *)
Definition chain_inv {G D} (ds : dataset) (st : chain G D) : Prop :=
  ledger_inv ds st /\ fresh_inv st /\ samples_inv ds st.

(** ** A small dataset to run the model on

    Three items (labels 0, 0, 1) and three students, two of them training;
    the model is run over the integers with a generator that draws 1. *)

Definition demo_Constants : Constants Z := Build_Constants Z 0%Z 1%Z 1%Z 1%Z.

Definition demo_Random : Random nat Z := fixed_Random 1%Z.

Definition demo_run : outcome (dataset * chain nat Z) :=
  @MixtureWCRP nat Z Z_Double demo_Constants demo_Random
    0 {[0; 1]} [[true; false; true]; [false; true]; [true]]
    [[0; 1; 0]; [1; 2]; [2]] [0; 0; 1] 0%Z 1%Z 3 3 2.

Definition demo_dataset : dataset :=
  match demo_run with
  | Ret (ds, _) => ds
  | Fail _ =>
      {| train_students := ∅; recall_sequences := []; item_sequences := [];
         provided_skill_assignments := []; num_students := 0; num_items := 0;
         num_subsamples := 0; use_expert_labels := true; ever_studied := [];
         students_who_studied := []; all_first_encounters := [];
         first_encounter := []; trials_studied := [];
         num_expert_provided_skills := 0; item_and_recall_sequences := [] |}
  end.

Definition demo_chain : chain nat Z :=
  match demo_run with
  | Ret (_, st) => st
  | Fail _ =>
      {| generator := 0; seating_arrangement := []; parameters := ∅;
         log_alpha_prime := 0%Z; log_gamma := 0%Z; num_used_skills := 0;
         table_sizes := ∅; extant_tables := ∅; trial_lookup := ∅;
         tables_ever_instantiated := 0; prior_samples := [];
         singleton_skill_data_lp := []; all_items := []; pRT_samples := [];
         skill_label_samples := []; train_ll_samples := [] |}
  end.

(** The small dataset with the expert labels used as they are: [beta] is
    1. *)
Definition demo_expert_run : outcome (dataset * chain nat Z) :=
  @MixtureWCRP nat Z Z_Double demo_Constants demo_Random
    0 {[0; 1]} [[true; false; true]; [false; true]; [true]]
    [[0; 1; 0]; [1; 2]; [2]] [0; 0; 1] 1%Z 1%Z 3 3 2.

Definition demo_expert_dataset : dataset :=
  match demo_expert_run with
  | Ret (ds, _) => ds
  | Fail _ => demo_dataset
  end.

Definition demo_expert_chain : chain nat Z :=
  match demo_expert_run with
  | Ret (_, st) => st
  | Fail _ => demo_chain
  end.

(** The chain of the small dataset after one recorded sample. *)
Definition demo_recorded : chain nat Z :=
  match @record_sample nat Z Z_Double demo_dataset 0%Z demo_chain with
  | Ret st => st
  | Fail _ => demo_chain
  end.

(** The chain after one recorded sample when the parameters of skill 1 have
    been updated, and after a second recorded sample. *)
Definition demo_retuned : chain nat Z :=
  set_parameters
    (<[1 := {| psi := 0%Z; mu := 1%Z; pi1 := 3%Z; prop0 := 2%Z |}]>
       (parameters demo_recorded))
    demo_recorded.

Definition demo_recorded_twice : chain nat Z :=
  match @record_sample nat Z Z_Double demo_dataset (-1)%Z demo_retuned with
  | Ret st => st
  | Fail _ => demo_retuned
  end.

(** The facts about the order of finite doubles that the proofs about
    log-likelihoods use; the reals and the integers satisfy them. *)
Class DoubleOrder (D : Type) `{Double D} : Prop := {
  leb_zero_refl : (0 <=? 0)%D = true;
  not_pos_leb : forall x : D,
      d_isfinite x = true -> (0 <? x)%D = false -> (x <=? 0)%D = true;
  add_nonpos : forall a b : D,
      (a <=? 0)%D = true -> (b <=? 0)%D = true -> (a + b <=? 0)%D = true;
  nonpos_min : forall x : D,
      (x <=? 0)%D = true -> (x <? 0)%D = false -> x = 0%D;
  ltb_irrefl : forall x : D, (x <? x)%D = false;
  ltb_neg_trans : forall a b c : D,
      (a <? b)%D = true -> (a <? c)%D = false -> (b <? c)%D = false;
}.

(** Three recorded samples over the integers. *)
Definition demo_samples : chain nat Z :=
  {| generator := 0; seating_arrangement := [1; 2]; parameters := ∅;
     log_alpha_prime := 0%Z; log_gamma := 0%Z; num_used_skills := 2;
     table_sizes := ∅; extant_tables := ∅; trial_lookup := ∅;
     tables_ever_instantiated := 3; prior_samples := [];
     singleton_skill_data_lp := []; all_items := [0; 1]; pRT_samples := [];
     skill_label_samples := [[0; 0]; [0; 1]; [1; 0]];
     train_ll_samples := [(-3)%Z; (-1)%Z; (-2)%Z] |}.

(** The mean of a list of doubles: their sum, accumulated from 0 from left
    to right, divided by their number. *)
Definition arithmetic_mean `{Double D} (l : list D) : D :=
  (foldl d_add 0 l / d_of_Z (Z.of_nat (length l)))%D.

(** The belief after the trials [trials] of a skill, from the belief [p]:
    what both versions of [skill_log_likelihood] and [cache_p_hat] compute
    for the trials they only replay. *)
Definition replay `{Double D} (pairs : list (nat * bool))
    (skill_pi0 skill_pi1 skill_mu : D) (trials : list nat) (p : D) : D :=
  foldl (fun p trial =>
           match pairs !! trial with
           | Some item_recall => update_belief (snd item_recall) skill_pi0 skill_pi1 skill_mu p
           | None => p
           end) p trials.

(** ** The recorded predictions *)

(** Modelled from the spec: the belief in the mastery of a skill before a
    trial.  It starts at the prior [psi] and is advanced by the filtering
    update at each of the student's earlier trials of the skill. *)
Definition belief_before `{Double D} (params : bkt_parameters D)
    (recall_sequence : list bool) (trials : list nat) : D :=
  foldl (fun p trial =>
           match recall_sequence !! trial with
           | Some did_recall =>
               update_belief did_recall (pi1 params * prop0 params)%D
                 (pi1 params) (mu params) p
           | None => p
           end) (psi params) trials.

(** Modelled from the spec: the predicted probability of a correct response
    of [student] at [trial] under the chain state [st]: it is
    [pi0 * (1 - p) + pi1 * p] with [pi0 = pi1 * prop0], for the parameters
    of the skill of the trial's item and the belief [p] before the trial. *)
Definition predicted_recall {G D} `{Double D} (ds : dataset) (st : chain G D)
    (student trial : nat) : option D :=
  recall_sequence ← recall_sequences ds !! student;
  item_sequence ← item_sequences ds !! student;
  item ← item_sequence !! trial;
  table_id ← seating_arrangement st !! item;
  params ← parameters st !! table_id;
  Some (predict_correct (pi1 params * prop0 params)%D (pi1 params)
          (belief_before params recall_sequence
             (List.filter
                (practises (seating_arrangement st) item_sequence table_id)
                (seq 0 trial)))).

(** The samples that the chain [st] holds were recorded at the chain states
    [history], the oldest first: none in a chain without samples, the same
    ones after a step that leaves the samples alone, one more after
    [record_sample]. *)
Inductive retained {G D} `{Double D, Constants D, Random G D} (ds : dataset)
  : list (chain G D) -> chain G D -> Prop :=
  | retained_none st :
      reachable ds st -> train_ll_samples st = [] -> retained ds [] st
  | retained_keep history st st' :
      retained ds history st -> reachable ds st' -> same_samples st st' ->
      retained ds history st'
  | retained_record history st train_ll st' :
      retained ds history st -> record_sample ds train_ll st = Ret st' ->
      retained ds (history ++ [st]) st'.

(** The constructed chain after an update of the parameters of skill 1. *)
Definition demo_tuned : chain nat Z :=
  set_parameters
    (<[1 := {| psi := 0%Z; mu := 2%Z; pi1 := 4%Z; prop0 := 1%Z |}]>
       (parameters demo_chain))
    demo_chain.

(** The cached beliefs of two students of the small dataset. *)
Definition demo_caches : list (gmap nat Z) :=
  match @cache_all nat Z Z_Double demo_dataset [0; 1] [2; 1] demo_tuned with
  | Ret caches => caches
  | Fail _ => []
  end.

(** The other items that [compute_K] finds at the table: those that its
    loop counts. *)
Definition others_at_table {G D} (ds : dataset) (st : chain G D)
    (item table_id : nat) (generative_mode : bool) : list nat :=
  List.filter
    (fun other_item =>
       bool_decide (item ≠ other_item
                    ∧ seating_arrangement st !! other_item = Some table_id))
    (seq 0 (if generative_mode then item else num_items ds)).

(** All other items at the table share the expert label of the item. *)
Definition pure_table {G D} (ds : dataset) (st : chain G D)
    (item table_id : nat) (generative_mode : bool) : Prop :=
  Forall (fun other_item =>
            provided_skill_assignments ds !! other_item
            = provided_skill_assignments ds !! item)
    (others_at_table ds st item table_id generative_mode).

(** The chain of the small dataset when item 0 has left table 1, with the
    doubles left open: [x_log_gamma] is [log_gamma], [p] stands for every
    other double. *)
Definition unseated_chain {D : Type} (x_log_gamma p : D) : chain nat D :=
  let params := {| psi := p; mu := p; pi1 := p; prop0 := p |} in
  {| generator := 32; seating_arrangement := [0; 1; 7];
     parameters := {[1 := params; 7 := params]};
     log_alpha_prime := p; log_gamma := x_log_gamma; num_used_skills := 2;
     table_sizes := {[1 := 1%Z; 7 := 1%Z]}; extant_tables := {[1; 7]};
     trial_lookup := {[1 := {[0 := [1]; 1 := [0]]}; 7 := {[1 := [1]]}]};
     tables_ever_instantiated := 8; prior_samples := [params; params];
     singleton_skill_data_lp := [[p; p]; [p; p]; [p; p]];
     all_items := [0; 1; 2];
     pRT_samples := [[[]; []; []]; [[]; []]; [[]]];
     skill_label_samples := []; train_ll_samples := [] |}.



(** The constructed chain of the small dataset after item 0 has left its
    table. *)
Definition demo_unseated : chain nat Z :=
  match remove_item_from_table demo_dataset 0 1 demo_chain with
  | Ret (_, st) => st
  | Fail _ => demo_chain
  end.

(** The resweep of the partition in [run_mcmc]: the items are shuffled and
    resampled one after the other. *)
Definition resample_partition {G D} `{Double D, Constants D, Random G D}
    (ds : dataset) (st : chain G D) : outcome (chain G D) :=
  let '(items, g) := shuffle (all_items st) (generator st) in
  let st := set_all_items items (set_generator g st) in
  for_each (all_items st) (gibbs_resample_skill ds) st.

(** The constructed chain of the small dataset after a Gibbs step on item 2,
    and after a resweep. *)
Definition demo_resampled : chain nat Z :=
  match @gibbs_resample_skill nat Z Z_Double demo_Constants demo_Random
          demo_dataset 2 demo_chain with
  | Ret st => st
  | Fail _ => demo_chain
  end.

Definition demo_reswept : chain nat Z :=
  match @resample_partition nat Z Z_Double demo_Constants demo_Random
          demo_dataset demo_chain with
  | Ret st => st
  | Fail _ => demo_chain
  end.

(** Two items sit at the same table exactly when they carry the same
    expert label. *)
Definition seats_by_label (provided seating : list nat) : Prop :=
  forall i j li lj ti tj,
    provided !! i = Some li -> provided !! j = Some lj ->
    seating !! i = Some ti -> seating !! j = Some tj ->
    (ti = tj <-> li = lj).

(** [sampleUniform01] draws from the unit interval. *)
Definition uniform_in_unit_interval {G : Type} `{Random G R} : Prop :=
  forall g : G, (0 <= (sampleUniform01 g).1 <= 1)%R.

(** Constants and a generator over the reals, to run examples: the
    tolerance one thousandth, every draw one half. *)
Definition real_Constants : Constants R :=
  Build_Constants R (1 / 1000)%R (999 / 1000)%R 1%R 1%R.

Definition half_Random : Random nat R := fixed_Random (1 / 2)%R.

(** ** The data log-likelihood, the seating probability and the priors *)

Section DataLikelihood.
Context {G D : Type} `{Double D, Constants D, Random G D}.
Implicit Type st : chain G D.
Implicit Type ds : dataset.

(** One trial of [data_log_likelihood]: the belief of the trial's skill
    advances, and the trial is scored from [start_trial] on. *)
Definition data_trial (recall_sequence : list bool) (item_sequence : list nat)
    st (start_trial trial : nat) (acc : D * gmap nat D)
  : outcome (D * gmap nat D) :=
  let '(log_lik, p_hat) := acc in
  did_recall <- vec_at recall_sequence trial ;;
  item <- vec_at item_sequence trial ;;
  table_id <- vec_at (seating_arrangement st) item ;;
  skill_params <- map_at (parameters st) table_id ;;
  let skill_pi1 := pi1 skill_params in
  let skill_pi0 := (skill_pi1 * prop0 skill_params)%D in
  let skill_mu := mu skill_params in
  cur_p_hat <- map_at p_hat table_id ;;
  Ret (if start_trial <=? trial
       then (log_lik + log_response did_recall skill_pi0 skill_pi1 cur_p_hat)%D
       else log_lik,
       <[table_id :=
           update_belief did_recall skill_pi0 skill_pi1 skill_mu cur_p_hat]>
         p_hat).

(** [data_log_likelihood] of one student from [start_trial] on; the second
    component is [num_trials]. *)
Definition data_log_likelihood ds (student start_trial : nat) st
  : outcome (D * nat) :=
  recall_sequence <- vec_at (recall_sequences ds) student ;;
  item_sequence <- vec_at (item_sequences ds) student ;;
  let num_trials := length item_sequence in
  r <- for_range num_trials
         (data_trial recall_sequence item_sequence st start_trial)
         (0%D, psi <$> parameters st) ;;
  _ <- assert (d_isfinite (fst r)) ;;
  _ <- assert (fst r <=? 0)%D ;;
  Ret (fst r, num_trials).

(** [data_log_likelihood] of several students. *)
Definition data_log_likelihood_students ds
    (students first_exposures : list nat) st : outcome D :=
  for_range (length students)
    (fun k ll =>
       student <- vec_at students k ;;
       first_exposure <- vec_at first_exposures k ;;
       r <- data_log_likelihood ds student first_exposure st ;;
       Ret (ll + fst r)%D)
    0%D.

(** [full_data_log_likelihood]; the second component is
    [trials_included]. *)
Definition full_data_log_likelihood ds (is_training : bool) st
  : outcome (D * Z) :=
  for_range (num_students ds)
    (fun student (acc : D * Z) =>
       if (is_training && bool_decide (student ∈ train_students ds))
          || (negb is_training
              && negb (bool_decide (student ∈ train_students ds))) then
         r <- data_log_likelihood ds student 0 st ;;
         Ret ((fst acc + fst r)%D, wrap64 (snd acc + Z.of_nat (snd r)))
       else Ret acc)
    (0%D, 0%Z).

(** The loop of [log_seating_prob] over the tables that exist when only
    the items before [item] have sat down; [chosen] holds
    [chosen_proportional_prob] once [chose_old] is set. *)
Definition old_table_prob ds st (item chosen_table_id : nat)
    (entry : nat * Z) (acc : list D * option D)
  : outcome (list D * option D) :=
  let '(proportional_probs, chosen) := acc in
  K <- compute_K ds item (fst entry) true st ;;
  let prob :=
    d_exp (log_old_table_probability (snd entry) K (log_gamma st)
             (num_expert_provided_skills ds)) in
  Ret (proportional_probs ++ [prob],
       if bool_decide (fst entry = chosen_table_id) then Some prob
       else chosen).

(** The body of the loop of [log_seating_prob] over the items. *)
Definition seat_next ds st (item : nat) (acc : D * gmap nat Z)
  : outcome (D * gmap nat Z) :=
  let '(log_prob, table_counts_so_far) := acc in
  chosen_table_id <- vec_at (seating_arrangement st) item ;;
  r <- for_each (map_to_list table_counts_so_far)
         (old_table_prob ds st item chosen_table_id) ([], None) ;;
  let proportional_probs :=
    fst r ++ [d_exp (log_new_table_probability (log_alpha_prime st)
                       (log_gamma st) (num_expert_provided_skills ds))] in
  chosen_proportional_prob <-
    match snd r with
    | Some prob => Ret prob
    | None => vec_at proportional_probs (length proportional_probs - 1)
    end ;;
  let log_prob :=
    (log_prob + (d_log chosen_proportional_prob
                 - d_log (vector_sum proportional_probs)))%D in
  let table_counts_so_far :=
    match table_counts_so_far !! chosen_table_id with
    | None => <[chosen_table_id := 1%Z]> table_counts_so_far
    | Some c => <[chosen_table_id := wrap64 (c + 1)]> table_counts_so_far
    end in
  Ret (log_prob, table_counts_so_far).

(** [log_seating_prob]: the log joint probability of the seating
    arrangement, the items sitting down in the order of their index. *)
Definition log_seating_prob ds st : outcome D :=
  r <- for_range (num_items ds) (seat_next ds st) (0%D, ∅) ;;
  Ret (fst r).

(** [studied_any_of] *)
Fixpoint studied_any_of ds (student : nat) (items : list nat) : outcome bool :=
  match items with
  | [] => Ret false
  | item :: items' =>
      row <- vec_at (ever_studied ds) student ;;
      studied <- vec_at row item ;;
      if studied : bool then Ret true else studied_any_of ds student items'
  end.

(** The two prior densities of the hyperparameters. *)
Definition log_loggamma_prior_density (x : D) : outcome D :=
  _ <- assert (x <=? 0)%D ;;
  Ret 0%D.

Definition log_logalphaprime_prior_density (log_alpha_prime : D) : D :=
  let alpha_prime := d_exp log_alpha_prime in
  ((HYPER_AP1 - 1) * log_alpha_prime - alpha_prime / HYPER_AP2)%D.
End DataLikelihood.

(** Parameters of a skill strictly between 0 and 1, where the filter of
    knowledge tracing is well defined. *)
Definition valid_bkt (params : bkt_parameters R) : Prop :=
  (0 < psi params < 1)%R /\ (0 < mu params < 1)%R /\
  (0 < pi1 params < 1)%R /\ (0 < prop0 params < 1)%R.

(** Every item sits at a table that has parameters, and all parameters are
    valid. *)
Definition seats_have_valid_parameters {G} (st : chain G R) : Prop :=
  (forall item table,
      seating_arrangement st !! item = Some table ->
      is_Some (parameters st !! table)) /\
  (forall table params,
      parameters st !! table = Some params -> valid_bkt params).

(** The constructed chain of the small dataset, with the doubles left open:
    [x_log_gamma] is [log_gamma], [p] stands for every other double. *)
Definition seated_chain {D : Type} (x_log_gamma p : D) : chain nat D :=
  let params := {| psi := p; mu := p; pi1 := p; prop0 := p |} in
  {| generator := 32; seating_arrangement := [1; 1; 7];
     parameters := {[1 := params; 7 := params]};
     log_alpha_prime := p; log_gamma := x_log_gamma; num_used_skills := 2;
     table_sizes := {[1 := 2%Z; 7 := 1%Z]}; extant_tables := {[1; 7]};
     trial_lookup := {[1 := {[0 := [0; 1; 2]; 1 := [0]]}; 7 := {[1 := [1]]}]};
     tables_ever_instantiated := 8; prior_samples := [params; params];
     singleton_skill_data_lp := [[p; p]; [p; p]; [p; p]];
     all_items := [0; 1; 2];
     pRT_samples := [[[]; []; []]; [[]; []]; [[]]];
     skill_label_samples := []; train_ll_samples := [] |}.

(** The students that [full_data_log_likelihood] includes, and the number
    of their trials. *)
Definition included_students (ds : dataset) (is_training : bool) : list nat :=
  List.filter
    (fun student =>
       (is_training && bool_decide (student ∈ train_students ds))
       || (negb is_training
           && negb (bool_decide (student ∈ train_students ds))))
    (seq 0 (num_students ds)).

Definition number_of_trials (ds : dataset) (students : list nat) : nat :=
  sum_list_with
    (fun student => length (default [] (item_sequences ds !! student)))
    students.

(** Every recorded prediction is strictly between 0 and 1. *)
Definition predictions_in_unit {G} (st : chain G R) : Prop :=
  forall student row trial cell p,
    pRT_samples st !! student = Some row ->
    row !! trial = Some cell ->
    p ∈ cell -> (0 < p < 1)%R.

(** The recall sequence of every student is as long as the item
    sequence. *)
Definition sequences_aligned (ds : dataset) : Prop :=
  forall student recall_sequence item_sequence,
    recall_sequences ds !! student = Some recall_sequence ->
    item_sequences ds !! student = Some item_sequence ->
    length recall_sequence = length item_sequence.

(** The table of recorded predictions has its shape, and its entries are
    strictly between 0 and 1. *)
Definition samples_ok (ds : dataset) (samples : list (list (list R))) : Prop :=
  length samples = num_students ds /\
  (forall s row, samples !! s = Some row ->
     exists recall, recall_sequences ds !! s = Some recall /\
                    length row = length recall) /\
  (forall s row trial cell p,
      samples !! s = Some row -> row !! trial = Some cell ->
      p ∈ cell -> (0 < p < 1)%R).

(** The chain [seated_chain] with two recorded samples for the first trial
    of the first student. *)
Definition recorded_chain : chain nat R :=
  set_train_ll_samples [(-1)%R; (-2)%R]
    (set_skill_label_samples [[0; 0; 1]; [0; 0; 1]]
       (set_pRT_samples
          [[[(1 / 2)%R; (1 / 4)%R]; []; []]; [[]; []]; [[]]]
          (seated_chain 0%R (1 / 2)%R))).

(** * Verification *)

(** ** Outcomes and loops *)

Lemma obind_ret {A B} (m : outcome A) (k : A -> outcome B) (b : B) :
  obind m k = Ret b -> exists a, m = Ret a /\ k a = Ret b.
Proof. destruct m as [a|f]; simpl; [eauto | discriminate]. Qed.

Lemma assert_ret (b : bool) (u : unit) : assert b = Ret u -> b = true.
Proof. destruct b; [reflexivity | discriminate]. Qed.

Lemma vec_at_ret {A} (v : list A) i x : vec_at v i = Ret x <-> v !! i = Some x.
Proof. unfold vec_at. destruct (v !! i); split; congruence. Qed.

Lemma map_at_ret {A} (m : gmap nat A) k x : map_at m k = Ret x <-> m !! k = Some x.
Proof. unfold map_at. destruct (m !! k); split; congruence. Qed.

Lemma vec_get_ret {A} (v : list A) i x : vec_get v i = Ret x <-> v !! i = Some x.
Proof. unfold vec_get. destruct (v !! i); split; congruence. Qed.

Lemma vec_set_ret {A} (v v' : list A) i x :
  vec_set v i x = Ret v' <-> i < length v /\ v' = <[i:=x]> v.
Proof.
  unfold vec_set. destruct (decide (i < length v)); split.
  - intros [= <-]. auto.
  - intros [_ ->]. reflexivity.
  - discriminate.
  - intros [? _]. lia.
Qed.

(** Invert a successful computation, bind after bind. *)
Ltac inv_ret H :=
  repeat
    match type of H with
    | obind _ _ = Ret _ =>
        let a := fresh "a" in
        let Ha := fresh "Ha" in
        apply obind_ret in H as (a & Ha & H)
    | (let '(_, _) := ?p in _) = Ret _ => destruct p eqn:?
    | (match ?p with (_, _) => _ end) = Ret _ => destruct p eqn:?
    | Ret _ = Ret _ => injection H as H
    end.

Ltac simpl_ret :=
  repeat
    match goal with
    | H : vec_at _ _ = Ret _ |- _ => apply vec_at_ret in H
    | H : map_at _ _ = Ret _ |- _ => apply map_at_ret in H
    | H : vec_get _ _ = Ret _ |- _ => apply vec_get_ret in H
    | H : vec_set _ _ _ = Ret _ |- _ =>
        let Hlt := fresh "Hlt" in apply vec_set_ret in H as [Hlt H]
    | H : assert _ = Ret _ |- _ => apply assert_ret in H
    end.

(** A loop invariant indexed by the elements already visited. *)
Lemma for_each_inv {A S} (P : list A -> S -> Prop) (body : A -> S -> outcome S)
    (l : list A) (s0 s' : S) :
  P [] s0 ->
  (forall pre x suf s s1,
      l = pre ++ x :: suf -> P pre s -> body x s = Ret s1 -> P (pre ++ [x]) s1) ->
  for_each l body s0 = Ret s' ->
  P l s'.
Proof.
  intros H0 Hstep.
  assert (Hgen : forall suf pre s,
             l = pre ++ suf -> P pre s -> for_each suf body s = Ret s' -> P l s').
  { induction suf as [|x suf IH]; intros pre s Hl HP Hrun; simpl in Hrun.
    - injection Hrun as <-. rewrite app_nil_r in Hl. by subst.
    - apply obind_ret in Hrun as (s1 & Hb & Hrun).
      apply (IH (pre ++ [x]) s1); [by rewrite <- app_assoc | | done].
      eapply Hstep; eauto. }
  intros Hrun. by apply (Hgen l [] s0).
Qed.

Lemma for_each_app {A S} (body : A -> S -> outcome S) (l1 l2 : list A) (s : S) :
  for_each (l1 ++ l2) body s = (s' <- for_each l1 body s ;; for_each l2 body s').
Proof.
  revert s. induction l1 as [|x l1 IH]; intros s; simpl; [done|].
  destruct (body x s); simpl; [apply IH | done].
Qed.

Lemma map_each_ret {A B} (f : A -> outcome B) (l : list A) (ys : list B) :
  map_each f l = Ret ys -> Forall2 (fun x y => f x = Ret y) l ys.
Proof.
  revert ys. induction l as [|x l IH]; intros ys Hrun; simpl in Hrun.
  - injection Hrun as <-. constructor.
  - inv_ret Hrun. subst ys. constructor; auto.
Qed.

(** ** Sorted lists of trials *)

Lemma merge_nil_r (l : list nat) : merge l [] = l.
Proof. by destruct l. Qed.

Lemma merge_nil_l (l : list nat) : merge [] l = l.
Proof. by destruct l. Qed.

Lemma merge_cons_l (x : nat) (l1 l2 : list nat) :
  Forall (lt x) l2 -> merge (x :: l1) l2 = x :: merge l1 l2.
Proof.
  intros Hall. destruct l2 as [|y l2]; simpl.
  - by rewrite merge_nil_r.
  - inversion_clear Hall as [|? ? Hxy _].
    destruct (Nat.ltb_spec y x); [lia | done].
Qed.

Lemma merge_cons_r (x : nat) (l1 l2 : list nat) :
  Forall (lt x) l1 -> merge l1 (x :: l2) = x :: merge l1 l2.
Proof.
  intros Hall. destruct l1 as [|y l1]; [by rewrite !merge_nil_l|].
  inversion_clear Hall as [|? ? Hxy _]. simpl.
  destruct (Nat.ltb_spec x y); [done | lia].
Qed.

Lemma Forall_filter_bool {A} (P : A -> Prop) (f : A -> bool) (l : list A) :
  Forall P l -> Forall P (List.filter f l).
Proof.
  induction 1 as [|x l Hx _ IH]; simpl; [constructor|].
  destruct (f x); [by constructor | done].
Qed.

(** Merging the trials of two disjoint selections of a sorted list gives the
    trials of their union. *)
Lemma merge_filter (f g : nat -> bool) (l : list nat) :
  StronglySorted lt l ->
  (forall x, x ∈ l -> f x = true -> g x = true -> False) ->
  merge (List.filter f l) (List.filter g l)
  = List.filter (fun x => f x || g x) l.
Proof.
  induction 1 as [|x l Hsorted IH Hall]; intros Hdisj; simpl; [done|].
  assert (Hdisj' : forall y, y ∈ l -> f y = true -> g y = true -> False).
  { intros y Hy. apply Hdisj. by right. }
  specialize (IH Hdisj').
  destruct (f x) eqn:Hf, (g x) eqn:Hg; cbv iota; cbn [orb].
  - exfalso. apply (Hdisj x); [left | done | done].
  - rewrite merge_cons_l by by apply Forall_filter_bool. by rewrite IH.
  - rewrite merge_cons_r by by apply Forall_filter_bool. by rewrite IH.
  - done.
Qed.

Lemma filter_length_union (f g : nat -> bool) (l : list nat) :
  (forall x, x ∈ l -> f x = true -> g x = true -> False) ->
  length (List.filter (fun x => f x || g x) l)
  = length (List.filter f l) + length (List.filter g l).
Proof.
  induction l as [|x l IH]; intros Hdisj; simpl; [done|].
  assert (Hdisj' : forall y, y ∈ l -> f y = true -> g y = true -> False).
  { intros y Hy. apply Hdisj. by right. }
  specialize (IH Hdisj').
  destruct (f x) eqn:Hf, (g x) eqn:Hg; simpl; try lia.
  exfalso. apply (Hdisj x); [left | done | done].
Qed.

(** The filtering loop of [remove_item_from_table] undoes the merge. *)
Lemma remove_trials_loop (f g : nat -> bool) (l pre tmp : list nat) :
  NoDup l ->
  (forall x, x ∈ l -> f x = true -> g x = true -> False) ->
  fold_left (remove_trials_step (pre ++ List.filter g l))
    (List.filter (fun x => f x || g x) l) (tmp, length pre)
  = (tmp ++ List.filter f l, length pre + length (List.filter g l)).
Proof.
  revert pre tmp. induction l as [|x l IH]; intros pre tmp Hnd Hdisj; simpl.
  { by rewrite app_nil_r, Nat.add_0_r. }
  apply NoDup_cons in Hnd as [Hx Hnd].
  assert (Hdisj' : forall y, y ∈ l -> f y = true -> g y = true -> False).
  { intros y Hy. apply Hdisj. by right. }
  destruct (f x) eqn:Hf, (g x) eqn:Hg; simpl.
  - exfalso. apply (Hdisj x); [left | done | done].
  - rewrite length_app.
    assert (Hstep :
      ((length pre <? length pre + length (List.filter g l))
       && negb (x =? default 0 ((pre ++ List.filter g l) !! length pre))
       || (length pre + length (List.filter g l) <=? length pre)) = true).
    { destruct (List.filter g l) as [|y q] eqn:Hq; simpl.
      - rewrite Nat.add_0_r, Nat.leb_refl. by rewrite orb_true_r.
      - rewrite lookup_app_r by lia. rewrite Nat.sub_diag. simpl.
        assert (y ∈ l) as Hy.
        { apply list_elem_of_In.
          apply (proj1 (filter_In g y l)). rewrite Hq. by left. }
        destruct (Nat.eqb_spec x y) as [->|_]; [done|].
        destruct (Nat.ltb_spec (length pre) (length pre + S (length q)));
          [done | lia]. }
    rewrite Hstep. rewrite (IH pre (tmp ++ [x])) by done.
    by rewrite <- app_assoc.
  - rewrite length_app. simpl.
    assert (Hstep :
      ((length pre <? length pre + S (length (List.filter g l)))
       && negb (x =? default 0 ((pre ++ x :: List.filter g l) !! length pre))
       || (length pre + S (length (List.filter g l)) <=? length pre)) = false).
    { rewrite lookup_app_r by lia. rewrite Nat.sub_diag. simpl.
      rewrite Nat.eqb_refl. simpl. rewrite andb_false_r. simpl.
      destruct (Nat.leb_spec (length pre + S (length (List.filter g l)))
                  (length pre)); [lia | done]. }
    rewrite Hstep.
    replace (pre ++ x :: List.filter g l)
      with ((pre ++ [x]) ++ List.filter g l) by by rewrite <- app_assoc.
    replace (S (length pre)) with (length (pre ++ [x]))
      by (rewrite length_app; simpl; lia).
    rewrite (IH (pre ++ [x]) tmp) by done.
    rewrite length_app. simpl. f_equal. lia.
  - by apply IH.
Qed.

Lemma remove_trials_filter (f g : nat -> bool) (l : list nat) :
  NoDup l ->
  (forall x, x ∈ l -> f x = true -> g x = true -> False) ->
  remove_trials (List.filter (fun x => f x || g x) l) (List.filter g l)
  = List.filter f l.
Proof.
  intros Hnd Hdisj. unfold remove_trials.
  pose proof (remove_trials_loop f g l [] [] Hnd Hdisj) as Hloop.
  simpl in Hloop. by rewrite Hloop.
Qed.

Lemma seq_sorted (a n : nat) : StronglySorted lt (seq a n).
Proof.
  revert a. induction n as [|n IH]; intros a; simpl; constructor; [apply IH|].
  apply Forall_forall. intros x Hx. apply list_elem_of_In, in_seq in Hx. lia.
Qed.

Lemma filter_sorted (f : nat -> bool) (l : list nat) :
  StronglySorted lt l -> StronglySorted lt (List.filter f l).
Proof.
  induction 1 as [|x l Hs IH Hall]; simpl; [constructor|].
  destruct (f x); [|done]. constructor; [done|]. by apply Forall_filter_bool.
Qed.

Lemma sorted_lt_NoDup (l : list nat) : StronglySorted lt l -> NoDup l.
Proof.
  induction 1 as [|x l Hs IH Hall]; constructor; [|done].
  intros Hx. rewrite Forall_forall in Hall. specialize (Hall x Hx). lia.
Qed.

(** ** Seatings *)

Lemma seated_insert (l : list nat) (i old new t : nat) :
  l !! i = Some old ->
  seated (<[i:=new]> l) t + (if bool_decide (old = t) then 1 else 0)
  = seated l t + (if bool_decide (new = t) then 1 else 0).
Proof.
  unfold seated. revert i. induction l as [|x l IH]; intros i Hi; [done|].
  destruct i as [|i]; simpl in *.
  - injection Hi as ->.
    destruct (Nat.eqb_spec t new), (Nat.eqb_spec t old);
      repeat case_bool_decide; simpl; lia.
  - specialize (IH i Hi). destruct (t =? x); simpl; lia.
Qed.

Lemma seated_le (l : list nat) (t : nat) : seated l t <= length l.
Proof.
  unfold seated. induction l as [|x l IH]; simpl; [lia|].
  destruct (t =? x); simpl; lia.
Qed.

Lemma seated_pos (l : list nat) (t : nat) : 0 < seated l t <-> t ∈ l.
Proof.
  unfold seated. induction l as [|x l IH]; simpl.
  - split; [lia | by intros ?%not_elem_of_nil].
  - rewrite elem_of_cons. destruct (Nat.eqb_spec t x); simpl.
    + split; [auto | lia].
    + rewrite IH. naive_solver.
Qed.

Lemma seated_replicate (n t t' : nat) : t ≠ t' -> seated (replicate n t') t = 0.
Proof.
  intros Hne. unfold seated. induction n as [|n IH]; simpl; [done|].
  destruct (Nat.eqb_spec t t'); [done | apply IH].
Qed.

Lemma practises_true (seating items : list nat) (t tr : nat) :
  practises seating items t tr = true
  <-> exists item, items !! tr = Some item /\ seating !! item = Some t.
Proof.
  unfold practises. rewrite bool_decide_eq_true.
  destruct (items !! tr) as [item|]; simpl; naive_solver.
Qed.

Lemma studies_true (items : list nat) (item tr : nat) :
  studies items item tr = true <-> items !! tr = Some item.
Proof. unfold studies. by rewrite bool_decide_eq_true. Qed.

(** The seating of an item that is not at [t] before and not after does not
    change who practises [t]. *)
Lemma practises_insert_ne (l items : list nat) (i old new t tr : nat) :
  l !! i = Some old -> old ≠ t -> new ≠ t ->
  practises (<[i:=new]> l) items t tr = practises l items t tr.
Proof.
  intros Hi Hold Hnew. apply eq_true_iff_eq. rewrite !practises_true.
  apply lookup_lt_Some in Hi as Hlt.
  split; intros (item & Htr & Hseat); exists item; split; try done.
  - destruct (decide (i = item)) as [->|Hne].
    + rewrite list_lookup_insert_eq in Hseat by done. congruence.
    + by rewrite list_lookup_insert_ne in Hseat.
  - destruct (decide (i = item)) as [->|Hne]; [congruence|].
    by rewrite list_lookup_insert_ne.
Qed.

(** Seating item [i] at [t] adds its trials to those practising [t]. *)
Lemma practises_insert_eq (l items : list nat) (i old t tr : nat) :
  l !! i = Some old ->
  practises (<[i:=t]> l) items t tr
  = practises l items t tr || studies items i tr.
Proof.
  intros Hi. apply eq_true_iff_eq.
  rewrite orb_true_iff, !practises_true, studies_true.
  apply lookup_lt_Some in Hi as Hlt. split.
  - intros (item & Htr & Hseat). destruct (decide (i = item)) as [->|Hne].
    + by right.
    + left. exists item. by rewrite list_lookup_insert_ne in Hseat.
  - intros [(item & Htr & Hseat) | Htr].
    + exists item. split; [done|]. destruct (decide (i = item)) as [->|Hne].
      * by rewrite list_lookup_insert_eq.
      * by rewrite list_lookup_insert_ne.
    + exists i. split; [done|]. by rewrite list_lookup_insert_eq.
Qed.

Lemma practises_studies_disjoint (l items : list nat) (i old t tr : nat) :
  l !! i = Some old -> old ≠ t ->
  practises l items t tr = true -> studies items i tr = true -> False.
Proof.
  intros Hi Hold (item & Htr & Hseat)%practises_true Hst%studies_true.
  congruence.
Qed.

Lemma filter_studies_nonempty (items : list nat) (item : nat) :
  item ∈ items ->
  List.filter (studies items item) (seq 0 (length items)) ≠ [].
Proof.
  intros (tr & Htr)%list_elem_of_lookup Hnil.
  assert (In tr (List.filter (studies items item) (seq 0 (length items)))).
  { apply filter_In. split.
    - apply in_seq. apply lookup_lt_Some in Htr. lia.
    - by apply studies_true. }
  rewrite Hnil in *. done.
Qed.

Lemma filter_studies_empty (items : list nat) (item : nat) :
  item ∉ items ->
  forall tr, studies items item tr = false.
Proof.
  intros Hnot tr. apply not_true_iff_false. rewrite studies_true.
  intros Htr. apply Hnot. apply list_elem_of_lookup. eauto.
Qed.

Lemma wrap64_small (z : Z) : (0 <= z < 2 ^ 64)%Z -> wrap64 z = z.
Proof. intros. unfold wrap64. by apply Z.mod_small. Qed.

(** ** The ledger operations keep the invariant *)

Section LedgerProofs.
Context {G D : Type} `{Double D, Constants D, Random G D}.
Implicit Type st : chain G D.
Implicit Type ds : dataset.

Lemma wf_trials_of ds item students s :
  dataset_wf ds ->
  students_who_studied ds !! item = Some students ->
  s ∈ students ->
  exists items,
    item_sequences ds !! s = Some items /\ is_train ds s /\ item ∈ items /\
    (Z.of_nat (length items) < 2 ^ 64)%Z /\
    trials_of ds s item
    = Ret (List.filter (studies items item) (seq 0 (length items))).
Proof.
  intros Hwf Hst Hs.
  assert (item < num_items ds) as Hitem.
  { apply lookup_lt_Some in Hst. by rewrite (wf_students_len _ Hwf) in Hst. }
  destruct (wf_students _ Hwf _ _ Hst) as [_ Hmem].
  apply Hmem in Hs as (Htrain & items & Hitems & Hin).
  destruct (wf_sequences _ Hwf s (proj2 Htrain))
    as (items' & recall & pairs & studied & Hi & _ & _ & Hts & Hlen & _ & _
        & _ & _ & Hrow).
  assert (items' = items) as -> by congruence.
  exists items. repeat split; try done; try apply Htrain.
  unfold trials_of, vec_get. rewrite Hts. simpl. by rewrite (Hrow _ Hitem).
Qed.

(** What the loop of the existing-table branch leaves in
    [trial_lookup[table]]. *)
Lemma assign_students_run ds item t students tl inner :
  tl !! t = Some inner ->
  NoDup students ->
  (forall s, s ∈ students -> exists ts, trials_of ds s item = Ret ts) ->
  exists inner',
    for_each students (assign_student ds item t) tl = Ret (<[t := inner']> tl) /\
    forall s,
      (s ∈ students ->
       exists ts, trials_of ds s item = Ret ts /\
         inner' !! s = Some (match inner !! s with
                             | None => ts
                             | Some cur => merge cur ts
                             end)) /\
      (s ∉ students -> inner' !! s = inner !! s).
Proof.
  revert tl inner. induction students as [|s0 students IH];
    intros tl inner Htl Hnd Hts.
  { exists inner. split; [simpl; by rewrite insert_id|].
    intros s. split; [by intros ?%not_elem_of_nil | done]. }
  apply NoDup_cons in Hnd as [Hs0 Hnd].
  destruct (Hts s0) as [ts0 Hts0]; [by left|].
  set (v0 := match inner !! s0 with None => ts0 | Some cur => merge cur ts0 end).
  destruct (IH (<[t := <[s0 := v0]> inner]> tl) (<[s0 := v0]> inner))
    as (inner' & Hrun & Hchar); [by rewrite lookup_insert_eq | done | |].
  { intros s Hs. apply Hts. by right. }
  exists inner'. split.
  - simpl. unfold assign_student at 1. rewrite Htl, Hts0. simpl.
    rewrite insert_insert_eq in Hrun.
    subst v0. destruct (inner !! s0); simpl; exact Hrun.
  - intros s. destruct (Hchar s) as [Hin Hout]. split.
    + intros [->|Hs]%elem_of_cons.
      * exists ts0. split; [done|]. rewrite (Hout Hs0).
        by rewrite lookup_insert_eq.
      * destruct (Hin Hs) as (ts & Hts' & Hv). exists ts. split; [done|].
        rewrite Hv. rewrite lookup_insert_ne; [done|]. by intros ->.
    + intros [Hne Hs]%not_elem_of_cons. rewrite (Hout Hs).
      by rewrite lookup_insert_ne.
Qed.

Lemma remove_students_run ds item t students tl inner :
  tl !! t = Some inner ->
  NoDup students ->
  (forall s, s ∈ students ->
     exists ts, trials_of ds s item = Ret ts /\
       let cur := default [] (inner !! s) in
       let final_size :=
         wrap64 (Z.of_nat (length cur) - Z.of_nat (length ts)) in
       final_size ≠ 0%Z ->
       Z.of_nat (length (remove_trials cur ts)) = final_size) ->
  exists inner',
    for_each students (remove_student ds item t) tl = Ret (<[t := inner']> tl) /\
    forall s,
      (s ∈ students ->
       exists ts, trials_of ds s item = Ret ts /\
         inner' !! s = remaining (default [] (inner !! s)) ts) /\
      (s ∉ students -> inner' !! s = inner !! s).
Proof.
  revert tl inner. induction students as [|s0 students IH];
    intros tl inner Htl Hnd Hts.
  { exists inner. split; [simpl; by rewrite insert_id|].
    intros s. split; [by intros ?%not_elem_of_nil | done]. }
  apply NoDup_cons in Hnd as [Hs0 Hnd].
  destruct (Hts s0) as (ts0 & Hts0 & Hassert); [by left|].
  set (inner1 := match remaining (default [] (inner !! s0)) ts0 with
                 | None => delete s0 inner
                 | Some tmp => <[s0 := tmp]> inner
                 end).
  assert (Hinner1 : forall s, s ≠ s0 -> inner1 !! s = inner !! s).
  { intros s Hne. subst inner1.
    destruct (remaining _ _);
      [by rewrite lookup_insert_ne | by rewrite lookup_delete_ne]. }
  assert (Hinner1' : inner1 !! s0 = remaining (default [] (inner !! s0)) ts0).
  { subst inner1. destruct (remaining _ _);
      [by rewrite lookup_insert_eq | by rewrite lookup_delete_eq]. }
  destruct (IH (<[t := inner1]> tl) inner1)
    as (inner' & Hrun & Hchar); [by rewrite lookup_insert_eq | done | |].
  { intros s Hs. destruct (Hts s) as (ts & Hts' & Hok); [by right|].
    exists ts. split; [done|]. rewrite Hinner1; [done|]. by intros ->. }
  exists inner'. split.
  - simpl. unfold remove_student at 1. rewrite Htl, Hts0. simpl.
    rewrite insert_insert_eq in Hrun.
    subst inner1. unfold remaining in *. simpl in Hassert.
    destruct (Z.eqb_spec
                (wrap64 (Z.of_nat (length (default [] (inner !! s0)))
                         - Z.of_nat (length ts0))) 0) as [Hz|Hz].
    + simpl. exact Hrun.
    + rewrite (Hassert Hz), Z.eqb_refl. simpl. exact Hrun.
  - intros s. destruct (Hchar s) as [Hin Hout]. split.
    + intros [->|Hs]%elem_of_cons.
      * exists ts0. split; [done|]. by rewrite (Hout Hs0).
      * destruct (Hin Hs) as (ts & Hts' & Hv). exists ts. split; [done|].
        rewrite Hv, Hinner1; [done|]. by intros ->.
    + intros [Hne Hs]%not_elem_of_cons. rewrite (Hout Hs). by apply Hinner1.
Qed.

(** What the loop of the new-table branch builds. *)
Lemma seed_students_run ds item students (inner : gmap nat (list nat)) :
  NoDup students ->
  (forall s, s ∈ students -> exists ts, trials_of ds s item = Ret ts) ->
  exists inner',
    for_each students
      (fun student inner =>
         trials <- trials_of ds student item ;;
         Ret (<[student := trials]> inner)) inner = Ret inner' /\
    forall s,
      (s ∈ students -> exists ts, trials_of ds s item = Ret ts /\
                                  inner' !! s = Some ts) /\
      (s ∉ students -> inner' !! s = inner !! s).
Proof.
  revert inner. induction students as [|s0 students IH]; intros inner Hnd Hts.
  { exists inner. split; [done|].
    intros s. split; [by intros ?%not_elem_of_nil | done]. }
  apply NoDup_cons in Hnd as [Hs0 Hnd].
  destruct (Hts s0) as [ts0 Hts0]; [by left|].
  destruct (IH (<[s0 := ts0]> inner)) as (inner' & Hrun & Hchar); [done| |].
  { intros s Hs. apply Hts. by right. }
  exists inner'. split.
  - simpl. rewrite Hts0. simpl. exact Hrun.
  - intros s. destruct (Hchar s) as [Hin Hout]. split.
    + intros [->|Hs]%elem_of_cons.
      * exists ts0. split; [done|]. rewrite (Hout Hs0).
        by rewrite lookup_insert_eq.
      * by apply Hin.
    + intros [Hne Hs]%not_elem_of_cons. rewrite (Hout Hs).
      by rewrite lookup_insert_ne.
Qed.
End LedgerProofs.

Section ExpectedTrials.
Implicit Type ds : dataset.

Lemma expected_trials_insert_ne ds (l : list nat) i old new t s :
  l !! i = Some old -> old ≠ t -> new ≠ t ->
  expected_trials ds (<[i:=new]> l) t s = expected_trials ds l t s.
Proof.
  intros Hi Hold Hnew. unfold expected_trials.
  case_bool_decide; [|done]. destruct (item_sequences ds !! s); [|done].
  erewrite filter_ext; [done|]. intros tr.
  by eapply practises_insert_ne.
Qed.

(** A student who did not study the item keeps the same trials. *)
Lemma expected_trials_unstudied ds (l : list nat) i new t s :
  (forall items, is_train ds s -> item_sequences ds !! s = Some items ->
                 i ∉ items) ->
  expected_trials ds (<[i:=new]> l) t s = expected_trials ds l t s.
Proof.
  intros Hun. unfold expected_trials.
  case_bool_decide as Htrain; [|done].
  destruct (item_sequences ds !! s) as [items|] eqn:Hitems; [|done].
  specialize (Hun items Htrain eq_refl).
  erewrite filter_ext; [done|]. intros tr.
  apply eq_true_iff_eq. rewrite !practises_true.
  split; intros (item & Htr & Hseat); exists item; split; try done.
  - rewrite list_lookup_insert_ne in Hseat; [done|].
    intros ->. apply Hun. apply list_elem_of_lookup. eauto.
  - rewrite list_lookup_insert_ne; [done|].
    intros ->. apply Hun. apply list_elem_of_lookup. eauto.
Qed.

(** Seating the item at [t] merges its trials into the student's. *)
Lemma expected_trials_assign ds (l : list nat) i old t s items :
  is_train ds s -> item_sequences ds !! s = Some items -> i ∈ items ->
  l !! i = Some old -> old ≠ t ->
  expected_trials ds (<[i:=t]> l) t s
  = Some (match expected_trials ds l t s with
          | None => List.filter (studies items i) (seq 0 (length items))
          | Some cur =>
              merge cur (List.filter (studies items i) (seq 0 (length items)))
          end).
Proof.
  intros Htrain Hitems Hin Hi Hold. unfold expected_trials.
  rewrite !bool_decide_eq_true_2 by done. rewrite Hitems.
  assert (Hdisj : forall tr, tr ∈ seq 0 (length items) ->
            practises l items t tr = true -> studies items i tr = true -> False).
  { intros tr _. by eapply practises_studies_disjoint. }
  rewrite (filter_ext _ (fun tr => practises l items t tr || studies items i tr))
    by (intros tr; by eapply practises_insert_eq).
  rewrite <- (merge_filter _ _ _ (seq_sorted 0 (length items)) Hdisj).
  pose proof (filter_studies_nonempty items i Hin) as Hne.
  destruct (List.filter (practises l items t) (seq 0 (length items)))
    as [|x cur] eqn:Hcur.
  - rewrite merge_nil_l.
    by destruct (List.filter (studies items i) (seq 0 (length items))).
  - destruct (List.filter (studies items i) (seq 0 (length items)))
      as [|y ts] eqn:Hts; [done|].
    simpl. by destruct (y <? x).
Qed.

(** Taking the item away from [t] removes exactly its trials. *)
Lemma expected_trials_remove ds (l : list nat) i new t s items :
  is_train ds s -> item_sequences ds !! s = Some items -> i ∈ items ->
  (Z.of_nat (length items) < 2 ^ 64)%Z ->
  l !! i = Some t -> new ≠ t ->
  let ts := List.filter (studies items i) (seq 0 (length items)) in
  let cur := default [] (expected_trials ds l t s) in
  let final_size := wrap64 (Z.of_nat (length cur) - Z.of_nat (length ts)) in
  expected_trials ds (<[i:=new]> l) t s = remaining cur ts /\
  (final_size ≠ 0%Z -> Z.of_nat (length (remove_trials cur ts)) = final_size).
Proof.
  intros Htrain Hitems Hin Hlen Hi Hnew ts cur final_size.
  apply lookup_lt_Some in Hi as Hlt.
  set (l' := <[i:=new]> l).
  assert (Hl : l = <[i:=t]> l').
  { subst l'. rewrite list_insert_insert_eq. by rewrite list_insert_id. }
  assert (Hi' : l' !! i = Some new) by (subst l'; by rewrite list_lookup_insert_eq).
  set (f := practises l' items t). set (g := studies items i).
  assert (Hdisj : forall tr, tr ∈ seq 0 (length items) ->
            f tr = true -> g tr = true -> False).
  { intros tr _. by eapply practises_studies_disjoint. }
  assert (Hcur : cur = List.filter (fun tr => f tr || g tr) (seq 0 (length items))).
  { subst cur. unfold expected_trials.
    rewrite bool_decide_eq_true_2 by done. rewrite Hitems.
    rewrite (filter_ext (practises l items t) (fun tr => f tr || g tr)).
    2:{ intros tr. rewrite Hl. by eapply practises_insert_eq. }
    by destruct (List.filter (fun tr => f tr || g tr) (seq 0 (length items))). }
  assert (Hsize : final_size
                  = Z.of_nat (length (List.filter f (seq 0 (length items))))).
  { subst final_size. rewrite Hcur, filter_length_union by done.
    pose proof (filter_length_le f (seq 0 (length items))) as Hle.
    rewrite length_seq in Hle. subst ts g.
    rewrite wrap64_small; lia. }
  assert (Hrem : remove_trials cur ts = List.filter f (seq 0 (length items))).
  { rewrite Hcur. apply remove_trials_filter; [|done].
    apply sorted_lt_NoDup, seq_sorted. }
  split.
  - unfold remaining. fold final_size. rewrite Hsize, Hrem.
    unfold expected_trials. rewrite bool_decide_eq_true_2 by done.
    rewrite Hitems. fold f.
    destruct (List.filter f (seq 0 (length items))); simpl; [done|].
    destruct (Z.eqb_spec (Z.pos (Pos.of_succ_nat (length l0))) 0); [lia|done].
  - intros _. by rewrite Hrem, Hsize.
Qed.
End ExpectedTrials.

Section LedgerInvariant.
Context {G D : Type} `{Double D, Constants D, Random G D}.
Implicit Type st : chain G D.
Implicit Type ds : dataset.

Lemma ledger_dom_seated ds st t :
  ledger_inv ds st ->
  t ∈ dom (table_sizes st)
  <-> t ≠ UNASSIGNED /\ 0 < seated (seating_arrangement st) t.
Proof.
  intros Hinv. rewrite elem_of_dom, (inv_sizes _ _ Hinv t).
  case_bool_decide; split; try done; try (by intros [? [=]]); eauto.
Qed.

Lemma ledger_size_lookup ds st t :
  ledger_inv ds st -> t ∈ dom (table_sizes st) ->
  table_sizes st !! t = Some (Z.of_nat (seated (seating_arrangement st) t)).
Proof.
  intros Hinv Ht. apply (ledger_dom_seated _ _ _ Hinv) in Ht.
  rewrite (inv_sizes _ _ Hinv t). by rewrite bool_decide_eq_true_2.
Qed.

Lemma ledger_size_none ds st t :
  ledger_inv ds st -> t ∉ dom (table_sizes st) ->
  t = UNASSIGNED \/ seated (seating_arrangement st) t = 0.
Proof.
  intros Hinv Ht. rewrite (ledger_dom_seated _ _ _ Hinv) in Ht.
  destruct (decide (t = UNASSIGNED)); [by left | right].
  destruct (seated (seating_arrangement st) t); [done|].
  exfalso. apply Ht. split; [done | lia].
Qed.

Lemma ledger_students ds st item :
  dataset_wf ds -> ledger_inv ds st ->
  item < length (seating_arrangement st) ->
  exists students, students_who_studied ds !! item = Some students.
Proof.
  intros Hwf Hinv Hlt. apply lookup_lt_is_Some.
  rewrite (wf_students_len _ Hwf), <- (inv_seating_len _ _ Hinv). done.
Qed.

(** Seating an unseated item at an extant table. *)
Lemma assign_extant_ok ds st item t :
  dataset_wf ds -> ledger_inv ds st ->
  seating_arrangement st !! item = Some UNASSIGNED ->
  t ∈ dom (table_sizes st) ->
  exists tl,
    let st' :=
      set_trial_lookup tl
        (set_table_sizes
           (<[t := (Z.of_nat (seated (seating_arrangement st) t) + 1)%Z]>
              (table_sizes st))
           (set_seating_arrangement (<[item := t]> (seating_arrangement st))
              st)) in
    assign_item_to_table ds item t false st = Ret st' /\ ledger_inv ds st'.
Proof.
  intros Hwf Hinv Hitem Ht.
  pose proof (lookup_lt_Some _ _ _ Hitem) as Hlt.
  destruct (ledger_students _ _ _ Hwf Hinv Hlt) as [students Hstudents].
  destruct (wf_students _ Hwf _ _ Hstudents) as [Hnd Hmem].
  pose proof (ledger_size_lookup _ _ _ Hinv Ht) as Hsize.
  pose proof (proj1 (ledger_dom_seated _ _ _ Hinv) Ht) as [Hne Hpos].
  assert (is_Some (trial_lookup st !! t)) as [inner Hinner].
  { apply elem_of_dom. by rewrite (inv_lookup_dom _ _ Hinv). }
  destruct (assign_students_run ds item t students (trial_lookup st) inner
              Hinner Hnd) as (inner' & Hrun & Hchar).
  { intros s Hs. destruct (wf_trials_of _ _ _ _ Hwf Hstudents Hs)
      as (items & _ & _ & _ & _ & Hts). eauto. }
  pose proof (seated_insert (seating_arrangement st) item UNASSIGNED t t Hitem)
    as Hseated.
  rewrite bool_decide_eq_false_2 in Hseated by done.
  rewrite bool_decide_eq_true_2 in Hseated by done.
  pose proof (seated_le (<[item:=t]> (seating_arrangement st)) t) as Hle.
  rewrite length_insert, (inv_seating_len _ _ Hinv) in Hle.
  pose proof (wf_items_bound _ Hwf) as Hbound.
  exists (<[t := inner']> (trial_lookup st)). split.
  - unfold assign_item_to_table.
    unfold vec_set. rewrite decide_True by done. simpl.
    unfold vec_at at 1. rewrite Hstudents. simpl. rewrite Hrun. simpl.
    rewrite Hsize. simpl. rewrite wrap64_small by lia.
    rewrite (inv_num_used _ _ Hinv).
    rewrite map_size_insert_Some by (by rewrite Hsize).
    by rewrite Z.eqb_refl.
  - constructor; simpl.
    + by rewrite length_insert, (inv_seating_len _ _ Hinv).
    + rewrite map_size_insert_Some by (by rewrite Hsize).
      apply (inv_num_used _ _ Hinv).
    + intros table. destruct (decide (table = t)) as [->|Hnet].
      * rewrite lookup_insert_eq. rewrite bool_decide_eq_true_2 by (split; [done|lia]).
        f_equal. lia.
      * rewrite lookup_insert_ne by done. rewrite (inv_sizes _ _ Hinv table).
        pose proof (seated_insert (seating_arrangement st) item UNASSIGNED t
                      table Hitem) as Hs'.
        rewrite (bool_decide_eq_false_2 (t = table)) in Hs' by done.
        destruct (decide (table = UNASSIGNED)) as [->|Hnu].
        { rewrite !bool_decide_eq_false_2; [done | tauto | tauto]. }
        rewrite bool_decide_eq_false_2 in Hs' by done.
        rewrite !Nat.add_0_r in Hs'. by rewrite Hs'.
    + rewrite dom_insert_L. rewrite (inv_extant _ _ Hinv). set_solver.
    + rewrite dom_insert_L. rewrite (inv_parameters _ _ Hinv). set_solver.
    + rewrite !dom_insert_L. rewrite (inv_lookup_dom _ _ Hinv). set_solver.
    + intros table by_student Hlook student.
      destruct (decide (table = t)) as [->|Hnet].
      * rewrite lookup_insert_eq in Hlook. injection Hlook as <-.
        destruct (Hchar student) as [Hin Hout].
        destruct (decide (student ∈ students)) as [Hs|Hs].
        -- destruct (Hin Hs) as (ts & Hts & ->).
           destruct (wf_trials_of _ _ _ _ Hwf Hstudents Hs)
             as (items & Hitems & Htrain & Hi & _ & Hts').
           rewrite Hts in Hts'. injection Hts' as ->.
           rewrite (expected_trials_assign ds _ item UNASSIGNED t student items)
             by done.
           by rewrite (inv_lookup _ _ Hinv t inner Hinner student).
        -- rewrite (Hout Hs), (inv_lookup _ _ Hinv t inner Hinner student).
           symmetry. apply expected_trials_unstudied.
           intros items Htrain Hitems Hi. apply Hs. apply Hmem. eauto.
      * rewrite lookup_insert_ne in Hlook by done.
        rewrite (inv_lookup _ _ Hinv table by_student Hlook student).
        symmetry. eapply expected_trials_insert_ne; [done| |done].
        intros <-.
        assert (UNASSIGNED ∈ dom (table_sizes st)) as Hu.
        { rewrite <- (inv_lookup_dom _ _ Hinv). apply elem_of_dom. eauto. }
        by apply (ledger_dom_seated _ _ _ Hinv) in Hu as [? _].
Qed.

Lemma size_list_to_set_le (l : list nat) :
  size (list_to_set l : gset nat) <= length l.
Proof.
  induction l as [|x l IH]; simpl; [done|].
  destruct (decide (x ∈ (list_to_set l : gset nat))) as [Hx|Hx].
  - replace ({[x]} ∪ list_to_set l) with (list_to_set l : gset nat)
      by set_solver. lia.
  - rewrite size_union by set_solver. rewrite size_singleton. lia.
Qed.

(** There are no more tables than seated items. *)
Lemma sizes_bound (ts : gmap nat Z) (seating : list nat) :
  (forall table,
      ts !! table
      = if bool_decide (table ≠ UNASSIGNED ∧ 0 < seated seating table)
        then Some (Z.of_nat (seated seating table)) else None) ->
  size ts <= length seating.
Proof.
  intros Hspec. rewrite <- size_dom.
  etrans; [|apply (size_list_to_set_le seating)].
  apply subseteq_size. intros t Ht. apply elem_of_dom in Ht as [c Hc].
  rewrite Hspec in Hc. case_bool_decide as Hd; [|done].
  apply elem_of_list_to_set. apply seated_pos. tauto.
Qed.

(** Seating an unseated item at a table that does not exist yet. *)
Lemma assign_new_ok ds st item t :
  dataset_wf ds -> ledger_inv ds st ->
  seating_arrangement st !! item = Some UNASSIGNED ->
  t ∉ dom (table_sizes st) -> t ≠ UNASSIGNED ->
  exists inner,
    let st' :=
      set_trial_lookup (<[t := inner]> (trial_lookup st))
        (set_num_used_skills (num_used_skills st + 1)
        (set_extant_tables ({[t]} ∪ extant_tables st)
        (set_table_sizes (<[t := 1%Z]> (table_sizes st))
        (set_seating_arrangement (<[item := t]> (seating_arrangement st))
        (set_parameters
           (<[t := fst (draw_bkt_param_prior (generator st))]> (parameters st))
        (set_generator (snd (draw_bkt_param_prior (generator st))) st))))))
    in
    assign_item_to_table ds item t true st = Ret st' /\ ledger_inv ds st'.
Proof.
  intros Hwf Hinv Hitem Ht Hne.
  pose proof (lookup_lt_Some _ _ _ Hitem) as Hlt.
  destruct (ledger_students _ _ _ Hwf Hinv Hlt) as [students Hstudents].
  destruct (wf_students _ Hwf _ _ Hstudents) as [Hnd Hmem].
  destruct (ledger_size_none _ _ _ Hinv Ht) as [?|Hzero]; [done|].
  destruct (seed_students_run ds item students ∅ Hnd) as (inner & Hrun & Hchar).
  { intros s Hs. destruct (wf_trials_of _ _ _ _ Hwf Hstudents Hs)
      as (items & _ & _ & _ & _ & Hts). eauto. }
  pose proof (wf_items_bound _ Hwf) as Hbound.
  assert (Hnone : table_sizes st !! t = None) by by apply not_elem_of_dom.
  assert (Hsizes : forall table,
    <[t := 1%Z]> (table_sizes st) !! table
    = if bool_decide (table ≠ UNASSIGNED
                      ∧ 0 < seated (<[item:=t]> (seating_arrangement st)) table)
      then Some (Z.of_nat (seated (<[item:=t]> (seating_arrangement st)) table))
      else None).
  { intros table.
    pose proof (seated_insert (seating_arrangement st) item UNASSIGNED t
                  table Hitem) as Hs'.
    destruct (decide (table = t)) as [->|Hnet].
    - rewrite lookup_insert_eq.
      rewrite bool_decide_eq_false_2 in Hs' by done.
      rewrite bool_decide_eq_true_2 in Hs' by done.
      rewrite bool_decide_eq_true_2 by (split; [done|lia]).
      f_equal. lia.
    - rewrite lookup_insert_ne by done. rewrite (inv_sizes _ _ Hinv table).
      rewrite (bool_decide_eq_false_2 (t = table)) in Hs' by done.
      destruct (decide (table = UNASSIGNED)) as [->|Hnu].
      { rewrite !bool_decide_eq_false_2; [done | tauto | tauto]. }
      rewrite bool_decide_eq_false_2 in Hs' by done.
      rewrite !Nat.add_0_r in Hs'. by rewrite Hs'. }
  pose proof (sizes_bound _ _ Hsizes) as Hcount.
  rewrite length_insert, (inv_seating_len _ _ Hinv) in Hcount.
  rewrite map_size_insert_None in Hcount by done.
  exists inner. split.
  - unfold assign_item_to_table.
    destruct (draw_bkt_param_prior (generator st)) as [new_params g] eqn:Hdraw.
    unfold vec_set. rewrite decide_True by done. simpl.
    unfold vec_at at 1. rewrite Hstudents. simpl. rewrite Hrun. simpl.
    rewrite (inv_num_used _ _ Hinv).
    rewrite wrap64_small by lia.
    rewrite map_size_insert_None by done.
    replace (Z.of_nat (size (table_sizes st)) + 1)%Z
      with (Z.of_nat (S (size (table_sizes st)))) by lia.
    by rewrite Z.eqb_refl.
  - constructor; simpl.
    + by rewrite length_insert, (inv_seating_len _ _ Hinv).
    + rewrite map_size_insert_None by done.
      rewrite (inv_num_used _ _ Hinv). lia.
    + exact Hsizes.
    + rewrite dom_insert_L. by rewrite (inv_extant _ _ Hinv).
    + rewrite !dom_insert_L. by rewrite (inv_parameters _ _ Hinv).
    + rewrite !dom_insert_L. by rewrite (inv_lookup_dom _ _ Hinv).
    + intros table by_student Hlook student.
      destruct (decide (table = t)) as [->|Hnet].
      * rewrite lookup_insert_eq in Hlook. injection Hlook as <-.
        assert (Hold : expected_trials ds (seating_arrangement st) t student
                       = None).
        { unfold expected_trials. case_bool_decide; [|done].
          destruct (item_sequences ds !! student) as [items|]; [|done].
          destruct (List.filter _ _) as [|tr q] eqn:Hq; [done|].
          assert (In tr (tr :: q)) as Hin by by left.
          rewrite <- Hq in Hin. apply filter_In in Hin as [_ Hp].
          apply practises_true in Hp as (j & _ & Hj).
          assert (0 < seated (seating_arrangement st) t); [|lia].
          apply seated_pos. apply list_elem_of_lookup. eauto. }
        destruct (Hchar student) as [Hin Hout].
        destruct (decide (student ∈ students)) as [Hs|Hs].
        -- destruct (Hin Hs) as (ts & Hts & ->).
           destruct (wf_trials_of _ _ _ _ Hwf Hstudents Hs)
             as (items & Hitems & Htrain & Hi & _ & Hts').
           rewrite Hts in Hts'. injection Hts' as ->.
           rewrite (expected_trials_assign ds _ item UNASSIGNED t student items)
             by done.
           by rewrite Hold.
        -- rewrite (Hout Hs), lookup_empty. rewrite <- Hold.
           symmetry. apply expected_trials_unstudied.
           intros items Htrain Hitems Hi. apply Hs. apply Hmem. eauto.
      * rewrite lookup_insert_ne in Hlook by done.
        rewrite (inv_lookup _ _ Hinv table by_student Hlook student).
        symmetry. eapply expected_trials_insert_ne; [done| |done].
        intros <-.
        assert (UNASSIGNED ∈ dom (table_sizes st)) as Hu.
        { rewrite <- (inv_lookup_dom _ _ Hinv). apply elem_of_dom. eauto. }
        by apply (ledger_dom_seated _ _ _ Hinv) in Hu as [? _].
Qed.

(** The sizes after an item has left table [t]. *)
Lemma sizes_after_remove ds st item t (ts' : gmap nat Z) :
  ledger_inv ds st ->
  seating_arrangement st !! item = Some t -> t ≠ UNASSIGNED ->
  (forall table, table ≠ t -> ts' !! table = table_sizes st !! table) ->
  ts' !! t = (if bool_decide (1 < seated (seating_arrangement st) t)
              then Some (Z.of_nat (seated (seating_arrangement st) t) - 1)%Z
              else None) ->
  forall table,
    ts' !! table
    = if bool_decide
           (table ≠ UNASSIGNED
            ∧ 0 < seated (<[item:=UNASSIGNED]> (seating_arrangement st)) table)
      then Some (Z.of_nat
                   (seated (<[item:=UNASSIGNED]> (seating_arrangement st)) table))
      else None.
Proof.
  intros Hinv Hitem Hne Hother Hthis table.
  pose proof (seated_insert (seating_arrangement st) item t UNASSIGNED
                table Hitem) as Hs'.
  destruct (decide (table = t)) as [->|Hnet].
  - rewrite Hthis.
    rewrite bool_decide_eq_true_2 in Hs' by done.
    rewrite bool_decide_eq_false_2 in Hs' by done.
    repeat case_bool_decide; try done; try (f_equal; lia); exfalso; intuition lia.
  - rewrite (Hother _ Hnet), (inv_sizes _ _ Hinv table).
    rewrite (bool_decide_eq_false_2 (t = table)) in Hs' by done.
    destruct (decide (table = UNASSIGNED)) as [->|Hnu].
    { rewrite !bool_decide_eq_false_2; [done | tauto | tauto]. }
    rewrite bool_decide_eq_false_2 in Hs' by done.
    rewrite !Nat.add_0_r in Hs'. by rewrite Hs'.
Qed.

(** The last item leaves its table: the table is deleted. *)
Lemma remove_last_ok ds st item t :
  dataset_wf ds -> ledger_inv ds st ->
  seating_arrangement st !! item = Some t -> t ≠ UNASSIGNED ->
  seated (seating_arrangement st) t = 1 ->
  let st' :=
    set_trial_lookup (delete t (trial_lookup st))
      (set_num_used_skills (num_used_skills st - 1)
      (set_extant_tables (extant_tables st ∖ {[t]})
      (set_parameters (delete t (parameters st))
      (set_table_sizes (delete t (table_sizes st))
      (set_seating_arrangement
         (<[item := UNASSIGNED]> (seating_arrangement st)) st))))) in
  remove_item_from_table ds item t st = Ret (true, st') /\ ledger_inv ds st'.
Proof.
  intros Hwf Hinv Hitem Hne Hone.
  pose proof (lookup_lt_Some _ _ _ Hitem) as Hlt.
  assert (Ht : t ∈ dom (table_sizes st)).
  { apply (ledger_dom_seated _ _ _ Hinv). split; [done | lia]. }
  pose proof (ledger_size_lookup _ _ _ Hinv Ht) as Hsize.
  rewrite Hone in Hsize.
  pose proof (sizes_bound _ _ (inv_sizes _ _ Hinv)) as Hcount.
  rewrite (inv_seating_len _ _ Hinv) in Hcount.
  pose proof (wf_items_bound _ Hwf) as Hbound.
  assert (0 < size (table_sizes st)) as Hpos.
  { destruct (size (table_sizes st)) eqn:Hz; [|lia].
    apply map_size_empty_inv in Hz. rewrite Hz in Hsize. done. }
  split.
  - unfold remove_item_from_table. rewrite Hsize. simpl.
    unfold vec_set. rewrite decide_True by done. simpl.
    rewrite (inv_num_used _ _ Hinv). by rewrite wrap64_small by lia.
  - constructor; simpl.
    + by rewrite length_insert, (inv_seating_len _ _ Hinv).
    + rewrite map_size_delete_Some by (by rewrite Hsize).
      rewrite (inv_num_used _ _ Hinv). lia.
    + apply (sizes_after_remove ds st item t); try done.
      * intros table Hnet. by rewrite lookup_delete_ne.
      * rewrite lookup_delete_eq. by rewrite bool_decide_eq_false_2 by lia.
    + rewrite dom_delete_L. by rewrite (inv_extant _ _ Hinv).
    + rewrite !dom_delete_L. by rewrite (inv_parameters _ _ Hinv).
    + rewrite !dom_delete_L. by rewrite (inv_lookup_dom _ _ Hinv).
    + intros table by_student Hlook student.
      destruct (decide (table = t)) as [->|Hnet].
      { by rewrite lookup_delete_eq in Hlook. }
      rewrite lookup_delete_ne in Hlook by done.
      rewrite (inv_lookup _ _ Hinv table by_student Hlook student).
      symmetry. eapply expected_trials_insert_ne; [done|congruence|].
      intros <-.
      assert (UNASSIGNED ∈ dom (table_sizes st)) as Hu.
      { rewrite <- (inv_lookup_dom _ _ Hinv). apply elem_of_dom. eauto. }
      by apply (ledger_dom_seated _ _ _ Hinv) in Hu as [? _].
Qed.

(** An item leaves a table where others stay. *)
Lemma remove_shared_ok ds st item t :
  dataset_wf ds -> ledger_inv ds st ->
  seating_arrangement st !! item = Some t -> t ≠ UNASSIGNED ->
  1 < seated (seating_arrangement st) t ->
  exists tl,
    let st' :=
      set_trial_lookup tl
        (set_table_sizes
           (<[t := (Z.of_nat (seated (seating_arrangement st) t) - 1)%Z]>
              (table_sizes st))
           (set_seating_arrangement
              (<[item := UNASSIGNED]> (seating_arrangement st)) st)) in
    remove_item_from_table ds item t st = Ret (false, st')
    /\ ledger_inv ds st'.
Proof.
  intros Hwf Hinv Hitem Hne Hmany.
  pose proof (lookup_lt_Some _ _ _ Hitem) as Hlt.
  destruct (ledger_students _ _ _ Hwf Hinv Hlt) as [students Hstudents].
  destruct (wf_students _ Hwf _ _ Hstudents) as [Hnd Hmem].
  assert (Ht : t ∈ dom (table_sizes st)).
  { apply (ledger_dom_seated _ _ _ Hinv). split; [done | lia]. }
  pose proof (ledger_size_lookup _ _ _ Hinv Ht) as Hsize.
  assert (is_Some (trial_lookup st !! t)) as [inner Hinner].
  { apply elem_of_dom. by rewrite (inv_lookup_dom _ _ Hinv). }
  pose proof (seated_le (seating_arrangement st) t) as Hle.
  rewrite (inv_seating_len _ _ Hinv) in Hle.
  pose proof (wf_items_bound _ Hwf) as Hbound.
  assert (Hstudent : forall s, s ∈ students ->
    exists items, item_sequences ds !! s = Some items /\
      trials_of ds s item
      = Ret (List.filter (studies items item) (seq 0 (length items))) /\
      expected_trials ds (<[item:=UNASSIGNED]> (seating_arrangement st)) t s
      = remaining (default [] (inner !! s))
          (List.filter (studies items item) (seq 0 (length items))) /\
      (wrap64 (Z.of_nat (length (default [] (inner !! s)))
               - Z.of_nat (length (List.filter (studies items item)
                                     (seq 0 (length items))))) ≠ 0%Z ->
       Z.of_nat (length (remove_trials (default [] (inner !! s))
                           (List.filter (studies items item)
                              (seq 0 (length items)))))
       = wrap64 (Z.of_nat (length (default [] (inner !! s)))
                 - Z.of_nat (length (List.filter (studies items item)
                                       (seq 0 (length items))))))).
  { intros s Hs.
    destruct (wf_trials_of _ _ _ _ Hwf Hstudents Hs)
      as (items & Hitems & Htrain & Hi & Hlen & Hts).
    exists items. split; [done|]. split; [done|].
    rewrite (inv_lookup _ _ Hinv t inner Hinner s).
    by apply (expected_trials_remove ds (seating_arrangement st) item
                UNASSIGNED t s items). }
  destruct (remove_students_run ds item t students (trial_lookup st) inner
              Hinner Hnd) as (inner' & Hrun & Hchar).
  { intros s Hs. destruct (Hstudent s Hs) as (items & _ & Hts & _ & Hok).
    eauto. }
  exists (<[t := inner']> (trial_lookup st)). split.
  - unfold remove_item_from_table. rewrite Hsize. simpl.
    unfold vec_set. rewrite decide_True by done. simpl.
    rewrite wrap64_small by lia.
    destruct (Z.eqb_spec (Z.of_nat (seated (seating_arrangement st) t) - 1) 0);
      [lia|].
    unfold vec_at at 1. rewrite Hstudents. simpl. by rewrite Hrun.
  - constructor; simpl.
    + by rewrite length_insert, (inv_seating_len _ _ Hinv).
    + rewrite map_size_insert_Some by (by rewrite Hsize).
      apply (inv_num_used _ _ Hinv).
    + apply (sizes_after_remove ds st item t); try done.
      * intros table Hnet. by rewrite lookup_insert_ne.
      * rewrite lookup_insert_eq. by rewrite bool_decide_eq_true_2.
    + rewrite dom_insert_L. rewrite (inv_extant _ _ Hinv). set_solver.
    + rewrite dom_insert_L. rewrite (inv_parameters _ _ Hinv). set_solver.
    + rewrite !dom_insert_L. rewrite (inv_lookup_dom _ _ Hinv). set_solver.
    + intros table by_student Hlook student.
      destruct (decide (table = t)) as [->|Hnet].
      * rewrite lookup_insert_eq in Hlook. injection Hlook as <-.
        destruct (Hchar student) as [Hin Hout].
        destruct (decide (student ∈ students)) as [Hs|Hs].
        -- destruct (Hin Hs) as (ts & Hts & ->).
           destruct (Hstudent _ Hs) as (items & _ & Hts' & Hexp & _).
           rewrite Hts in Hts'. injection Hts' as ->. by rewrite Hexp.
        -- rewrite (Hout Hs), (inv_lookup _ _ Hinv t inner Hinner student).
           symmetry. apply expected_trials_unstudied.
           intros items Htrain Hitems Hi. apply Hs. apply Hmem. eauto.
      * rewrite lookup_insert_ne in Hlook by done.
        rewrite (inv_lookup _ _ Hinv table by_student Hlook student).
        symmetry. eapply expected_trials_insert_ne; [done|congruence|].
        intros <-.
        assert (UNASSIGNED ∈ dom (table_sizes st)) as Hu.
        { rewrite <- (inv_lookup_dom _ _ Hinv). apply elem_of_dom. eauto. }
        by apply (ledger_dom_seated _ _ _ Hinv) in Hu as [? _].
Qed.
End LedgerInvariant.

(** ** The helper variables built by the constructor *)

Lemma seq_split_prefix (n x : nat) (pre suf : list nat) :
  seq 0 n = pre ++ x :: suf -> x = length pre /\ x < n.
Proof.
  intros Hseq.
  assert (seq 0 n !! length pre = Some x) as Hx.
  { rewrite Hseq. by rewrite list_lookup_middle. }
  apply lookup_seq in Hx. lia.
Qed.

Lemma for_range_inv {S} (P : nat -> S -> Prop) (body : nat -> S -> outcome S)
    (n : nat) (s0 s' : S) :
  P 0 s0 ->
  (forall k s s1, k < n -> P k s -> body k s = Ret s1 -> P (Datatypes.S k) s1) ->
  for_range n body s0 = Ret s' ->
  P n s'.
Proof.
  intros H0 Hstep Hrun.
  rewrite <- (length_seq n 0) at 1.
  apply (for_each_inv (fun pre s => P (length pre) s) body (seq 0 n) s0 s');
    [done| |done].
  intros pre x suf s s1 Hseq HP Hbody.
  apply seq_split_prefix in Hseq as [-> Hlt].
  rewrite length_app. simpl. rewrite Nat.add_1_r. by eapply Hstep.
Qed.

Lemma filter_seq_S (f : nat -> bool) (k : nat) :
  List.filter f (seq 0 (S k))
  = List.filter f (seq 0 k) ++ (if f k then [k] else []).
Proof. rewrite seq_S, List.filter_app. simpl. by destruct (f k). Qed.

Lemma index_student_spec (n_items : nat) (items : list (list nat))
    (recall : list (list bool)) (s : nat) (items_s : list nat)
    (first : list nat) (pairs : list (nat * bool)) (studied : list (list nat)) :
  items !! s = Some items_s ->
  index_student n_items items recall s = Ret (first, pairs, studied) ->
  Forall (fun item => item < n_items) items_s /\
  length pairs = length items_s /\
  (forall tr item, items_s !! tr = Some item ->
     exists recall_s r, recall !! s = Some recall_s /\ recall_s !! tr = Some r /\
                        pairs !! tr = Some (item, r)) /\
  length studied = n_items /\
  (forall item, item < n_items ->
     studied !! item
     = Some (List.filter (studies items_s item) (seq 0 (length items_s)))).
Proof.
  intros Hitems Hrun. unfold index_student, vec_at in Hrun.
  rewrite Hitems in Hrun. simpl in Hrun.
  pose (P := fun (k : nat) (acc : list nat * list (nat * bool) * list (list nat)) =>
    let '(first, pairs, studied) := acc in
    length first = n_items /\ length pairs = length items_s /\
    length studied = n_items /\
    (forall tr, tr < k ->
       exists item recall_s r, items_s !! tr = Some item /\ item < n_items /\
         recall !! s = Some recall_s /\ recall_s !! tr = Some r /\
         pairs !! tr = Some (item, r)) /\
    (forall item, item < n_items ->
       studied !! item = Some (List.filter (studies items_s item) (seq 0 k)))).
  assert (HP : P (length items_s) (first, pairs, studied)).
  { eapply (for_range_inv P); [| |exact Hrun].
    - simpl. rewrite !length_replicate. repeat split; try done.
      + intros tr Htr. lia.
      + intros item Hitem. by rewrite lookup_replicate_2.
    - intros k [[f0 p0] s0] [[f1 p1] s1] Hk (Hf & Hp & Hs & Hpairs & Hst) Hbody.
      unfold index_trial in Hbody. inv_ret Hbody. simpl_ret. subst.
      apply Nat.ltb_lt in Ha0. unfold P.
      rewrite !length_insert. repeat split; try done.
      + intros tr Htr. destruct (decide (tr = k)) as [->|Hne].
        * exists a, a3, a4. rewrite list_lookup_insert_eq by lia. done.
        * destruct (Hpairs tr) as (item & rs & r & ?); [lia|].
          exists item, rs, r. by rewrite list_lookup_insert_ne.
      + intros item Hitem. rewrite filter_seq_S.
        destruct (decide (item = a)) as [->|Hne].
        * rewrite list_lookup_insert_eq by lia.
          rewrite (Hst a Ha0) in Ha6. injection Ha6 as <-.
          by rewrite (proj2 (studies_true items_s a k) Ha).
        * rewrite list_lookup_insert_ne by done. rewrite (Hst item Hitem).
          assert (studies items_s item k = false) as ->.
          { apply not_true_iff_false. rewrite studies_true. congruence. }
          by rewrite app_nil_r. }
  destruct HP as (Hf & Hp & Hs & Hpairs & Hst).
  repeat split; try done.
  - apply Forall_forall. intros item (tr & Htr)%list_elem_of_lookup.
    destruct (Hpairs tr) as (item' & _ & _ & Hi & Hlt & _).
    { by apply lookup_lt_Some in Htr. }
    congruence.
  - intros tr item Htr. destruct (Hpairs tr) as (item' & rs & r & Hi & _ & H').
    { by apply lookup_lt_Some in Htr. }
    exists rs, r. assert (item' = item) as -> by congruence. done.
Qed.

Lemma studied_row_spec (n_items : nat) (train : gset nat)
    (items : list (list nat)) (s : nat) (items_s : list nat) (row : list bool) :
  items !! s = Some items_s ->
  studied_row n_items train items s = Ret row ->
  length row = n_items /\
  forall item, row !! item = Some true <-> s ∈ train /\ item ∈ items_s.
Proof.
  intros Hitems Hrun. unfold studied_row in Hrun.
  case_bool_decide as Htrain.
  - unfold vec_at in Hrun at 1. rewrite Hitems in Hrun. simpl in Hrun.
    pose (P := fun (k : nat) (row : list bool) =>
      length row = n_items /\
      forall item, row !! item = Some true
                   <-> exists tr, tr < k /\ items_s !! tr = Some item).
    assert (HP : P (length items_s) row).
    { eapply (for_range_inv P); [| |exact Hrun].
      - split; [by rewrite length_replicate|]. intros item. split.
        + intros [? _]%lookup_replicate. done.
        + intros (tr & ? & _). lia.
      - intros k r0 r1 Hk [Hlen Hrow] Hbody. inv_ret Hbody. simpl_ret. subst.
        split; [by rewrite length_insert|]. intros item.
        destruct (decide (item = a)) as [->|Hne].
        + rewrite list_lookup_insert_eq by done. split; [eauto|done].
        + rewrite list_lookup_insert_ne by done. rewrite Hrow. split.
          * intros (tr & ? & ?). exists tr. split; [lia|done].
          * intros (tr & Hlt' & Htr). exists tr. split; [|done].
            destruct (decide (tr = k)) as [->|]; [congruence | lia]. }
    destruct HP as [Hlen Hrow]. split; [done|]. intros item. rewrite Hrow.
    split.
    + intros (tr & _ & Htr). split; [done|]. apply list_elem_of_lookup. eauto.
    + intros [_ (tr & Htr)%list_elem_of_lookup]. exists tr. split; [|done].
      by apply lookup_lt_Some in Htr.
  - injection Hrun as <-. split; [by rewrite length_replicate|].
    intros item. split; [|tauto]. intros [? _]%lookup_replicate. done.
Qed.

Lemma item_students_spec (n_students : nat) (ever : list (list bool))
    (first : list (list nat)) (item : nat) (students firsts : list nat) :
  item_students n_students ever first item = Ret (students, firsts) ->
  students
  = List.filter (fun s => bool_decide (ever !! s ≫= (.!! item) = Some true))
      (seq 0 n_students).
Proof.
  intros Hrun. unfold item_students in Hrun.
  pose (P := fun (k : nat) (acc : list nat * list nat) =>
    fst acc = List.filter
                (fun s => bool_decide (ever !! s ≫= (.!! item) = Some true))
                (seq 0 k)).
  assert (HP : P n_students (students, firsts)); [|exact HP].
  eapply (for_range_inv P _ n_students ([], [])); [reflexivity| |exact Hrun].
  intros k [ss fs] [ss1 fs1] Hk HP Hbody. unfold P in *.
  cbn [fst snd] in *.
  rewrite filter_seq_S. inv_ret Hbody. simpl_ret.
  destruct a0.
  - inv_ret Hbody. subst.
    rewrite bool_decide_eq_true_2; [done|]. rewrite Ha. simpl. done.
  - injection Hbody as <- <-.
    rewrite bool_decide_eq_false_2; [by rewrite app_nil_r|].
    rewrite Ha. simpl. congruence.
Qed.

(** ** Steps of the ledger *)

Section LedgerSteps.
Context {G D : Type} `{Double D, Constants D, Random G D}.
Implicit Type st : chain G D.
Implicit Type ds : dataset.

Lemma assign_extant_step ds st item t st' :
  dataset_wf ds -> ledger_inv ds st ->
  seating_arrangement st !! item = Some UNASSIGNED ->
  t ∈ dom (table_sizes st) ->
  assign_item_to_table ds item t false st = Ret st' ->
  ledger_inv ds st' /\
  seating_arrangement st' = <[item := t]> (seating_arrangement st) /\
  dom (table_sizes st') = dom (table_sizes st) /\
  parameters st' = parameters st /\
  tables_ever_instantiated st' = tables_ever_instantiated st /\
  same_samples st st'.
Proof.
  intros Hwf Hinv Hitem Ht Hrun.
  destruct (assign_extant_ok ds st item t Hwf Hinv Hitem Ht)
    as (tl & Hrun' & Hinv').
  rewrite Hrun in Hrun'. injection Hrun' as ->.
  split_and!; try done. simpl. rewrite dom_insert_L. set_solver.
Qed.

Lemma assign_new_step ds st item t st' :
  dataset_wf ds -> ledger_inv ds st ->
  seating_arrangement st !! item = Some UNASSIGNED ->
  t ∉ dom (table_sizes st) -> t ≠ UNASSIGNED ->
  assign_item_to_table ds item t true st = Ret st' ->
  ledger_inv ds st' /\
  seating_arrangement st' = <[item := t]> (seating_arrangement st) /\
  dom (table_sizes st') = {[t]} ∪ dom (table_sizes st) /\
  table_sizes st' !! t = Some 1%Z /\
  (forall t', t' ≠ t -> parameters st' !! t' = parameters st !! t') /\
  tables_ever_instantiated st' = tables_ever_instantiated st /\
  same_samples st st'.
Proof.
  intros Hwf Hinv Hitem Ht Hne Hrun.
  destruct (assign_new_ok ds st item t Hwf Hinv Hitem Ht Hne)
    as (inner & Hrun' & Hinv').
  rewrite Hrun in Hrun'. injection Hrun' as ->.
  split_and!; try done; simpl.
  - by rewrite dom_insert_L.
  - by rewrite lookup_insert_eq.
  - intros t' Hne'. by rewrite lookup_insert_ne.
Qed.

Lemma remove_step ds st item t deleted st' :
  dataset_wf ds -> ledger_inv ds st ->
  seating_arrangement st !! item = Some t -> t ≠ UNASSIGNED ->
  remove_item_from_table ds item t st = Ret (deleted, st') ->
  ledger_inv ds st' /\
  seating_arrangement st' = <[item := UNASSIGNED]> (seating_arrangement st) /\
  (deleted = true <-> seated (seating_arrangement st) t = 1) /\
  dom (table_sizes st')
  = (if deleted then dom (table_sizes st) ∖ {[t]} else dom (table_sizes st)) /\
  (forall t', t' ≠ t -> parameters st' !! t' = parameters st !! t') /\
  (deleted = false -> parameters st' = parameters st) /\
  tables_ever_instantiated st' = tables_ever_instantiated st /\
  same_samples st st'.
Proof.
  intros Hwf Hinv Hitem Hne Hrun.
  assert (0 < seated (seating_arrangement st) t) as Hpos.
  { apply seated_pos. apply list_elem_of_lookup. eauto. }
  destruct (decide (seated (seating_arrangement st) t = 1)) as [Hone|Hmany].
  - destruct (remove_last_ok ds st item t Hwf Hinv Hitem Hne Hone)
      as [Hrun' Hinv'].
    rewrite Hrun in Hrun'. injection Hrun' as -> ->.
    split_and!; try done; simpl.
    + by rewrite dom_delete_L.
    + intros t' Hne'. by rewrite lookup_delete_ne.
  - destruct (remove_shared_ok ds st item t Hwf Hinv Hitem Hne)
      as (tl & Hrun' & Hinv'); [lia|].
    rewrite Hrun in Hrun'. injection Hrun' as -> ->.
    split_and!; try done; simpl.
    rewrite dom_insert_L.
    assert (t ∈ dom (table_sizes st)); [|set_solver].
    apply (ledger_dom_seated _ _ _ Hinv). split; [done | lia].
Qed.

(** A change outside the ledger keeps its invariant. *)
Lemma ledger_inv_frame ds st st' :
  ledger_inv ds st ->
  seating_arrangement st' = seating_arrangement st ->
  num_used_skills st' = num_used_skills st ->
  table_sizes st' = table_sizes st ->
  extant_tables st' = extant_tables st ->
  trial_lookup st' = trial_lookup st ->
  dom (parameters st') = dom (parameters st) ->
  ledger_inv ds st'.
Proof.
  intros [? ? ? ? ? ? ?] Hs Hn Ht He Hl Hp.
  constructor; rewrite ?Hs, ?Hn, ?Ht, ?He, ?Hl, ?Hp; done.
Qed.
End LedgerSteps.

Lemma map_each_seq {B} (f : nat -> outcome B) (n : nat) (ys : list B) :
  map_each f (seq 0 n) = Ret ys ->
  length ys = n /\
  forall s, s < n -> exists y, ys !! s = Some y /\ f s = Ret y.
Proof.
  intros Hrun%map_each_ret. split.
  - apply Forall2_length in Hrun. by rewrite length_seq in Hrun.
  - intros s Hs.
    destruct (Forall2_lookup_l _ _ _ s s Hrun) as (y & Hy & Hf); [|eauto].
    by apply lookup_seq.
Qed.

Section ConstructorDataset.
Context {D : Type}.

Lemma index_dataset_wf (train : gset nat) (recall : list (list bool))
    (items : list (list nat)) (provided : list nat) (use_expert : bool)
    (n_students n_items n_subsamples : nat) (ds : dataset)
    (samples : list (list (list D))) :
  (Z.of_nat n_items < 2 ^ 64)%Z ->
  Forall (fun l : list nat => (Z.of_nat (length l) < 2 ^ 64)%Z) items ->
  index_dataset train recall items provided use_expert
    n_students n_items n_subsamples = Ret ds ->
  empty_samples recall n_students = Ret samples ->
  dataset_wf ds.
Proof.
  intros Hbound Hlens Hrun Hsamples. unfold index_dataset in Hrun.
  inv_ret Hrun. subst ds.
  apply map_each_seq in Ha as [Hrows_len Hrows].
  apply map_each_seq in Ha0 as [Hever_len Hever].
  apply map_each_seq in Ha1 as [Hitem_len Hper_item].
  apply map_each_seq in Hsamples as [_ Hsamples].
  assert (Hseq : forall s, s < n_students ->
    exists items_s first pairs studied row,
      items !! s = Some items_s /\ a !! s = Some (first, pairs, studied) /\
      index_student n_items items recall s = Ret (first, pairs, studied) /\
      a0 !! s = Some row /\ studied_row n_items train items s = Ret row).
  { intros s Hs. destruct (Hrows s Hs) as ([[first pairs] studied] & Hr & Hidx).
    destruct (Hever s Hs) as (row & Hrow & Hst).
    assert (exists items_s, items !! s = Some items_s) as [items_s Hi].
    { unfold index_student in Hidx. apply obind_ret in Hidx as (x & Hx & _).
      apply vec_at_ret in Hx. eauto. }
    exists items_s, first, pairs, studied, row. done. }
  constructor; simpl.
  - done.
  - intros s Hs.
    destruct (Hseq s Hs) as (items_s & first & pairs & studied & row & Hi & Hr
                             & Hidx & _).
    destruct (index_student_spec _ _ _ _ _ _ _ _ Hi Hidx)
      as (Hall & Hplen & Hpairs & Hslen & Hstudied).
    destruct (Hsamples s Hs) as (cells & _ & Hcells).
    apply obind_ret in Hcells as (recall_s & Hrecall%vec_at_ret & _).
    exists items_s, recall_s, pairs, studied.
    rewrite !list_lookup_fmap, Hr. simpl. split_and!; try done.
    + rewrite Forall_forall in Hlens. apply Hlens.
      apply list_elem_of_lookup. eauto.
    + intros tr item Htr. destruct (Hpairs tr item Htr) as (rs & r & ? & ? & ?).
      exists r. split; [congruence | done].
  - by rewrite length_fmap.
  - intros item students Hst.
    rewrite list_lookup_fmap in Hst.
    destruct (a1 !! item) as [[students' firsts]|] eqn:Hper; [|done].
    simpl in Hst. injection Hst as ->.
    assert (item < n_items) as Hitem.
    { apply lookup_lt_Some in Hper. by rewrite Hitem_len in Hper. }
    destruct (Hper_item item Hitem) as (y & Hy & Hrun).
    rewrite Hper in Hy. injection Hy as <-.
    apply item_students_spec in Hrun. subst students. split.
    + apply sorted_lt_NoDup, filter_sorted, seq_sorted.
    + intros s. rewrite list_elem_of_In, filter_In, in_seq.
      rewrite bool_decide_eq_true. unfold is_train. simpl. split.
      * intros [[_ Hs] Hrow]. simpl in Hs.
        destruct (Hseq s Hs) as (items_s & first & pairs & studied & row & Hi
                                 & _ & _ & Hrow' & Hst).
        rewrite Hrow' in Hrow. simpl in Hrow.
        pose proof (proj1 (proj2 (studied_row_spec _ _ _ _ _ _ Hi Hst) item)
                      Hrow) as [Htrain Hin].
        split; [done|]. eauto.
      * intros [[Htrain Hs] (items_s & Hi & Hin)].
        split; [lia|].
        destruct (Hseq s Hs) as (items_s' & first & pairs & studied & row & Hi'
                                 & _ & _ & Hrow' & Hst).
        rewrite Hrow'. simpl.
        apply (studied_row_spec _ _ _ _ _ _ Hi' Hst). split; [done|].
        congruence.
Qed.
End ConstructorDataset.

(** ** The constructed chain *)

Lemma foldr_max_ge (l : list nat) (x : nat) : x ∈ l -> x <= foldr Nat.max 0 l.
Proof.
  induction l as [|y l IH]; [by intros ?%not_elem_of_nil|].
  intros [->|Hx]%elem_of_cons; simpl; [lia|]. specialize (IH Hx). lia.
Qed.

(** The [size_t] successor of a label that fits is its successor. *)
Lemma size_succ_small (n : nat) :
  (Z.of_nat n + 1 < 2 ^ 64)%Z -> Z.to_nat (wrap64 (1 + Z.of_nat n)) = 1 + n.
Proof. intros Hn. rewrite wrap64_small by lia. lia. Qed.

(** The [size_t] successor of the largest label is [UNASSIGNED]. *)
Lemma size_succ_wraps :
  Z.to_nat (wrap64 (1 + Z.of_nat (Z.to_nat (2 ^ 64 - 1)))) = UNASSIGNED.
Proof. rewrite Z2Nat.id by lia. reflexivity. Qed.

Lemma foldr_max_elem (l : list nat) : l ≠ [] -> foldr Nat.max 0 l ∈ l.
Proof.
  induction l as [|x l IH]; [done|]. intros _. simpl.
  destruct l as [|y l]; [simpl; rewrite Nat.max_0_r; by left|].
  destruct (Nat.max_spec x (foldr Nat.max 0 (y :: l))) as [[_ ->]|[_ ->]];
    [right; by apply IH | by left].
Qed.

(** With labels that fit, the largest table id that the constructor can hand
    out is below [2 ^ 64]. *)
Lemma labels_fit_counter (provided : list nat) (n_items : nat) :
  provided ≠ [] -> labels_fit provided n_items ->
  (Z.of_nat (foldr Nat.max 0%nat provided) + 2 * Z.of_nat n_items + 3
   < 2 ^ 64)%Z.
Proof.
  intros Hne%foldr_max_elem Hfit. unfold labels_fit in Hfit.
  rewrite Forall_forall in Hfit. by apply Hfit.
Qed.

Lemma labels_fit_max (provided : list nat) (n_items : nat) :
  labels_fit provided n_items ->
  (Z.of_nat (foldr Nat.max 0%nat provided) + 1 < 2 ^ 64)%Z.
Proof.
  induction 1 as [|label l Hlabel _ IH]; simpl; [lia|].
  destruct (Nat.max_spec label (foldr Nat.max 0 l)) as [[_ ->]|[_ ->]]; lia.
Qed.

Section ConstructorChain.
Context {G D : Type} `{Double D, Constants D, Random G D}.
Implicit Type st : chain G D.
Implicit Type ds : dataset.

Lemma same_ledger_inv ds st st' :
  same_ledger st st' -> ledger_inv ds st -> ledger_inv ds st'.
Proof.
  intros (? & ? & ? & ? & ? & ? & ?) Hinv.
  by apply (ledger_inv_frame ds st st').
Qed.

Lemma same_ledger_fresh st st' :
  same_ledger st st' -> fresh_inv st -> fresh_inv st'.
Proof.
  intros (_ & _ & Hts & _ & _ & Hever & _) [Hu Hfresh].
  unfold fresh_inv. by rewrite Hts, Hever.
Qed.

Lemma same_samples_inv ds st st' :
  same_samples st st' -> samples_inv ds st -> samples_inv ds st'.
Proof.
  intros (Hp & Hl & Ht) [? ? ?]. constructor; rewrite ?Hp, ?Hl, ?Ht; done.
Qed.

Lemma same_samples_trans st1 st2 st3 :
  same_samples st1 st2 -> same_samples st2 st3 -> same_samples st1 st3.
Proof. intros (? & ? & ?) (? & ? & ?). split_and!; congruence. Qed.

Lemma ledger_blank ds g samples beta init_alpha_prime :
  ledger_inv ds (blank_chain ds g samples beta init_alpha_prime).
Proof.
  unfold blank_chain. destruct (if (init_alpha_prime <? 0)%D then _ else _).
  constructor; simpl; try done.
  - by rewrite length_replicate.
  - intros table. rewrite lookup_empty.
    case_bool_decide as Hd; [|done]. destruct Hd as [Hne Hpos].
    rewrite seated_replicate in Hpos by done. lia.
Qed.

(** The first seating. *)
Lemma seat_expert_loop ds st0 st enc :
  dataset_wf ds -> ledger_inv ds st0 ->
  seating_arrangement st0 = replicate (num_items ds) UNASSIGNED ->
  (Z.of_nat (foldr Nat.max 0%nat (provided_skill_assignments ds)) + 1 < 2 ^ 64)%Z ->
  for_range (num_items ds) (seat_expert ds) (st0, ∅) = Ret (st, enc) ->
  ledger_inv ds st /\ settled st /\
  tables_ever_instantiated st = tables_ever_instantiated st0 /\
  same_samples st0 st /\
  (forall item, item < num_items ds ->
     exists label, provided_skill_assignments ds !! item = Some label /\
                   seating_arrangement st !! item = Some (1 + label)).
Proof.
  intros Hwf Hinv0 Hseat0 Hmax Hrun.
  pose (P := fun (k : nat) (acc : chain G D * gset nat) =>
    ledger_inv ds (fst acc) /\ snd acc = dom (table_sizes (fst acc)) /\
    (forall j, k <= j -> j < num_items ds ->
       seating_arrangement (fst acc) !! j = Some UNASSIGNED) /\
    (forall j, j < k ->
       exists label, provided_skill_assignments ds !! j = Some label /\
                     seating_arrangement (fst acc) !! j = Some (1 + label)) /\
    tables_ever_instantiated (fst acc) = tables_ever_instantiated st0 /\
    same_samples st0 (fst acc)).
  assert (HP : P (num_items ds) (st, enc)).
  { eapply (for_range_inv P _ _ (st0, ∅)); [| |exact Hrun].
    - unfold P. simpl. split_and!; try done.
      + pose proof (inv_sizes _ _ Hinv0) as Hs.
        apply set_eq. intros t. rewrite elem_of_dom, Hs, Hseat0.
        split; [by intros ?%not_elem_of_empty|].
        case_bool_decide as Hd; [|by intros [? [=]]]. destruct Hd as [Hne Hpos].
        rewrite seated_replicate in Hpos by done. lia.
      + intros j _ Hj. rewrite Hseat0. by apply lookup_replicate_2.
      + intros j Hj. lia.
    - intros k [st1 enc1] [st2 enc2] Hk (Hinv & Henc & Hrest & Hdone & Hever & Hsame)
        Hbody.
      unfold P. simpl in *. unfold seat_expert in Hbody.
      apply obind_ret in Hbody as (a & Ha & Hbody).
      rewrite size_succ_small in Hbody.
      2:{ apply vec_at_ret, list_elem_of_lookup_2, foldr_max_ge in Ha. lia. }
      inv_ret Hbody. simpl_ret. subst enc2 st2 enc1.
      pose proof (Hrest k (le_n k) Hk) as Hitem.
      assert (Hstep :
        ledger_inv ds a0 /\
        seating_arrangement a0 = <[k := 1 + a]> (seating_arrangement st1) /\
        dom (table_sizes a0) = {[1 + a]} ∪ dom (table_sizes st1) /\
        tables_ever_instantiated a0 = tables_ever_instantiated st1 /\
        same_samples st1 a0).
      { case_bool_decide as Hin; simpl in Ha0.
        - destruct (assign_extant_step _ _ _ _ _ Hwf Hinv Hitem Hin Ha0)
            as (? & ? & Hdom & _ & ? & ?).
          split_and!; try done. rewrite Hdom. set_solver.
        - destruct (assign_new_step ds st1 k (1 + a) a0 Hwf Hinv Hitem Hin)
            as (? & ? & Hdom & _ & _ & ? & ?); try done. }
      destruct Hstep as (Hinv' & Hseat' & Hdom' & Hever' & Hsame').
      pose proof (lookup_lt_Some _ _ _ Hitem) as Hlt.
      split_and!; try done.
      + intros j Hj Hjn. rewrite Hseat'.
        rewrite list_lookup_insert_ne by lia. apply Hrest; lia.
      + intros j Hj. destruct (decide (j = k)) as [->|Hne].
        * exists a. split; [done|]. rewrite Hseat'.
          by rewrite list_lookup_insert_eq.
        * destruct (Hdone j) as (label & ? & ?); [lia|].
          exists label. split; [done|]. rewrite Hseat'.
          by rewrite list_lookup_insert_ne.
      + congruence.
      + by eapply same_samples_trans. }
  destruct HP as (Hinv & _ & _ & Hdone & Hever & Hsame). simpl in *.
  split_and!; try done.
  apply Forall_forall. intros t (j & Hj)%list_elem_of_lookup.
  destruct (Hdone j) as (label & _ & Hseat).
  { apply lookup_lt_Some in Hj. by rewrite (inv_seating_len _ _ Hinv) in Hj. }
  unfold UNASSIGNED. rewrite Hj in Hseat. injection Hseat as ->. lia.
Qed.

Lemma same_ledger_refl st : same_ledger st st.
Proof. by split_and!. Qed.

Lemma same_ledger_trans st1 st2 st3 :
  same_ledger st1 st2 -> same_ledger st2 st3 -> same_ledger st1 st3.
Proof.
  intros (? & ? & ? & ? & ? & ? & ?) (? & ? & ? & ? & ? & ? & ?).
  split_and!; congruence.
Qed.

Lemma same_samples_refl st : same_samples st st.
Proof. by split_and!. Qed.

Lemma set_parameters_same_ledger st t params :
  t ∈ dom (parameters st) ->
  same_ledger st (set_parameters (<[t := params]> (parameters st)) st).
Proof.
  intros Ht. split_and!; try done. simpl. rewrite dom_insert_L. set_solver.
Qed.

Lemma singleton_scores_loop ds tmp affected first_exposures n st2 st3 lps :
  tmp ∈ dom (parameters st2) ->
  for_range n (singleton_score ds tmp affected first_exposures) (st2, [])
  = Ret (st3, lps) ->
  same_ledger st2 st3 /\ same_samples st2 st3.
Proof.
  intros Htmp Hrun.
  pose (P := fun (k : nat) (acc : chain G D * list D) =>
    same_ledger st2 (fst acc) /\ same_samples st2 (fst acc)).
  assert (HP : P n (st3, lps)); [|exact HP].
  eapply (for_range_inv P _ _ (st2, [])); [| |exact Hrun].
  - split; [apply same_ledger_refl | apply same_samples_refl].
  - intros k [sa la] [sb lb] _ [Hl Hs] Hbody. unfold P in *. simpl in *.
    unfold singleton_score in Hbody. inv_ret Hbody. subst sb.
    split.
    + eapply same_ledger_trans; [exact Hl|].
      apply set_parameters_same_ledger.
      destruct Hl as (_ & _ & _ & _ & _ & _ & ->). done.
    + destruct Hs as (? & ? & ?). by split_and!.
Qed.

Lemma settled_insert st (item t : nat) (l : list nat) :
  Forall (fun table => table ≠ UNASSIGNED) l -> t ≠ UNASSIGNED ->
  Forall (fun table => table ≠ UNASSIGNED) (<[item := t]> l).
Proof. intros. by apply Forall_insert. Qed.

Lemma fresh_not_dom st :
  fresh_inv st ->
  (tables_ever_instantiated st ∉ dom (table_sizes st))
  /\ (tables_ever_instantiated st ≠ UNASSIGNED).
Proof.
  intros [Hu Hfresh]. split; [|lia].
  intros Hin. specialize (Hfresh _ Hin). lia.
Qed.

(** The singleton pass over one item. *)
Lemma singleton_item_step ds st item st' :
  dataset_wf ds -> ledger_inv ds st -> fresh_inv st -> settled st ->
  singleton_item ds item st = Ret st' ->
  ledger_inv ds st' /\ fresh_inv st' /\ settled st' /\ same_samples st st' /\
  tables_ever_instantiated st' <= tables_ever_instantiated st + 2.
Proof.
  intros Hwf Hinv Hfresh Hsettled Hrun. unfold singleton_item in Hrun.
  inv_ret Hrun. simpl_ret.
  rename a1 into cur, b into deleted, c into st1, a3 into st2,
    c0 into st3, l into lps, b0 into deleted', c1 into st4, Hlt into Hrows.
  assert (cur ≠ UNASSIGNED) as Hcur.
  { unfold settled in Hsettled. rewrite Forall_forall in Hsettled.
    apply Hsettled. apply list_elem_of_lookup. eauto. }
  pose proof (lookup_lt_Some _ _ _ Ha1) as Hlt.
  destruct (remove_step _ _ _ _ _ _ Hwf Hinv Ha1 Hcur Ha2)
    as (Hinv1 & Hseat1 & Hdel1 & Hdom1 & _ & _ & Hever1 & Hsame1).
  destruct Hfresh as [Hu Hfresh].
  assert (Hsub1 : dom (table_sizes st1) ⊆ dom (table_sizes st)).
  { rewrite Hdom1. destruct deleted; set_solver. }
  set (tmp := tables_ever_instantiated st1) in *.
  assert (Htmp : (tmp ∉ dom (table_sizes st1)) /\ (tmp ≠ UNASSIGNED)).
  { subst tmp. rewrite Hever1. split; [|lia].
    intros Hin. apply Hsub1, Hfresh in Hin. lia. }
  destruct Htmp as [Htmp Htmpu].
  assert (Hitem1 : seating_arrangement st1 !! item = Some UNASSIGNED).
  { rewrite Hseat1. by apply list_lookup_insert_eq. }
  destruct (assign_new_step ds (set_tables_ever_instantiated (S tmp) st1)
              item tmp st2 Hwf)
    as (Hinv2 & Hseat2 & Hdom2 & Hsize2 & _ & Hever2 & Hsame2); try done.
  { by apply (ledger_inv_frame ds st1). }
  simpl in *.
  assert (Htmp2 : tmp ∈ dom (parameters st2)).
  { rewrite (inv_parameters _ _ Hinv2), Hdom2. set_solver. }
  destruct (singleton_scores_loop _ _ _ _ _ _ _ _ Htmp2 Ha4) as [Hl3 Hsame3].
  pose proof (same_ledger_inv _ _ _ Hl3 Hinv2) as Hinv3.
  destruct Hl3 as (Hseat3 & _ & Hts3 & _ & _ & Hever3 & _).
  set (st3' := set_singleton_skill_data_lp a5 st3) in *.
  assert (Hinv3' : ledger_inv ds st3') by by apply (ledger_inv_frame ds st3).
  assert (Hitem3 : seating_arrangement st3' !! item = Some tmp).
  { simpl. rewrite Hseat3, Hseat2. apply list_lookup_insert_eq.
    by rewrite Hseat1, length_insert. }
  destruct (remove_step _ _ _ _ _ _ Hwf Hinv3' Hitem3 Htmpu Ha6)
    as (Hinv4 & Hseat4 & Hdel4 & Hdom4 & _ & _ & Hever4 & Hsame4).
  assert (deleted' = true) as ->.
  { apply Hdel4. pose proof (inv_sizes _ _ Hinv3 tmp) as Hs.
    rewrite Hts3, Hsize2 in Hs. simpl.
    case_bool_decide; [|done]. injection Hs as Hs. lia. }
  simpl in Hseat4, Hdom4, Hever4.
  rewrite Hts3, Hdom2 in Hdom4.
  assert (Hdom4' : dom (table_sizes st4) = dom (table_sizes st1))
    by set_solver.
  assert (Hseat4' : seating_arrangement st4
                    = <[item := UNASSIGNED]> (seating_arrangement st)).
  { rewrite Hseat4, Hseat3, Hseat2, Hseat1.
    by rewrite !list_insert_insert_eq. }
  assert (Hitem4 : seating_arrangement st4 !! item = Some UNASSIGNED).
  { rewrite Hseat4'. by apply list_lookup_insert_eq. }
  assert (Hever4' : tables_ever_instantiated st4 = S tmp) by congruence.
  assert (Hsame04 : same_samples st st4).
  { eapply same_samples_trans; [exact Hsame1|].
    eapply same_samples_trans; [exact Hsame2|].
    eapply same_samples_trans; [exact Hsame3|]. exact Hsame4. }
  destruct deleted.
  - destruct (assign_new_step ds
                (set_tables_ever_instantiated
                   (S (tables_ever_instantiated st4)) st4)
                item (tables_ever_instantiated st4) st' Hwf)
      as (Hinv5 & Hseat5 & Hdom5 & _ & _ & Hever5 & Hsame5); try done.
    { by apply (ledger_inv_frame ds st4). }
    { simpl. rewrite Hdom4', Hever4'. intros Hin.
      apply Hsub1, Hfresh in Hin. subst tmp. lia. }
    { rewrite Hever4'. done. }
    simpl in *. split_and!; try done.
    + split; [lia|]. intros t. rewrite Hdom5, Hever5, Hdom4', Hever4'.
      intros [->%elem_of_singleton | Hin%Hsub1%Hfresh]%elem_of_union;
        subst tmp; lia.
    + unfold settled. rewrite Hseat5, Hseat4', list_insert_insert_eq.
      apply Forall_insert; [done|]. rewrite Hever4'. done.
    + by eapply same_samples_trans.
    + rewrite Hever5, Hever4'. subst tmp. lia.
  - assert (Hin : cur ∈ dom (table_sizes st4)).
    { rewrite Hdom4', Hdom1.
      apply (ledger_dom_seated _ _ _ Hinv). split; [done|].
      apply seated_pos. apply list_elem_of_lookup. eauto. }
    destruct (assign_extant_step _ _ _ _ _ Hwf Hinv4 Hitem4 Hin Hrun)
      as (Hinv5 & Hseat5 & Hdom5 & _ & Hever5 & Hsame5).
    split_and!; try done.
    + split; [lia|]. intros t. rewrite Hdom5, Hever5, Hdom4', Hever4'.
      intros Hin'%Hsub1%Hfresh. subst tmp. lia.
    + unfold settled. rewrite Hseat5, Hseat4', list_insert_insert_eq.
      by apply Forall_insert.
    + by eapply same_samples_trans.
    + rewrite Hever5, Hever4'. subst tmp. lia.
Qed.

Lemma blank_chain_fields ds g samples beta init_alpha_prime :
  let st := blank_chain ds g samples beta init_alpha_prime in
  seating_arrangement st = replicate (num_items ds) UNASSIGNED /\
  tables_ever_instantiated st = UNASSIGNED + 1 /\
  pRT_samples st = samples /\
  skill_label_samples st = [] /\ train_ll_samples st = [].
Proof.
  unfold blank_chain. by destruct (if (init_alpha_prime <? 0)%D then _ else _).
Qed.

Lemma index_dataset_fields train recall items provided use_expert
    n_students n_items n_subsamples ds :
  (Z.of_nat (foldr Nat.max 0%nat provided) + 1 < 2 ^ 64)%Z ->
  index_dataset train recall items provided use_expert
    n_students n_items n_subsamples = Ret ds ->
  num_items ds = n_items /\ num_students ds = n_students /\
  recall_sequences ds = recall /\
  provided_skill_assignments ds = provided /\
  num_expert_provided_skills ds = 1 + foldr Nat.max 0 provided.
Proof.
  intros Hmax Hrun. unfold index_dataset in Hrun. inv_ret Hrun. subst ds.
  cbn [num_items num_students recall_sequences provided_skill_assignments
         num_expert_provided_skills].
  by rewrite size_succ_small.
Qed.

Lemma empty_samples_inv ds recall samples st :
  recall_sequences ds = recall ->
  empty_samples recall (num_students ds) = Ret samples ->
  pRT_samples st = samples ->
  skill_label_samples st = [] -> train_ll_samples st = [] ->
  samples_inv ds st.
Proof.
  intros Hrecall Hrun Hp Hl Ht. apply map_each_seq in Hrun as [Hlen Hrows].
  constructor; rewrite ?Hp, ?Hl, ?Ht; try done.
  intros s row Hrow.
  destruct (Hrows s) as (row' & Hrow' & Hcell).
  { apply lookup_lt_Some in Hrow. by rewrite Hlen in Hrow. }
  rewrite Hrow in Hrow'. injection Hrow' as <-.
  apply obind_ret in Hcell as (recall_s & Hr%vec_at_ret & [= <-]).
  exists recall_s. rewrite Hrecall. split_and!; try done.
  - by rewrite length_replicate.
  - intros trial cell [-> _]%lookup_replicate. done.
Qed.

(** The second half of the constructor. *)
Lemma initial_chain_inv ds st0 st :
  dataset_wf ds -> ledger_inv ds st0 ->
  seating_arrangement st0 = replicate (num_items ds) UNASSIGNED ->
  tables_ever_instantiated st0 = UNASSIGNED + 1 ->
  (Z.of_nat (foldr Nat.max 0%nat (provided_skill_assignments ds)) + 1 < 2 ^ 64)%Z ->
  num_expert_provided_skills ds
  = 1 + foldr Nat.max 0 (provided_skill_assignments ds) ->
  initial_chain ds st0 = Ret st ->
  labels_wf ds /\ ledger_inv ds st /\ fresh_inv st /\ settled st
  /\ same_samples st0 st
  /\ tables_ever_instantiated st
     <= num_expert_provided_skills ds + 2 + 2 * num_items ds.
Proof.
  intros Hwf Hinv0 Hseat0 Hever0 Hmax Hexpert Hrun.
  unfold initial_chain in Hrun. inv_ret Hrun.
  destruct (seat_expert_loop _ _ _ _ Hwf Hinv0 Hseat0 Hmax Ha)
    as (Hinv1 & Hsettled1 & Hever1 & Hsame1 & Hlabels).
  assert (Hwfl : labels_wf ds).
  { intros item Hitem. destruct (Hlabels item Hitem) as (label & Hl & _).
    exists label. split; [done|]. rewrite Hexpert.
    assert (label <= foldr Nat.max 0 (provided_skill_assignments ds)); [|lia].
    apply foldr_max_ge. apply list_elem_of_lookup. eauto. }
  set (st1 := set_tables_ever_instantiated
                (tables_ever_instantiated c
                 + (num_expert_provided_skills ds + 1)) c) in *.
  assert (Hinv1' : ledger_inv ds st1) by by apply (ledger_inv_frame ds c).
  assert (Hfresh1 : fresh_inv st1).
  { split; simpl; [unfold UNASSIGNED; lia|].
    intros t Ht. apply (ledger_dom_seated _ _ _ Hinv1) in Ht as [_ Hpos].
    apply seated_pos, list_elem_of_lookup in Hpos as [j Hj].
    destruct (Hlabels j) as (label & Hl & Hs).
    { apply lookup_lt_Some in Hj. by rewrite (inv_seating_len _ _ Hinv1) in Hj. }
    destruct (Hwfl j) as (label' & Hl' & Hlt).
    { apply lookup_lt_Some in Hj. by rewrite (inv_seating_len _ _ Hinv1) in Hj. }
    rewrite Hj in Hs. injection Hs as ->.
    rewrite Hl in Hl'. injection Hl' as ->. lia. }
  assert (Hcount1 : tables_ever_instantiated st1
                    = num_expert_provided_skills ds + 2).
  { subst st1. cbn [tables_ever_instantiated set_tables_ever_instantiated].
    rewrite Hever1, Hever0. unfold UNASSIGNED. lia. }
  destruct (use_expert_labels ds).
  { injection Hrun as <-. split_and!; try done. lia. }
  destruct (draw_prior_samples _ _) as [priors g'] eqn:Hdraw.
  set (st2 := set_prior_samples priors _) in Hrun.
  pose (Q := fun (k : nat) (s : chain G D) =>
    ledger_inv ds s /\ fresh_inv s /\ settled s /\ same_samples st0 s /\
    tables_ever_instantiated s <= num_expert_provided_skills ds + 2 + 2 * k).
  assert (HQ : Q (num_items ds) st);
    [|by destruct HQ as (? & ? & ? & ? & ?)].
  eapply (for_range_inv Q _ _ st2); [| |exact Hrun].
  - split_and!; try done; [by apply (ledger_inv_frame ds st1)|].
    change (tables_ever_instantiated st2)
      with (tables_ever_instantiated st1). lia.
  - intros k s s1 _ (Hi & Hf & Hs & Hsm & Hcount) Hbody.
    destruct (singleton_item_step _ _ _ _ Hwf Hi Hf Hs Hbody)
      as (? & ? & ? & ? & ?).
    split_and!; try done; [by eapply same_samples_trans|lia].
Qed.

(** The constructed chain satisfies the invariants. *)
Lemma constructed_inv g train recall items provided beta init_alpha_prime
    n_students n_items n_subsamples ds st :
  (Z.of_nat n_items < 2 ^ 64)%Z ->
  Forall (fun l : list nat => (Z.of_nat (length l) < 2 ^ 64)%Z) items ->
  labels_fit provided n_items ->
  MixtureWCRP g train recall items provided beta init_alpha_prime
    n_students n_items n_subsamples = Ret (ds, st) ->
  dataset_wf ds /\ labels_wf ds /\ chain_inv ds st /\ settled st /\
  train_ll_samples st = [] /\
  (Z.of_nat (tables_ever_instantiated st) < 2 ^ 64)%Z.
Proof.
  intros Hbound Hlens Hlabels_fit Hrun.
  pose proof (labels_fit_max _ _ Hlabels_fit) as Hfit.
  unfold MixtureWCRP in Hrun. inv_ret Hrun.
  subst a2 a4.
  destruct (index_dataset_fields _ _ _ _ _ _ _ _ _ Hfit Ha2)
    as (Hn & Hs & Hr & Hp & He).
  pose proof (index_dataset_wf _ _ _ _ _ _ _ _ _ _ Hbound Hlens Ha2 Ha3) as Hwf.
  destruct (blank_chain_fields ds g a3 beta init_alpha_prime)
    as (Hseat & Hever & Hsamples & Hlabels & Hll).
  destruct (initial_chain_inv ds _ st Hwf (ledger_blank _ _ _ _ _) Hseat Hever)
    as (Hwfl & Hinv & Hfresh & Hsettled & Hsame & Hcount);
    [by rewrite Hp|by rewrite He, Hp|done|].
  split_and!; try done.
  - split_and!; try done.
    eapply same_samples_inv; [exact Hsame|].
    eapply (empty_samples_inv ds recall a3); try done. by rewrite Hs.
  - destruct Hsame as (_ & _ & ->). done.
  - apply assert_ret, negb_true_iff, bool_decide_eq_false in Ha0.
    pose proof (labels_fit_counter _ _ Ha0 Hlabels_fit). lia.
Qed.
End ConstructorChain.

(** ** The sample recorder keeps the invariants *)

Section RecorderInvariant.
Context {G D : Type} `{Double D, Constants D, Random G D}.
Implicit Type st : chain G D.
Implicit Type ds : dataset.

(** The replay of one student adds one prediction to each of their cells
    and leaves the other students' rows as they are. *)
Lemma record_student_lengths ds st s (samples samples' : list (list (list D)))
    (recall_s : list bool) (row0 : list (list D)) (m : nat) :
  recall_sequences ds !! s = Some recall_s ->
  samples !! s = Some row0 ->
  length row0 = length recall_s ->
  (forall t cell, row0 !! t = Some cell -> length cell = m) ->
  record_student ds st s samples = Ret samples' ->
  length samples' = length samples /\
  (forall s', s' ≠ s -> samples' !! s' = samples !! s') /\
  exists row, samples' !! s = Some row /\ length row = length row0 /\
              forall t cell, row !! t = Some cell -> length cell = S m.
Proof.
  intros Hrecall Hrow0 Hlen0 Hcells Hrun. unfold record_student in Hrun.
  inv_ret Hrun. simpl_ret. subst samples'.
  assert (a = recall_s) as -> by congruence.
  pose (P := fun (k : nat) (acc : gmap nat D * list (list (list D))) =>
    length (snd acc) = length samples /\
    (forall s', s' ≠ s -> snd acc !! s' = samples !! s') /\
    exists row, snd acc !! s = Some row /\ length row = length row0 /\
      forall t cell, row !! t = Some cell ->
        length cell = if decide (t < k) then S m else m).
  assert (HP : P (length recall_s) a1).
  { eapply (for_range_inv P _ _ (psi <$> parameters st, samples));
      [| |exact Ha1].
    - unfold P. cbn [fst snd]. split_and!; [done|done|]. exists row0.
      split_and!; [done|done|]. intros t cell Ht.
      destruct (decide (t < 0)); [lia|]. by eapply Hcells.
    - intros k [p0 smp0] [p1 smp1] Hk (Hl & Hother & row & Hrow & Hrl & Hc) Hbody.
      unfold P. simpl in *. unfold record_trial in Hbody. inv_ret Hbody.
      subst p1 smp1. unfold push_prediction in Ha7. inv_ret Ha7.
      simpl_ret. subst a6. assert (a7 = row) as -> by congruence.
      split_and!.
      + by rewrite length_insert.
      + intros s' Hne. rewrite list_lookup_insert_ne by done. by apply Hother.
      + eexists. split_and!.
        * apply list_lookup_insert_eq. by apply lookup_lt_Some in Hrow.
        * by rewrite length_insert.
        * intros t cell Ht. destruct (decide (t = k)) as [->|Hne].
          -- rewrite list_lookup_insert_eq in Ht
               by (by apply lookup_lt_Some in Ha9).
             injection Ht as <-. rewrite length_app. simpl.
             rewrite decide_True by lia.
             specialize (Hc k a8 Ha9). rewrite decide_False in Hc by lia. lia.
          -- rewrite list_lookup_insert_ne in Ht by done.
             specialize (Hc t cell Ht).
             destruct (decide (t < k)), (decide (t < S k)); try lia. }
  destruct HP as (Hl & Hother & row & Hrow & Hrl & Hc).
  split_and!; try done. exists row. split_and!; try done.
  intros t cell Ht. specialize (Hc t cell Ht).
  rewrite decide_True in Hc; [done|].
  apply lookup_lt_Some in Ht. lia.
Qed.

Lemma record_sample_inv ds train_ll st st' :
  samples_inv ds st ->
  record_sample ds train_ll st = Ret st' ->
  samples_inv ds st' /\ same_ledger st st' /\
  train_ll_samples st' = train_ll_samples st ++ [train_ll] /\
  parameters st' = parameters st.
Proof.
  intros [Hrows Hcells Hlabels] Hrun. unfold record_sample in Hrun.
  inv_ret Hrun. subst st'.
  set (m := length (train_ll_samples st)).
  pose (Q := fun (k : nat) (smp : list (list (list D))) =>
    length smp = num_students ds /\
    forall s row, smp !! s = Some row ->
      exists recall_s, recall_sequences ds !! s = Some recall_s /\
        length row = length recall_s /\
        forall t cell, row !! t = Some cell ->
          length cell = if decide (s < k) then S m else m).
  assert (HQ : Q (num_students ds) a0).
  { eapply (for_range_inv Q _ _ (pRT_samples st)); [| |exact Ha0].
    - split; [done|]. intros s row Hrow.
      destruct (Hcells s row Hrow) as (recall_s & ? & ? & Hc).
      exists recall_s; split_and!; try done; intros t cell Ht;
        destruct (decide (s < 0)); try lia; by eapply Hc.
    - intros k smp smp1 Hk [Hl Hq] Hbody. unfold Q.
      assert (is_Some (smp !! k)) as [row0 Hrow0].
      { apply lookup_lt_is_Some. lia. }
      destruct (Hq k row0 Hrow0) as (recall_k & Hrk & Hlk & Hck).
      destruct (record_student_lengths ds _ k smp smp1 recall_k row0 m
                  Hrk Hrow0 Hlk ltac:(
                    intros t cell Ht; specialize (Hck t cell Ht);
                    by rewrite decide_False in Hck by lia) Hbody)
        as (Hl1 & Hother & row & Hrow & Hrl & Hc).
      split; [congruence|]. intros s row' Hrow'.
      destruct (decide (s = k)) as [->|Hne].
      + rewrite Hrow in Hrow'. injection Hrow' as <-.
        exists recall_k. split_and!; try done; [congruence|].
        intros t cell Ht. rewrite decide_True by lia. by eapply Hc.
      + rewrite Hother in Hrow' by done.
        destruct (Hq s row' Hrow') as (recall_s & ? & ? & Hc').
        exists recall_s. split_and!; try done. intros t cell Ht.
        specialize (Hc' t cell Ht).
        destruct (decide (s < k)), (decide (s < S k)); try lia. }
  destruct HQ as [Hl Hq]. split_and!; try done.
  - constructor; simpl; [done| |].
    + intros s row Hrow. destruct (Hq s row Hrow) as (recall_s & ? & ? & Hc).
      exists recall_s. split_and!; try done. intros t cell Ht.
      specialize (Hc t cell Ht). rewrite length_app. simpl.
      rewrite decide_True in Hc; [subst m; lia|].
      apply lookup_lt_Some in Hrow. lia.
    + rewrite !length_app. simpl. lia.
Qed.
End RecorderInvariant.

(** ** Reachable chains *)

Section Reachable.
Context {G D : Type} `{Double D, Constants D, Random G D}.
Implicit Type st : chain G D.
Implicit Type ds : dataset.

Lemma reachable_inv ds st :
  reachable ds st -> dataset_wf ds /\ labels_wf ds /\ chain_inv ds st.
Proof.
  induction 1 as
    [ g train recall items provided beta init n_students n_items n_sub st
        Hbound Hlens Hfit Hrun
    | st item table deleted st' Hreach IH Hitem Hne Hrun
    | st item table st' Hreach IH Hitem Hin Hrun
    | st item st' Hreach IH Hitem Hrun
    | st table params Hreach IH Hin
    | st x Hreach IH | st x Hreach IH | st g Hreach IH | st l Hreach IH
    | st train_ll st' Hreach IH Hrun ].
  - destruct (constructed_inv _ _ _ _ _ _ _ _ _ _ _ _ Hbound Hlens Hfit Hrun)
      as (? & ? & ? & _). done.
  - destruct IH as (Hwf & Hwfl & Hinv & [Hu Hfresh] & Hsamples).
    destruct (remove_step _ _ _ _ _ _ Hwf Hinv Hitem Hne Hrun)
      as (Hinv' & _ & _ & Hdom & _ & _ & Hever & Hsame).
    split_and!; try done. split_and!; try done.
    + split; [by rewrite Hever|]. intros t. rewrite Hdom, Hever.
      intros Ht. apply Hfresh. destruct deleted; set_solver.
    + by eapply same_samples_inv.
  - destruct IH as (Hwf & Hwfl & Hinv & [Hu Hfresh] & Hsamples).
    rewrite (inv_extant _ _ Hinv) in Hin.
    destruct (assign_extant_step _ _ _ _ _ Hwf Hinv Hitem Hin Hrun)
      as (Hinv' & _ & Hdom & _ & Hever & Hsame).
    split_and!; try done. split_and!; try done.
    + split; [by rewrite Hever|]. intros t. rewrite Hdom, Hever. apply Hfresh.
    + by eapply same_samples_inv.
  - destruct IH as (Hwf & Hwfl & Hinv & Hf & Hsamples).
    destruct (fresh_not_dom _ Hf) as [Hnot Hnu]. destruct Hf as [Hu Hfresh].
    destruct (assign_new_step ds
                (set_tables_ever_instantiated
                   (S (tables_ever_instantiated st)) st)
                item (tables_ever_instantiated st) st' Hwf)
      as (Hinv' & _ & Hdom & _ & _ & Hever & Hsame); try done.
    { by apply (ledger_inv_frame ds st). }
    assert (samples_inv ds st') as Hsamples'.
    { eapply same_samples_inv; [exact Hsame|]. by destruct Hsamples. }
    simpl in *. split_and!; try done. split_and!; try done.
    split; [rewrite Hever; lia|]. intros t. rewrite Hdom, Hever.
    intros [->%elem_of_singleton | Ht%Hfresh]%elem_of_union; lia.
  - destruct IH as (Hwf & Hwfl & Hinv & Hf & Hsamples).
    pose proof (set_parameters_same_ledger st table params Hin) as Hsl.
    split_and!; try done. split_and!.
    + by eapply same_ledger_inv.
    + by eapply same_ledger_fresh.
    + by destruct Hsamples.
  - destruct IH as (Hwf & Hwfl & Hinv & Hf & Hsamples).
    split_and!; try done. split_and!; try done.
    + by destruct Hinv.
    + by destruct Hsamples.
  - destruct IH as (Hwf & Hwfl & Hinv & Hf & Hsamples).
    split_and!; try done. split_and!; try done.
    + by destruct Hinv.
    + by destruct Hsamples.
  - destruct IH as (Hwf & Hwfl & Hinv & Hf & Hsamples).
    split_and!; try done. split_and!; try done.
    + by destruct Hinv.
    + by destruct Hsamples.
  - destruct IH as (Hwf & Hwfl & Hinv & Hf & Hsamples).
    split_and!; try done. split_and!; try done.
    + by destruct Hinv.
    + by destruct Hsamples.
  - destruct IH as (Hwf & Hwfl & Hinv & Hf & Hsamples).
    destruct (record_sample_inv _ _ _ _ Hsamples Hrun)
      as (Hsamples' & Hsl & _ & _).
    split_and!; try done. split_and!; try done.
    + by eapply same_ledger_inv.
    + by eapply same_ledger_fresh.
Qed.

(** The trials of a student at a table are in increasing order. *)
Lemma expected_trials_sorted ds seating t s trials :
  expected_trials ds seating t s = Some trials ->
  StronglySorted lt trials /\ trials ≠ [].
Proof.
  unfold expected_trials. case_bool_decide; [|done].
  destruct (item_sequences ds !! s) as [items|]; [|done].
  pose proof (filter_sorted (practises seating items t) _
                (seq_sorted 0 (length items))) as Hsorted.
  destruct (List.filter _ _); [done|]. by intros [= <-].
Qed.

(** C1: in every reachable chain state the active-skill count
    [num_used_skills] is the number of skills of size greater than 0,
    the skill of every item is active or is the sentinel [UNASSIGNED], and
    every (skill, student) list of trial indices in [trial_lookup] is in
    strictly increasing order, hence without duplicates. *)
Theorem C1_reachable_ledger_invariant ds st :
  reachable ds st ->
  num_used_skills st
  = Z.of_nat (size (filter (fun kv => (0 < kv.2)%Z) (table_sizes st))) /\
  (forall item, item < num_items ds ->
     exists table, seating_arrangement st !! item = Some table /\
       (table = UNASSIGNED \/
        (table ∈ extant_tables st /\
         exists n, table_sizes st !! table = Some n /\ (0 < n)%Z))) /\
  (forall table by_student student trials,
     trial_lookup st !! table = Some by_student ->
     by_student !! student = Some trials ->
     StronglySorted lt trials /\ NoDup trials).
Proof.
  intros (Hwf & _ & Hinv & _ & _)%reachable_inv. split_and!.
  - rewrite map_filter_id; [apply (inv_num_used _ _ Hinv)|].
    intros t n Hn. simpl. rewrite (inv_sizes _ _ Hinv t) in Hn.
    case_bool_decide as Hd; [|done]. injection Hn as <-. lia.
  - intros item Hitem.
    assert (is_Some (seating_arrangement st !! item)) as [table Htable].
    { apply lookup_lt_is_Some. by rewrite (inv_seating_len _ _ Hinv). }
    exists table. split; [done|].
    destruct (decide (table = UNASSIGNED)) as [|Hne]; [by left | right].
    assert (0 < seated (seating_arrangement st) table) as Hpos.
    { apply seated_pos, list_elem_of_lookup. eauto. }
    assert (table ∈ dom (table_sizes st)) as Hdom.
    { by apply (ledger_dom_seated _ _ _ Hinv). }
    split; [by rewrite (inv_extant _ _ Hinv)|].
    rewrite (ledger_size_lookup _ _ _ Hinv Hdom). eexists. split; [done|lia].
  - intros table by_student student trials Htable Hstudent.
    rewrite (inv_lookup _ _ Hinv _ _ Htable) in Hstudent.
    apply expected_trials_sorted in Hstudent as [Hsorted _].
    split; [done | by apply sorted_lt_NoDup].
Qed.
End Reachable.

(** The small dataset is constructed, and its chain is reachable. *)
Lemma demo_constructed : demo_run = Ret (demo_dataset, demo_chain).
Proof. vm_compute. reflexivity. Qed.

Lemma demo_reachable :
  @reachable nat Z Z_Double demo_Constants demo_Random
    demo_dataset demo_chain.
Proof.
  eapply reach_constructed; [| | |exact demo_constructed].
  - done.
  - repeat constructor.
  - unfold labels_fit. repeat (constructor; [lia|]). constructor.
Qed.

Lemma C1_reachable_ledger_invariant_witness :
  num_used_skills demo_chain
  = Z.of_nat (size (filter (fun kv => (0 < kv.2)%Z) (table_sizes demo_chain))) /\
  (forall item, item < num_items demo_dataset ->
     exists table, seating_arrangement demo_chain !! item = Some table /\
       (table = UNASSIGNED \/
        (table ∈ extant_tables demo_chain /\
         exists n, table_sizes demo_chain !! table = Some n /\ (0 < n)%Z))) /\
  (forall table by_student student trials,
     trial_lookup demo_chain !! table = Some by_student ->
     by_student !! student = Some trials ->
     StronglySorted lt trials /\ NoDup trials).
Proof.
  apply (@C1_reachable_ledger_invariant nat Z Z_Double demo_Constants
           demo_Random demo_dataset demo_chain).
  exact demo_reachable.
Defined.


(** ** The trial-index structure *)

Section TrialIndex.
Context {G D : Type} `{Double D, Constants D, Random G D}.
Implicit Type st : chain G D.
Implicit Type ds : dataset.

(** The ledger is determined by the seating and the set of tables. *)
Lemma ledger_lookup_unique ds st st' :
  ledger_inv ds st -> ledger_inv ds st' ->
  seating_arrangement st' = seating_arrangement st ->
  dom (table_sizes st') = dom (table_sizes st) ->
  trial_lookup st' = trial_lookup st.
Proof.
  intros Hinv Hinv' Hseat Hdom. apply map_eq. intros t.
  destruct (trial_lookup st !! t) as [m|] eqn:Hm,
           (trial_lookup st' !! t) as [m'|] eqn:Hm'; try done.
  - f_equal. apply map_eq. intros s.
    rewrite (inv_lookup _ _ Hinv _ _ Hm s), (inv_lookup _ _ Hinv' _ _ Hm' s).
    by rewrite Hseat.
  - apply not_elem_of_dom in Hm'.
    rewrite (inv_lookup_dom _ _ Hinv'), Hdom, <- (inv_lookup_dom _ _ Hinv) in Hm'.
    exfalso. apply Hm'. apply elem_of_dom. eauto.
  - apply not_elem_of_dom in Hm.
    rewrite (inv_lookup_dom _ _ Hinv), <- Hdom, <- (inv_lookup_dom _ _ Hinv') in Hm.
    exfalso. apply Hm. apply elem_of_dom. eauto.
Qed.

(** C10: in every reachable chain state, [trial_lookup] has an entry for a
    (skill, student) pair if and only if the student is a training student
    with at least one trial on an item currently assigned to the skill, and
    every entry is a non-empty list. *)
Theorem C10_trial_lookup_entries ds st table student :
  reachable ds st ->
  ((exists by_student trials,
       trial_lookup st !! table = Some by_student /\
       by_student !! student = Some trials)
   <-> (is_train ds student /\ table ≠ UNASSIGNED /\
        exists items trial item,
          item_sequences ds !! student = Some items /\
          items !! trial = Some item /\
          seating_arrangement st !! item = Some table)) /\
  (forall by_student trials,
      trial_lookup st !! table = Some by_student ->
      by_student !! student = Some trials -> trials ≠ []).
Proof.
  intros (Hwf & _ & Hinv & _ & _)%reachable_inv. split.
  - split.
    + intros (by_student & trials & Htable & Hstudent).
      rewrite (inv_lookup _ _ Hinv _ _ Htable) in Hstudent.
      assert (table ∈ dom (table_sizes st)) as Hdom.
      { rewrite <- (inv_lookup_dom _ _ Hinv). apply elem_of_dom. eauto. }
      apply (ledger_dom_seated _ _ _ Hinv) in Hdom as [Hne _].
      unfold expected_trials in Hstudent.
      case_bool_decide as Htrain; [|done].
      destruct (item_sequences ds !! student) as [items|] eqn:Hitems; [|done].
      destruct (List.filter _ _) as [|trial q] eqn:Hq; [done|].
      assert (In trial (trial :: q)) as Hin by by left.
      rewrite <- Hq in Hin. apply filter_In in Hin as [_ Hp].
      apply practises_true in Hp as (item & Htrial & Hseat).
      split_and!; try done. by exists items, trial, item.
    + intros (Htrain & Hne & items & trial & item & Hitems & Htrial & Hseat).
      assert (table ∈ dom (trial_lookup st)) as [by_student Htable]%elem_of_dom.
      { rewrite (inv_lookup_dom _ _ Hinv).
        apply (ledger_dom_seated _ _ _ Hinv). split; [done|].
        apply seated_pos, list_elem_of_lookup. eauto. }
      exists by_student.
      rewrite (inv_lookup _ _ Hinv _ _ Htable student).
      unfold expected_trials. rewrite bool_decide_eq_true_2 by done.
      rewrite Hitems.
      destruct (List.filter _ _) as [|x q] eqn:Hq; [|by eauto].
      assert (In trial (List.filter
                          (practises (seating_arrangement st) items table)
                          (seq 0 (length items)))) as Hin.
      { apply filter_In. split.
        - apply in_seq. apply lookup_lt_Some in Htrial. lia.
        - apply practises_true. eauto. }
      rewrite Hq in Hin. done.
  - intros by_student trials Htable Hstudent.
    rewrite (inv_lookup _ _ Hinv _ _ Htable) in Hstudent.
    by apply expected_trials_sorted in Hstudent as [_ ?].
Qed.

(** C4: removing an item from its skill and assigning it to the same skill
    again (as a new table if and only if the removal deleted the table)
    succeeds and reproduces the trial-index structure, the seating and the
    table sizes exactly, for every item of every reachable chain state. *)
Theorem C4_remove_assign_round_trip ds st item table deleted st1 :
  reachable ds st ->
  seating_arrangement st !! item = Some table ->
  table ≠ UNASSIGNED ->
  remove_item_from_table ds item table st = Ret (deleted, st1) ->
  exists st2,
    assign_item_to_table ds item table deleted st1 = Ret st2 /\
    trial_lookup st2 = trial_lookup st /\
    seating_arrangement st2 = seating_arrangement st /\
    table_sizes st2 = table_sizes st.
Proof.
  intros (Hwf & _ & Hinv & _ & _)%reachable_inv Hitem Hne Hrun.
  pose proof (lookup_lt_Some _ _ _ Hitem) as Hlt.
  destruct (remove_step _ _ _ _ _ _ Hwf Hinv Hitem Hne Hrun)
    as (Hinv1 & Hseat1 & Hdel & Hdom1 & _ & _ & _ & _).
  assert (Hitem1 : seating_arrangement st1 !! item = Some UNASSIGNED).
  { rewrite Hseat1. by apply list_lookup_insert_eq. }
  assert (Hin : table ∈ dom (table_sizes st)).
  { apply (ledger_dom_seated _ _ _ Hinv). split; [done|].
    apply seated_pos, list_elem_of_lookup. eauto. }
  assert (Hback : <[item := table]> (seating_arrangement st1)
                  = seating_arrangement st).
  { rewrite Hseat1, list_insert_insert_eq. by apply list_insert_id. }
  assert (Hsizes : forall st2, ledger_inv ds st2 ->
            seating_arrangement st2 = seating_arrangement st ->
            table_sizes st2 = table_sizes st).
  { intros st2 Hinv2 Hseat2. apply map_eq. intros t.
    by rewrite (inv_sizes _ _ Hinv2 t), (inv_sizes _ _ Hinv t), Hseat2. }
  destruct deleted.
  - destruct (assign_new_ok ds st1 item table Hwf Hinv1 Hitem1)
      as (inner & Hrun2 & Hinv2); [rewrite Hdom1; set_solver | done |].
    eexists. split; [exact Hrun2|]. simpl in *.
    assert (Hts : <[table := 1%Z]> (table_sizes st1) = table_sizes st).
    { apply (Hsizes _ Hinv2). simpl. exact Hback. }
    split_and!; try done.
    apply (ledger_lookup_unique ds st _ Hinv Hinv2); simpl; [done|].
    by rewrite Hts.
  - destruct (assign_extant_ok ds st1 item table Hwf Hinv1 Hitem1)
      as (tl & Hrun2 & Hinv2); [by rewrite Hdom1|].
    eexists. split; [exact Hrun2|]. simpl in *.
    assert (Hts : <[table := (Z.of_nat (seated (seating_arrangement st1) table)
                              + 1)%Z]> (table_sizes st1) = table_sizes st).
    { apply (Hsizes _ Hinv2). simpl. exact Hback. }
    split_and!; try done.
    apply (ledger_lookup_unique ds st _ Hinv Hinv2); simpl; [done|].
    by rewrite Hts.
Qed.
End TrialIndex.

Section DemoWitnesses.
#[local] Existing Instance Z_Double.
#[local] Existing Instance demo_Constants.
#[local] Existing Instance demo_Random.

Lemma C10_trial_lookup_entries_witness :
  ((exists by_student trials,
       trial_lookup demo_chain !! 1 = Some by_student /\
       by_student !! 0 = Some trials)
   <-> (is_train demo_dataset 0 /\ 1 ≠ UNASSIGNED /\
        exists items trial item,
          item_sequences demo_dataset !! 0 = Some items /\
          items !! trial = Some item /\
          seating_arrangement demo_chain !! item = Some 1)) /\
  (forall by_student trials,
      trial_lookup demo_chain !! 1 = Some by_student ->
      by_student !! 0 = Some trials -> trials ≠ []).
Proof.
  apply (C10_trial_lookup_entries demo_dataset demo_chain 1 0).
  exact demo_reachable.
Defined.

Lemma C4_remove_assign_round_trip_witness :
  exists st2,
    assign_item_to_table demo_dataset 0 1 false
      (match remove_item_from_table demo_dataset 0 1 demo_chain with
       | Ret (_, st1) => st1
       | Fail _ => demo_chain
       end) = Ret st2 /\
    trial_lookup st2 = trial_lookup demo_chain /\
    seating_arrangement st2 = seating_arrangement demo_chain /\
    table_sizes st2 = table_sizes demo_chain.
Proof.
  apply (C4_remove_assign_round_trip demo_dataset demo_chain).
  - exact demo_reachable.
  - vm_compute. reflexivity.
  - unfold UNASSIGNED. lia.
  - vm_compute. reflexivity.
Defined.
End DemoWitnesses.

(** ** The relabelling of the partition *)

Section Relabel.
Context {G D : Type} `{Double D, Constants D, Random G D}.
Implicit Type st : chain G D.
Implicit Type ds : dataset.

(** What the relabelling loop has built after [k] items: the labels are a
    bijection between the tables seen and the numbers below their count. *)
Record relabelled (seating : list nat) (n k : nat)
    (skill_labels : gmap nat nat) (cur : list nat) : Prop := {
  rl_length : length cur = n;
  rl_dom : dom skill_labels = list_to_set (take k seating);
  rl_below : forall t l, skill_labels !! t = Some l -> l < size skill_labels;
  rl_inj : forall t1 t2 l,
      skill_labels !! t1 = Some l -> skill_labels !! t2 = Some l -> t1 = t2;
  rl_surj : forall l, l < size skill_labels -> exists t, skill_labels !! t = Some l;
  rl_items : forall i, i < k ->
      exists t l, seating !! i = Some t /\ skill_labels !! t = Some l /\
                  cur !! i = Some l;
}.

Lemma relabel_loop ds st (skill_labels : gmap nat nat) (cur : list nat) :
  for_range (num_items ds) (relabel_item st)
    (∅, replicate (num_items ds) 0) = Ret (skill_labels, cur) ->
  relabelled (seating_arrangement st) (num_items ds) (num_items ds)
    skill_labels cur.
Proof.
  intros Hrun.
  pose (P := fun (k : nat) (acc : gmap nat nat * list nat) =>
    relabelled (seating_arrangement st) (num_items ds) k (fst acc) (snd acc)).
  assert (HP : P (num_items ds) (skill_labels, cur)); [|exact HP].
  eapply (for_range_inv P _ _ (∅, replicate (num_items ds) 0));
    [| |exact Hrun].
  - constructor; simpl.
    + by rewrite length_replicate.
    + apply dom_empty_L.
    + intros t l. by rewrite lookup_empty.
    + intros t1 t2 l. by rewrite lookup_empty.
    + intros l. rewrite map_size_empty. lia.
    + intros i. lia.
  - intros k [sl c0] [sl1 c1] Hk [Hlen Hdom Hbelow Hinj Hsurj Hitems] Hbody.
    unfold P in *. simpl in *. unfold relabel_item in Hbody.
    inv_ret Hbody. simpl_ret. subst sl1 c1.
    rename a into t, a0 into label.
    assert (Htake : take (S k) (seating_arrangement st)
                    = take k (seating_arrangement st) ++ [t]).
    { by apply take_S_r. }
    destruct (sl !! t) as [l0|] eqn:Hsl.
    + assert (label = l0) as -> by congruence. subst a1.
      constructor; simpl; try done.
      * by rewrite length_insert.
      * rewrite Htake, list_to_set_app_L, <- Hdom. simpl.
        assert (t ∈ dom sl) by (apply elem_of_dom; eauto). set_solver.
      * intros i Hi. destruct (decide (i = k)) as [->|Hne].
        -- exists t, l0. split_and!; try done.
           apply list_lookup_insert_eq. lia.
        -- destruct (Hitems i) as (ti & li & ? & ? & ?); [lia|].
           exists ti, li. split_and!; try done.
           by rewrite list_lookup_insert_ne.
    + rewrite lookup_insert_eq in Ha0. injection Ha0 as <-. subst a1.
      assert (Hsize : size (<[t := size sl]> sl) = S (size sl))
        by by apply map_size_insert_None.
      constructor; simpl.
      * by rewrite length_insert.
      * rewrite Htake, list_to_set_app_L, <- Hdom, dom_insert_L. simpl.
        set_solver.
      * intros t' l. rewrite Hsize. destruct (decide (t' = t)) as [->|Hne].
        -- rewrite lookup_insert_eq. intros [= <-]. lia.
        -- rewrite lookup_insert_ne by done. intros Hl%Hbelow. lia.
      * intros t1 t2 l.
        destruct (decide (t1 = t)) as [->|Hne1], (decide (t2 = t)) as [->|Hne2];
          rewrite ?lookup_insert_eq, ?lookup_insert_ne by done; try done.
        -- intros [= <-] Hl%Hbelow. lia.
        -- intros Hl%Hbelow [= <-]. lia.
        -- apply Hinj.
      * intros l. rewrite Hsize. intros Hl.
        destruct (decide (l = size sl)) as [->|Hne].
        -- exists t. by rewrite lookup_insert_eq.
        -- destruct (Hsurj l) as [t' Ht']; [lia|]. exists t'.
           rewrite lookup_insert_ne; [done|]. congruence.
      * intros i Hi. destruct (decide (i = k)) as [->|Hne].
        -- exists t, (size sl). rewrite lookup_insert_eq. split_and!; try done.
           apply list_lookup_insert_eq. lia.
        -- destruct (Hitems i) as (ti & li & ? & ? & ?); [lia|].
           exists ti, li. rewrite lookup_insert_ne by congruence.
           split_and!; try done. by rewrite list_lookup_insert_ne.
Qed.

(** C9: the partition vector stored by [record_sample] uses the ids
    0, ..., k-1, where k is the number of distinct skills of the seating
    arrangement, and two items get the same id if and only if they are
    assigned to the same skill. *)
Theorem C9_recorded_labels_dense ds train_ll st st' :
  length (seating_arrangement st) = num_items ds ->
  record_sample ds train_ll st = Ret st' ->
  exists labels,
    skill_label_samples st' = skill_label_samples st ++ [labels] /\
    length labels = num_items ds /\
    (forall id, id ∈ labels
                <-> id < size (list_to_set (seating_arrangement st) : gset nat)) /\
    (forall i j ti tj li lj,
        seating_arrangement st !! i = Some ti ->
        seating_arrangement st !! j = Some tj ->
        labels !! i = Some li -> labels !! j = Some lj ->
        (li = lj <-> ti = tj)).
Proof.
  intros Hlen Hrun. unfold record_sample in Hrun. inv_ret Hrun. subst st'.
  unfold relabel in Ha. inv_ret Ha. subst a. destruct a1 as [sl labels].
  apply relabel_loop in Ha1 as [Hl Hdom Hbelow Hinj Hsurj Hitems].
  simpl in *. rewrite <- Hlen, firstn_all in Hdom.
  exists labels. split_and!; try done.
  - intros id. rewrite <- Hdom, size_dom. split.
    + intros (i & Hi)%list_elem_of_lookup.
      destruct (Hitems i) as (t & l & _ & Ht & Hc).
      { apply lookup_lt_Some in Hi. lia. }
      assert (l = id) as -> by congruence. by eapply Hbelow.
    + intros (t & Ht)%Hsurj.
      assert (t ∈ dom sl) as Hin by (apply elem_of_dom; eauto).
      rewrite Hdom in Hin.
      apply elem_of_list_to_set, list_elem_of_lookup in Hin as [i Hi].
      destruct (Hitems i) as (t' & l & Hs & Ht' & Hc).
      { apply lookup_lt_Some in Hi. lia. }
      apply list_elem_of_lookup. exists i. congruence.
  - intros i j ti tj li lj Hi Hj Hli Hlj.
    destruct (Hitems i) as (ti' & li' & ? & ? & ?).
    { apply lookup_lt_Some in Hi. lia. }
    destruct (Hitems j) as (tj' & lj' & ? & ? & ?).
    { apply lookup_lt_Some in Hj. lia. }
    assert (ti' = ti) as -> by congruence.
    assert (tj' = tj) as -> by congruence.
    assert (li' = li) as -> by congruence.
    assert (lj' = lj) as -> by congruence.
    split.
    + intros ->. by eapply Hinj.
    + intros ->. congruence.
Qed.
End Relabel.

Lemma C9_recorded_labels_dense_witness :
  exists labels,
    skill_label_samples demo_recorded
    = skill_label_samples demo_chain ++ [labels] /\
    length labels = num_items demo_dataset /\
    (forall id, id ∈ labels
                <-> id < size (list_to_set (seating_arrangement demo_chain)
                               : gset nat)) /\
    (forall i j ti tj li lj,
        seating_arrangement demo_chain !! i = Some ti ->
        seating_arrangement demo_chain !! j = Some tj ->
        labels !! i = Some li -> labels !! j = Some lj ->
        (li = lj <-> ti = tj)).
Proof.
  apply (@C9_recorded_labels_dense nat Z Z_Double demo_dataset 0%Z demo_chain
           demo_recorded).
  - vm_compute. reflexivity.
  - vm_compute. reflexivity.
Defined.

(** ** The driver *)

(** C5, on the code: in an iteration of [run_mcmc] with expert labels used
    directly, the slice update of [log_gamma] still runs when [infer_gamma]
    is set (its guard is [infer_gamma] alone); the update of
    [log_alpha_prime] and the partition resweep do not run. *)
Theorem C5_gamma_update_under_expert_labels (iter burn : nat)
    (infer_alpha_prime : bool) :
  (SliceLogGamma ∈ run_mcmc_iteration true iter burn true infer_alpha_prime) /\
  (SliceLogAlphaPrime
     ∉ run_mcmc_iteration true iter burn true infer_alpha_prime) /\
  (ResweepPartition ∉ run_mcmc_iteration true iter burn true infer_alpha_prime).
Proof.
  unfold run_mcmc_iteration. simpl.
  split_and!.
  - apply list_elem_of_In. simpl. auto.
  - intros Hin%list_elem_of_In. simpl in Hin.
    destruct (burn <=? iter); simpl in Hin; intuition discriminate.
  - intros Hin%list_elem_of_In. simpl in Hin.
    destruct (burn <=? iter); simpl in Hin; intuition discriminate.
Qed.

(** With data-driven clustering the guards are as the toggles say. *)
Lemma run_mcmc_iteration_guards (use_expert : bool) (iter burn : nat)
    (infer_gamma infer_alpha_prime : bool) :
  (SliceLogAlphaPrime
     ∈ run_mcmc_iteration use_expert iter burn infer_gamma infer_alpha_prime
   <-> use_expert = false /\ infer_alpha_prime = true) /\
  (SliceLogGamma
     ∈ run_mcmc_iteration use_expert iter burn infer_gamma infer_alpha_prime
   <-> infer_gamma = true) /\
  (ResweepPartition
     ∈ run_mcmc_iteration use_expert iter burn infer_gamma infer_alpha_prime
   <-> use_expert = false).
Proof.
  unfold run_mcmc_iteration. rewrite !list_elem_of_In.
  destruct use_expert, infer_gamma, infer_alpha_prime, (burn <=? iter);
    simpl; intuition discriminate.
Qed.

(** ** The sign and the finiteness of the log-likelihood *)

Lemma for_range_fail {St} (body : nat -> St -> outcome St) (n k : nat)
    (s0 acc : St) (f : failure) :
  k < n ->
  for_range k body s0 = Ret acc ->
  body k acc = Fail f ->
  for_range n body s0 = Fail f.
Proof.
  intros Hk Hpre Hbody. unfold for_range in *.
  replace n with (k + S (n - S k)) by lia.
  rewrite seq_app, for_each_app, Hpre. simpl. by rewrite Hbody.
Qed.

Section LogLikelihoodSign.
Context {G D : Type} `{Double D, Constants D, Random G D}.
Implicit Type st : chain G D.
Implicit Type ds : dataset.

Hypothesis leb_zero : (0 <=? 0)%D = true.
Hypothesis ltb_leb_zero : forall x : D, (x <? 0)%D = true -> (x <=? 0)%D = true.
Hypothesis finite_zero : d_isfinite 0%D = true.

(** C6: a log-likelihood returned by either version of
    [skill_log_likelihood] is at most 0 and finite; what a student adds to
    the sum is clamped to 0 when it exceeds 0; and a non-finite
    log-likelihood of a student, or a non-finite sum, makes the function
    stop on a failed assertion. *)
Theorem C6_log_likelihood_nonpositive ds st table
    (affected_students first_exposures : list nat)
    (init_p_hat : list (gmap nat D)) :
  (forall r,
      skill_log_likelihood ds table affected_students first_exposures st
      = Ret r
      \/ skill_log_likelihood_cached ds table affected_students
           first_exposures init_p_hat st = Ret r ->
      (r <=? 0)%D = true /\ d_isfinite r = true) /\
  (forall x : D, (0 <? x)%D = true -> clamp_nonpositive x = 0%D) /\
  (forall params k acc acc',
      scratch_student ds st table params affected_students first_exposures
        k acc = Ret acc' ->
      exists x, d_isfinite x = true /\ acc' = (acc + clamp_nonpositive x)%D) /\
  (forall params k acc acc',
      cached_student ds st table params affected_students first_exposures
        init_p_hat k acc = Ret acc' ->
      acc' = acc \/
      exists x, d_isfinite x = true /\ acc' = (acc + clamp_nonpositive x)%D) /\
  (forall params k acc student start x,
      parameters st !! table = Some params ->
      k < length affected_students ->
      for_range k
        (scratch_student ds st table params affected_students first_exposures)
        0%D = Ret acc ->
      affected_students !! k = Some student ->
      first_exposures !! k = Some start ->
      scratch_student_log_lik ds st table params student start = Ret x ->
      d_isfinite x = false ->
      skill_log_likelihood ds table affected_students first_exposures st
      = Fail AssertionFailed) /\
  (forall params total,
      parameters st !! table = Some params ->
      for_range (length affected_students)
        (scratch_student ds st table params affected_students first_exposures)
        0%D = Ret total ->
      d_isfinite total = false ->
      skill_log_likelihood ds table affected_students first_exposures st
      = Fail AssertionFailed) /\
  (forall params n k acc student by_student trials x,
      table_sizes st !! table = Some n -> n ≠ 0%Z ->
      parameters st !! table = Some params ->
      k < length affected_students ->
      for_range k
        (cached_student ds st table params affected_students first_exposures
           init_p_hat) 0%D = Ret acc ->
      affected_students !! k = Some student ->
      trial_lookup st !! table = Some by_student ->
      by_student !! student = Some trials ->
      cached_student_log_lik ds table params trials first_exposures init_p_hat
        k student = Ret x ->
      d_isfinite x = false ->
      skill_log_likelihood_cached ds table affected_students first_exposures
        init_p_hat st = Fail AssertionFailed) /\
  (forall params n total,
      table_sizes st !! table = Some n -> n ≠ 0%Z ->
      parameters st !! table = Some params ->
      for_range (length affected_students)
        (cached_student ds st table params affected_students first_exposures
           init_p_hat) 0%D = Ret total ->
      d_isfinite total = false ->
      skill_log_likelihood_cached ds table affected_students first_exposures
        init_p_hat st = Fail AssertionFailed).
Proof using leb_zero ltb_leb_zero finite_zero.
  assert (Hcached_live : forall n, table_sizes st !! table = Some n -> n ≠ 0%Z ->
    bool_decide (table_sizes st !! table = None)
    || bool_decide (table_sizes st !! table = Some 0%Z) = false).
  { intros n Hn Hne. rewrite Hn.
    rewrite !bool_decide_eq_false_2; [done| |done]. intros [= ->]. done. }
  split_and!.
  - intros r [Hrun|Hrun].
    + unfold skill_log_likelihood in Hrun. inv_ret Hrun. simpl_ret. subst r.
      unfold d_min. destruct (a0 <? 0)%D eqn:Hlt.
      * split; [by apply ltb_leb_zero | done].
      * done.
    + unfold skill_log_likelihood_cached in Hrun.
      destruct (_ || _); [by injection Hrun as <-|].
      inv_ret Hrun. simpl_ret. by subst r.
  - intros x Hx. unfold clamp_nonpositive. by rewrite Hx.
  - intros params k acc acc' Hbody. unfold scratch_student in Hbody.
    inv_ret Hbody. simpl_ret. eauto.
  - intros params k acc acc' Hbody. unfold cached_student in Hbody.
    inv_ret Hbody. destruct (a0 !! a); [|left; by injection Hbody].
    inv_ret Hbody. simpl_ret. right. eauto.
  - intros params k acc student start x Hparams Hk Hpre Hs Hstart Hx Hfin.
    unfold skill_log_likelihood, map_at. rewrite Hparams. simpl.
    erewrite for_range_fail; [done|exact Hk|exact Hpre|].
    unfold scratch_student, vec_at. rewrite Hs, Hstart. simpl.
    rewrite Hx. simpl. by rewrite Hfin.
  - intros params total Hparams Hrun Hfin.
    unfold skill_log_likelihood, map_at. rewrite Hparams. simpl.
    rewrite Hrun. simpl. by rewrite Hfin.
  - intros params n k acc student by_student trials x Hn Hne Hparams Hk Hpre
      Hs Htl Htrials Hx Hfin.
    unfold skill_log_likelihood_cached. rewrite (Hcached_live n Hn Hne).
    unfold map_at at 1. rewrite Hparams. simpl.
    erewrite for_range_fail; [done|exact Hk|exact Hpre|].
    unfold cached_student, vec_at, map_at. rewrite Hs, Htl. simpl.
    rewrite Htrials, Hx. simpl. by rewrite Hfin.
  - intros params n total Hn Hne Hparams Hrun Hfin.
    unfold skill_log_likelihood_cached. rewrite (Hcached_live n Hn Hne).
    unfold map_at at 1. rewrite Hparams. simpl.
    rewrite Hrun. simpl. by rewrite Hfin.
Qed.
End LogLikelihoodSign.

Section LogLikelihoodWitness.
#[local] Existing Instance Z_Double.
#[local] Existing Instance demo_Constants.
#[local] Existing Instance demo_Random.

Lemma C6_log_likelihood_nonpositive_witness :
  exists r : Z,
    skill_log_likelihood (G := nat) demo_dataset 1 [0; 1] [0; 0] demo_chain
    = Ret r /\
    (r <=? 0)%D = true /\ d_isfinite r = true.
Proof.
  exists 0%Z. split; [vm_compute; reflexivity|].
  assert (Hlt : forall x : Z, (x <? 0)%D = true -> (x <=? 0)%D = true).
  { intros x Hx. apply Z.leb_le. apply Z.ltb_lt in Hx. lia. }
  apply (proj1 (@C6_log_likelihood_nonpositive nat Z Z_Double demo_Constants
                  eq_refl Hlt eq_refl
                  demo_dataset demo_chain 1 [0; 1] [0; 0] [])).
  left. vm_compute. reflexivity.
Defined.
End LogLikelihoodWitness.

(** ** The queries *)

Lemma for_range_S {St} (body : nat -> St -> outcome St) (n : nat) (s : St) :
  for_range (S n) body s = (s' <- for_range n body s ;; body n s').
Proof.
  unfold for_range. rewrite seq_S, for_each_app. simpl.
  destruct (for_each (seq 0 n) body s); simpl; [|done].
  by destruct (body n a).
Qed.

Lemma Z_DoubleOrder : @DoubleOrder Z Z_Double.
Proof.
  constructor; unfold d_ltb, d_leb, d_add, d_of_Z, d_isfinite, Z_Double.
  - done.
  - intros x _ Hx. apply Z.leb_le. apply Z.ltb_ge in Hx. done.
  - intros a b Ha%Z.leb_le Hb%Z.leb_le. apply Z.leb_le. lia.
  - intros x Hx%Z.leb_le Hx'%Z.ltb_ge. lia.
  - intros x. apply Z.ltb_irrefl.
  - intros a b c Hab%Z.ltb_lt Hac%Z.ltb_ge. apply Z.ltb_ge. lia.
Qed.

Lemma R_DoubleOrder : @DoubleOrder R R_Double.
Proof.
  constructor; unfold d_ltb, d_leb, d_add, d_of_Z, d_isfinite, R_Double.
  - apply bool_decide_eq_true_2. lra.
  - intros x _ Hx%bool_decide_eq_false. apply bool_decide_eq_true_2. lra.
  - intros a b Ha%bool_decide_eq_true Hb%bool_decide_eq_true.
    apply bool_decide_eq_true_2. lra.
  - intros x Hx%bool_decide_eq_true Hx'%bool_decide_eq_false. lra.
  - intros x. apply bool_decide_eq_false_2. lra.
  - intros a b c Hab%bool_decide_eq_true Hac%bool_decide_eq_false.
    apply bool_decide_eq_false_2. lra.
Qed.

(** ** What the sample recorder stores *)

(** The earlier trials of a skill, one trial further. *)
Lemma practised_trials_S (seating items : list nat) (table k : nat) :
  List.filter (practises seating items table) (seq 0 (S k))
  = List.filter (practises seating items table) (seq 0 k)
    ++ (if practises seating items table k then [k] else []).
Proof.
  rewrite seq_S, List.filter_app. simpl.
  by destruct (practises seating items table k).
Qed.

Section RecorderCells.
Context {G D : Type} `{Double D, Constants D, Random G D}.
Implicit Type st : chain G D.
Implicit Type ds : dataset.

(** The replay of one student appends to each of their cells the
    prediction for its trial, and leaves the other students' rows as they
    are. *)
Lemma record_student_cells ds st s (samples samples' : list (list (list D)))
    (recall_s : list bool) (row0 : list (list D)) :
  recall_sequences ds !! s = Some recall_s ->
  samples !! s = Some row0 ->
  record_student ds st s samples = Ret samples' ->
  length samples' = length samples /\
  (forall s', s' ≠ s -> samples' !! s' = samples !! s') /\
  exists row, samples' !! s = Some row /\ length row = length row0 /\
    forall t cell', row !! t = Some cell' ->
      if decide (t < length recall_s)
      then exists cell p, row0 !! t = Some cell /\
             predicted_recall ds st s t = Some p /\ cell' = cell ++ [p]
      else row0 !! t = Some cell'.
Proof.
  intros Hrecall Hrow0 Hrun. unfold record_student in Hrun.
  inv_ret Hrun. simpl_ret. subst samples'.
  assert (a = recall_s) as -> by congruence.
  rename a0 into items_s.
  pose (P := fun (k : nat) (acc : gmap nat D * list (list (list D))) =>
    length (snd acc) = length samples /\
    (forall s', s' ≠ s -> snd acc !! s' = samples !! s') /\
    (forall table,
        fst acc !! table
        = (fun params =>
             belief_before params recall_s
               (List.filter
                  (practises (seating_arrangement st) items_s table)
                  (seq 0 k))) <$> parameters st !! table) /\
    exists row, snd acc !! s = Some row /\ length row = length row0 /\
      forall t cell', row !! t = Some cell' ->
        if decide (t < k)
        then exists cell p, row0 !! t = Some cell /\
               predicted_recall ds st s t = Some p /\ cell' = cell ++ [p]
        else row0 !! t = Some cell').
  assert (HP : P (length recall_s) a1).
  { eapply (for_range_inv P _ _ (psi <$> parameters st, samples));
      [| |exact Ha1].
    - unfold P. cbn [fst snd]. split_and!; [done|done| |].
      + intros table. rewrite lookup_fmap.
        by destruct (parameters st !! table).
      + exists row0. split_and!; [done|done|]. intros t cell' Ht.
        destruct (decide (t < 0)); [lia|done].
    - intros k [p0 smp0] [p1 smp1] Hk
        (Hl & Hother & Hbelief & row & Hrow & Hrl & Hc) Hbody.
      unfold P. cbn [fst snd] in *. unfold record_trial in Hbody.
      inv_ret Hbody. subst p1 smp1. unfold push_prediction in Ha7.
      inv_ret Ha7. simpl_ret.
      subst a5. assert (a6 = row) as -> by congruence.
      rename a into did_recall, a0 into item, a2 into table_id,
        a3 into params, a4 into cur_p_hat, a7 into cell_k.
      assert (Hcur : cur_p_hat
                     = belief_before params recall_s
                         (List.filter
                            (practises (seating_arrangement st) items_s
                               table_id) (seq 0 k))).
      { specialize (Hbelief table_id). rewrite Ha6, Ha5 in Hbelief.
        by injection Hbelief. }
      assert (Hpred : predicted_recall ds st s k
                      = Some (predict_correct (pi1 params * prop0 params)%D
                                (pi1 params) cur_p_hat)).
      { unfold predicted_recall. rewrite Hrecall, Ha0. cbn [mbind option_bind].
        rewrite Ha3. cbn [mbind option_bind]. rewrite Ha4.
        cbn [mbind option_bind]. rewrite Ha5. cbn [mbind option_bind].
        by rewrite Hcur. }
      assert (Hpractises : forall table,
                 practises (seating_arrangement st) items_s table k
                 = bool_decide (table = table_id)).
      { intros table. unfold practises. rewrite Ha3. cbn [mbind option_bind].
        rewrite Ha4. apply bool_decide_ext. split; [by intros [= ->]|].
        by intros ->. }
      split_and!.
      + by rewrite length_insert.
      + intros s' Hne. rewrite list_lookup_insert_ne by done. by apply Hother.
      + intros table. rewrite practised_trials_S, Hpractises.
        destruct (decide (table = table_id)) as [->|Hne].
        * rewrite lookup_insert_eq, Ha5, bool_decide_eq_true_2 by done.
          cbn [fmap option_fmap option_map]. f_equal.
          unfold belief_before at 1. rewrite foldl_app. cbn [foldl].
          rewrite Ha2. by rewrite Hcur.
        * rewrite lookup_insert_ne by done.
          rewrite bool_decide_eq_false_2 by done.
          rewrite app_nil_r. apply Hbelief.
      + eexists. split_and!.
        * apply list_lookup_insert_eq. by apply lookup_lt_Some in Hrow.
        * by rewrite length_insert.
        * intros t cell' Ht. destruct (decide (t = k)) as [->|Hne].
          -- rewrite list_lookup_insert_eq in Ht
               by (by apply lookup_lt_Some in Ha9).
             injection Ht as <-. rewrite decide_True by lia.
             specialize (Hc k cell_k Ha9). rewrite decide_False in Hc by lia.
             eauto.
          -- rewrite list_lookup_insert_ne in Ht by done.
             specialize (Hc t cell' Ht).
             destruct (decide (t < k)), (decide (t < S k)); try lia; done. }
  destruct HP as (Hl & Hother & _ & row & Hrow & Hrl & Hc).
  split_and!; try done. exists row. by split_and!.
Qed.

(** [record_sample] appends to every cell the prediction for its trial
    under the chain state it is called in. *)
Lemma record_sample_cells ds train_ll st st' student trial row' cell' :
  samples_inv ds st ->
  record_sample ds train_ll st = Ret st' ->
  pRT_samples st' !! student = Some row' ->
  row' !! trial = Some cell' ->
  exists row cell p,
    pRT_samples st !! student = Some row /\ row !! trial = Some cell /\
    predicted_recall ds st student trial = Some p /\ cell' = cell ++ [p].
Proof.
  intros [Hrows Hcells _] Hrun Hrow' Hcell'. unfold record_sample in Hrun.
  inv_ret Hrun. subst st'. cbn [pRT_samples set_pRT_samples] in Hrow'.
  set (st2 := set_skill_label_samples _ _) in Ha0.
  change (pRT_samples st2) with (pRT_samples st) in Ha0.
  pose (Q := fun (k : nat) (smp : list (list (list D))) =>
    length smp = num_students ds /\
    (forall s, k <= s -> smp !! s = pRT_samples st !! s) /\
    (forall s rowk t cellk, s < k ->
       smp !! s = Some rowk -> rowk !! t = Some cellk ->
       exists row cell p,
         pRT_samples st !! s = Some row /\ row !! t = Some cell /\
         predicted_recall ds st s t = Some p /\ cellk = cell ++ [p])).
  assert (HQ : Q (num_students ds) a0).
  { eapply (for_range_inv Q _ _ (pRT_samples st)); [| |exact Ha0].
    - split_and!; [done|done|]. intros s rowk t cellk Hs. lia.
    - intros k smp smp1 Hk (Hl & Hrest & Hdone) Hbody. unfold Q.
      assert (is_Some (pRT_samples st !! k)) as [row0 Hrow0].
      { apply lookup_lt_is_Some. lia. }
      destruct (Hcells k row0 Hrow0) as (recall_k & Hrk & Hlk & _).
      assert (Hsmp : smp !! k = Some row0) by by rewrite Hrest.
      destruct (record_student_cells ds st2 k smp smp1 recall_k row0
                  Hrk Hsmp Hbody) as (Hl1 & Hother & row & Hrow & Hrl & Hc).
      split_and!.
      + congruence.
      + intros s Hs. rewrite Hother by lia. apply Hrest. lia.
      + intros s rowk t cellk Hs Hrowk Hcellk.
        destruct (decide (s = k)) as [->|Hne].
        * assert (rowk = row) as -> by congruence.
          specialize (Hc t cellk Hcellk).
          rewrite decide_True in Hc.
          2:{ apply lookup_lt_Some in Hcellk. lia. }
          destruct Hc as (cell & p & Hcell & Hp & ->).
          exists row0, cell, p. done.
        * rewrite Hother in Hrowk by done.
          apply (Hdone s rowk t cellk); [lia|done|done]. }
  destruct HQ as (Hl & _ & Hdone).
  apply (Hdone student row' trial cell'); [|done|done].
  apply lookup_lt_Some in Hrow'. lia.
Qed.
End RecorderCells.

Section Retained.
Context {G D : Type} `{Double D, Constants D, Random G D}.
Implicit Type st : chain G D.
Implicit Type ds : dataset.

Lemma retained_reachable ds history st :
  retained ds history st -> reachable ds st.
Proof.
  induction 1 as [st Hreach _|history st st' _ _ Hreach _
                 |history st train_ll st' _ IH Hrun]; [done|done|].
  by eapply reach_record.
Qed.

(** The cells hold the predictions of the retained samples, in the order
    in which they were recorded. *)
Lemma retained_cells ds history st student trial row cell :
  retained ds history st ->
  pRT_samples st !! student = Some row ->
  row !! trial = Some cell ->
  Forall2 (fun p sampled =>
             predicted_recall ds sampled student trial = Some p)
    cell history.
Proof.
  intros Hretained. revert row cell.
  induction Hretained as [st Hreach Hnone|history st st' _ IH _ Hsame
                         |history st train_ll st' Hretained IH Hrun];
    intros row cell Hrow Hcell.
  - apply reachable_inv in Hreach as (_ & _ & _ & _ & Hsamples).
    destruct (inv_samples_cells _ _ Hsamples _ _ Hrow) as (_ & _ & _ & Hlen).
    specialize (Hlen _ _ Hcell). rewrite Hnone in Hlen.
    destruct cell; [constructor|done].
  - destruct Hsame as (Hp & _ & _). rewrite Hp in Hrow. by eapply IH.
  - pose proof (retained_reachable _ _ _ Hretained) as Hreach.
    apply reachable_inv in Hreach as (_ & _ & _ & _ & Hsamples).
    destruct (record_sample_cells _ _ _ _ _ _ _ _ Hsamples Hrun Hrow Hcell)
      as (row0 & cell0 & p & Hrow0 & Hcell0 & Hp & ->).
    apply Forall2_app; [by eapply IH|]. by repeat constructor.
Qed.

(** Every reachable chain has a history. *)
Lemma reachable_retained ds st :
  reachable ds st -> exists history, retained ds history st.
Proof.
  intros Hreach. pose proof Hreach as Hreach0.
  induction Hreach as
    [ g train recall items provided beta init n_students n_items n_sub st
        Hbound Hlens Hfit Hrun
    | st item table deleted st' Hreach IH Hitem Hne Hrun
    | st item table st' Hreach IH Hitem Hin Hrun
    | st item st' Hreach IH Hitem Hrun
    | st table params Hreach IH Hin
    | st x Hreach IH | st x Hreach IH | st g Hreach IH | st l Hreach IH
    | st train_ll st' Hreach IH Hrun ].
  - exists []. apply retained_none; [done|].
    by destruct (constructed_inv _ _ _ _ _ _ _ _ _ _ _ _ Hbound Hlens Hfit Hrun)
      as (_ & _ & _ & _ & ? & _).
  - destruct (IH Hreach) as [history Hh]. exists history.
    apply (retained_keep ds history st); [done|done|].
    apply reachable_inv in Hreach as (Hwf & _ & Hinv & _ & _).
    by destruct (remove_step _ _ _ _ _ _ Hwf Hinv Hitem Hne Hrun)
      as (_ & _ & _ & _ & _ & _ & _ & Hsame).
  - destruct (IH Hreach) as [history Hh]. exists history.
    apply (retained_keep ds history st); [done|done|].
    apply reachable_inv in Hreach as (Hwf & _ & Hinv & _ & _).
    rewrite (inv_extant _ _ Hinv) in Hin.
    by destruct (assign_extant_step _ _ _ _ _ Hwf Hinv Hitem Hin Hrun)
      as (_ & _ & _ & _ & _ & Hsame).
  - destruct (IH Hreach) as [history Hh]. exists history.
    apply (retained_keep ds history st); [done|done|].
    apply reachable_inv in Hreach as (Hwf & _ & Hinv & Hf & _).
    destruct (fresh_not_dom _ Hf) as [Hnot Hnu].
    destruct (assign_new_step ds
                (set_tables_ever_instantiated
                   (S (tables_ever_instantiated st)) st)
                item (tables_ever_instantiated st) st' Hwf)
      as (_ & _ & _ & _ & _ & _ & Hsame); try done.
    by apply (ledger_inv_frame ds st).
  - destruct (IH Hreach) as [history Hh]. exists history.
    by apply (retained_keep ds history st).
  - destruct (IH Hreach) as [history Hh]. exists history.
    by apply (retained_keep ds history st).
  - destruct (IH Hreach) as [history Hh]. exists history.
    by apply (retained_keep ds history st).
  - destruct (IH Hreach) as [history Hh]. exists history.
    by apply (retained_keep ds history st).
  - destruct (IH Hreach) as [history Hh]. exists history.
    by apply (retained_keep ds history st).
  - destruct (IH Hreach) as [history Hh]. exists (history ++ [st]).
    by eapply retained_record.
Qed.
End Retained.


Section Queries.
Context {G D : Type} `{HO : DoubleOrder D, !Constants D, !Random G D}.
Implicit Type st : chain G D.
Implicit Type ds : dataset.

(** The selection loop returns the first sample that no other exceeds. *)
Lemma best_loop (train_ll : list D) (n : nat) :
  0 < n -> n <= length train_ll ->
  exists best ll_best,
    for_range n (best_step train_ll) (0%D, 0) = Ret (ll_best, best) /\
    best < n /\ train_ll !! best = Some ll_best /\
    forall j x, j < n -> train_ll !! j = Some x -> (ll_best <? x)%D = false.
Proof using HO.
  induction n as [|n IH]; [lia|]. intros _ Hn.
  assert (is_Some (train_ll !! n)) as [x Hx] by (apply lookup_lt_is_Some; lia).
  rewrite for_range_S. destruct n as [|n].
  - exists 0, x. unfold for_range. simpl. unfold vec_at. rewrite Hx. simpl.
    split_and!; try done; [lia|].
    intros j y Hj Hy. assert (j = 0) as -> by lia.
    assert (y = x) as -> by congruence. apply ltb_irrefl.
  - destruct IH as (best & ll_best & Hrun & Hlt & Hbest & Hmax); [lia|lia|].
    rewrite Hrun. simpl. unfold vec_at. rewrite Hx. simpl.
    destruct (ll_best <? x)%D eqn:Hcmp; simpl.
    + exists (S n), x. split_and!; try done; [lia|].
      intros j y Hj Hy. destruct (decide (j = S n)) as [->|Hne].
      * assert (y = x) as -> by congruence. apply ltb_irrefl.
      * eapply ltb_neg_trans; [exact Hcmp|]. apply (Hmax j); [lia|done].
    + exists best, ll_best. split_and!; try done; [lia|].
      intros j y Hj Hy. destruct (decide (j = S n)) as [->|Hne].
      * assert (y = x) as -> by congruence. done.
      * apply (Hmax j); [lia|done].
Qed.

(** C7: [get_most_likely_skill_labels] returns the stored partition of a
    recorded sample whose training log-likelihood no other sample exceeds,
    and its result depends on the recorded samples only: without further
    sampling it returns the same partition again. *)
Theorem C7_most_likely_skill_labels st :
  skill_label_samples st ≠ [] ->
  length (train_ll_samples st) = length (skill_label_samples st) ->
  exists best labels ll_best,
    get_most_likely_skill_labels st = Ret labels /\
    skill_label_samples st !! best = Some labels /\
    train_ll_samples st !! best = Some ll_best /\
    (forall j ll, train_ll_samples st !! j = Some ll ->
                  (ll_best <? ll)%D = false) /\
    (forall st' : chain G D,
        train_ll_samples st' = train_ll_samples st ->
        skill_label_samples st' = skill_label_samples st ->
        get_most_likely_skill_labels st' = Ret labels).
Proof using HO.
  intros Hne Hlen.
  assert (0 < length (train_ll_samples st)) as Hpos.
  { rewrite Hlen. destruct (skill_label_samples st); [done | simpl; lia]. }
  destruct (best_loop (train_ll_samples st) (length (train_ll_samples st)))
    as (best & ll_best & Hrun & Hlt & Hbest & Hmax); [done|lia|].
  assert (is_Some (skill_label_samples st !! best)) as [labels Hlabels].
  { apply lookup_lt_is_Some. lia. }
  assert (Hget : forall st' : chain G D,
             train_ll_samples st' = train_ll_samples st ->
             skill_label_samples st' = skill_label_samples st ->
             get_most_likely_skill_labels st' = Ret labels).
  { intros st' Hll Hsl. unfold get_most_likely_skill_labels.
    rewrite Hll, Hsl, Hrun. simpl.
    rewrite bool_decide_eq_false_2 by done.
    rewrite bool_decide_eq_true_2 by done. simpl.
    unfold vec_at. by rewrite Hlabels. }
  exists best, labels, ll_best. split_and!; try done.
  - by apply Hget.
  - intros j ll Hj. apply (Hmax j); [|done]. by apply lookup_lt_Some in Hj.
Qed.

(** C8: for a student and a trial of a reachable chain,
    [get_estimated_recall_prob] stops on its assertion if and only if no
    sample has been recorded.  The cell of the trial holds one prediction
    per recorded sample, in the order of recording: the chain has a history
    of recorded states, and for each of them the cell holds the predicted
    probability of a correct response at the trial under that state
    ([predicted_recall]), which is what [record_sample] appended.  Once
    there is a sample the query returns the mean of the cell. *)
Theorem C8_estimated_recall_prob ds st student trial row cell :
  reachable ds st ->
  pRT_samples st !! student = Some row ->
  row !! trial = Some cell ->
  (get_estimated_recall_prob st student trial = Fail AssertionFailed
   <-> train_ll_samples st = []) /\
  length cell = length (train_ll_samples st) /\
  (exists history, retained ds history st) /\
  (forall history, retained ds history st ->
     Forall2 (fun p sampled =>
                predicted_recall ds sampled student trial = Some p)
       cell history) /\
  (train_ll_samples st ≠ [] ->
   get_estimated_recall_prob st student trial = Ret (arithmetic_mean cell)).
Proof.
  intros Hreach Hrow Hcell.
  assert (Hcells : forall history, retained ds history st ->
            Forall2 (fun p sampled =>
                       predicted_recall ds sampled student trial = Some p)
              cell history).
  { intros history Hretained. by eapply retained_cells. }
  pose proof (reachable_retained ds st Hreach) as Hhistory.
  apply reachable_inv in Hreach as (_ & _ & _ & _ & Hsamples).
  destruct (inv_samples_cells _ _ Hsamples _ _ Hrow) as (recall & _ & _ & Hlen).
  specialize (Hlen _ _ Hcell).
  unfold get_estimated_recall_prob, vec_at. rewrite Hrow. simpl.
  rewrite Hcell. simpl. unfold vector_mean, vector_sum, arithmetic_mean.
  destruct cell as [|x cell]; simpl in *.
  - split_and!; try done.
    + split; [|done]. intros _. by destruct (train_ll_samples st).
    + intros Hne. by destruct (train_ll_samples st).
  - split_and!; try done.
    split; [done|]. intros Hnil. by rewrite Hnil in Hlen.
Qed.
End Queries.

(** Over the reals the mean is the sum of the predictions divided by their
    number. *)
Lemma arithmetic_mean_R (l : list R) :
  (arithmetic_mean l * INR (length l) = foldr Rplus 0 l)%R.
Proof.
  unfold arithmetic_mean. cbn [d_div d_add d_of_Z R_Double].
  rewrite <- INR_IZR_INZ.
  assert (Hfold : forall a, foldl Rplus a l = (a + foldr Rplus 0 l)%R).
  { induction l as [|x l IH]; intros a; simpl; [lra|]. rewrite IH. lra. }
  rewrite Hfold. destruct l as [|x l].
  - simpl. lra.
  - assert (INR (length (x :: l)) <> 0)%R by (apply not_0_INR; simpl; lia).
    field. done.
Qed.

Section QueryWitnesses.
#[local] Existing Instance Z_Double.
#[local] Existing Instance demo_Constants.
#[local] Existing Instance demo_Random.
#[local] Existing Instance Z_DoubleOrder.

Lemma C7_most_likely_skill_labels_witness :
  exists best labels ll_best,
    get_most_likely_skill_labels demo_samples = Ret labels /\
    skill_label_samples demo_samples !! best = Some labels /\
    train_ll_samples demo_samples !! best = Some ll_best /\
    (forall j ll, train_ll_samples demo_samples !! j = Some ll ->
                  (ll_best <? ll)%D = false) /\
    (forall st' : chain nat Z,
        train_ll_samples st' = train_ll_samples demo_samples ->
        skill_label_samples st' = skill_label_samples demo_samples ->
        get_most_likely_skill_labels st' = Ret labels).
Proof.
  apply (C7_most_likely_skill_labels demo_samples).
  - discriminate.
  - reflexivity.
Defined.

Lemma demo_recorded_run :
  record_sample demo_dataset 0%Z demo_chain = Ret demo_recorded.
Proof. vm_compute. reflexivity. Qed.

Lemma demo_recorded_twice_run :
  record_sample demo_dataset (-1)%Z demo_retuned = Ret demo_recorded_twice.
Proof. vm_compute. reflexivity. Qed.

Lemma demo_retuned_reachable : reachable demo_dataset demo_retuned.
Proof.
  apply reach_parameters; [|vm_compute; reflexivity].
  exact (reach_record _ _ _ _ demo_reachable demo_recorded_run).
Qed.

Lemma demo_history :
  retained demo_dataset [demo_chain; demo_retuned] demo_recorded_twice.
Proof.
  apply (retained_record demo_dataset [demo_chain] demo_retuned (-1)%Z);
    [|exact demo_recorded_twice_run].
  apply (retained_keep demo_dataset [demo_chain] demo_recorded);
    [|exact demo_retuned_reachable|by split_and!].
  apply (retained_record demo_dataset [] demo_chain 0%Z);
    [|exact demo_recorded_run].
  apply retained_none; [exact demo_reachable|]. vm_compute. reflexivity.
Qed.

Lemma C8_estimated_recall_prob_witness :
  retained demo_dataset [demo_chain; demo_retuned] demo_recorded_twice /\
  ((get_estimated_recall_prob demo_recorded_twice 0 1 = Fail AssertionFailed
    <-> train_ll_samples demo_recorded_twice = []) /\
   length [1%Z; 3%Z] = length (train_ll_samples demo_recorded_twice) /\
   (exists history, retained demo_dataset history demo_recorded_twice) /\
   (forall history, retained demo_dataset history demo_recorded_twice ->
      Forall2 (fun p sampled =>
                 predicted_recall demo_dataset sampled 0 1 = Some p)
        [1%Z; 3%Z] history) /\
   (train_ll_samples demo_recorded_twice ≠ [] ->
    get_estimated_recall_prob demo_recorded_twice 0 1
    = Ret (arithmetic_mean [1%Z; 3%Z]))).
Proof.
  split; [exact demo_history|].
  apply (C8_estimated_recall_prob demo_dataset demo_recorded_twice 0 1
           [[1%Z; 6%Z]; [1%Z; 3%Z]; [1%Z; 3%Z]] [1%Z; 3%Z]).
  - exact (reach_record _ _ _ _ demo_retuned_reachable
             demo_recorded_twice_run).
  - vm_compute. reflexivity.
  - reflexivity.
Defined.
End QueryWitnesses.

(** ** The two evaluation modes of the likelihood *)

Lemma filter_all {A} (f : A -> bool) (l : list A) :
  Forall (fun x => f x = true) l -> List.filter f l = l.
Proof.
  induction 1 as [|x l Hx _ IH]; simpl; [done|]. by rewrite Hx, IH.
Qed.

Lemma filter_none {A} (f : A -> bool) (l : list A) :
  Forall (fun x => f x = false) l -> List.filter f l = [].
Proof.
  induction 1 as [|x l Hx _ IH]; simpl; [done|]. by rewrite Hx, IH.
Qed.

(** The trials before [T] among the selected trials of a sequence are the
    selected trials of its first [T] positions. *)
Lemma filter_before (f : nat -> bool) (T n : nat) :
  T <= n ->
  List.filter (fun trial => trial <? T) (List.filter f (seq 0 n))
  = List.filter f (seq 0 T).
Proof.
  intros HT. replace n with (T + (n - T)) by lia.
  rewrite seq_app, !List.filter_app. simpl.
  rewrite (filter_none _ (List.filter f (seq T (n - T)))), app_nil_r.
  - apply filter_all, Forall_filter_bool, Forall_forall. intros x Hx.
    apply list_elem_of_In, in_seq in Hx. apply Nat.ltb_lt. lia.
  - apply Forall_filter_bool, Forall_forall. intros x Hx.
    apply list_elem_of_In, in_seq in Hx. apply Nat.ltb_ge. lia.
Qed.

Lemma for_range_mono {St} (f g : nat -> St -> outcome St) (n : nat) (s s' : St) :
  (forall k acc acc', k < n -> f k acc = Ret acc' -> g k acc = Ret acc') ->
  for_range n f s = Ret s' ->
  for_range n g s = Ret s'.
Proof.
  revert s'. induction n as [|n IH]; intros s' Hstep Hrun; [done|].
  rewrite for_range_S in Hrun |- *.
  apply obind_ret in Hrun as (s1 & Hpre & Hlast).
  rewrite (IH s1); [simpl; apply Hstep; [lia|done] | | done].
  intros k acc acc' Hk. apply Hstep. lia.
Qed.

Section TrialLoops.
Context {D : Type} `{Double D}.
Variable recall_items : list (nat * bool).
Variable start_trial : nat.
Variables skill_pi0 skill_pi1 skill_mu : D.

(** From the start trial on, the two modes run the same loop body. *)
Lemma trials_after (trials : list nat) (acc : D * D) :
  Forall (fun trial => start_trial <= trial) trials ->
  for_each trials
    (scratch_trial recall_items start_trial skill_pi0 skill_pi1 skill_mu) acc
  = for_each trials
      (cached_trial recall_items start_trial skill_pi0 skill_pi1 skill_mu) acc.
Proof.
  intros Hall. revert acc.
  induction Hall as [|trial trials Hle _ IH]; intros [ll p]; simpl; [done|].
  apply Nat.leb_le in Hle. rewrite Hle.
  destruct (vec_at recall_items trial); simpl; [apply IH | done].
Qed.

(** Over a sorted list of trials, the from-scratch loop started from the
    belief [p] ends where the cached loop ends when it starts from the
    belief that the trials before the start trial lead to. *)
Lemma modes_loop (trials : list nat) (ll p : D) (res : D * D) :
  StronglySorted lt trials ->
  for_each trials
    (scratch_trial recall_items start_trial skill_pi0 skill_pi1 skill_mu)
    (ll, p) = Ret res ->
  for_each trials
    (cached_trial recall_items start_trial skill_pi0 skill_pi1 skill_mu)
    (ll, replay recall_items skill_pi0 skill_pi1 skill_mu
           (List.filter (fun trial => trial <? start_trial) trials) p)
  = Ret res.
Proof.
  intros Hsorted. revert ll p.
  induction Hsorted as [|trial trials Hs IH Hall]; intros ll p Hrun.
  { done. }
  destruct (decide (trial < start_trial)) as [Hlt|Hge].
  - assert (Hleb : (start_trial <=? trial) = false) by (apply Nat.leb_gt; lia).
    cbn [for_each scratch_trial] in Hrun. rewrite Hleb in Hrun.
    apply obind_ret in Hrun as (acc & Hacc & Hrun).
    apply obind_ret in Hacc as (a & Ha & [= <-]).
    apply vec_at_ret in Ha.
    cbn [List.filter]. rewrite (proj2 (Nat.ltb_lt _ _) Hlt).
    cbn [for_each cached_trial]. rewrite Hleb. simpl.
    unfold replay. simpl. rewrite Ha. by apply IH.
  - rewrite filter_none.
    + simpl replay. rewrite <- trials_after; [done|].
      constructor; [lia|]. eapply Forall_impl; [exact Hall|].
      simpl. intros. lia.
    + constructor; [apply Nat.ltb_ge; lia|].
      eapply Forall_impl; [exact Hall|]. simpl. intros. apply Nat.ltb_ge. lia.
Qed.
End TrialLoops.

Section ModesAgree.
Context {G D : Type} `{HO : DoubleOrder D, !Constants D, !Random G D}.
Implicit Type st : chain G D.
Implicit Type ds : dataset.

(** [cache_p_hat] leaves, for every live skill, the belief that the
    student's trials of the skill before [end_trial] lead to. *)
Lemma cache_loop st (recall : list bool) (items : list nat)
    (pairs : list (nat * bool)) (table end_trial : nat)
    (params : bkt_parameters D) (p0 cache : gmap nat D) (q : D) :
  (forall trial item, items !! trial = Some item ->
     exists did_recall, recall !! trial = Some did_recall /\
                        pairs !! trial = Some (item, did_recall)) ->
  parameters st !! table = Some params ->
  p0 !! table = Some q ->
  for_range end_trial (cache_trial recall items st) p0 = Ret cache ->
  end_trial <= length items /\
  cache !! table
  = Some (replay pairs (pi1 params * prop0 params)%D (pi1 params) (mu params)
            (List.filter (practises (seating_arrangement st) items table)
               (seq 0 end_trial)) q).
Proof.
  intros Hpairs Hparams Hq Hrun.
  apply (for_range_inv
           (fun k cache =>
              k <= length items /\
              cache !! table
              = Some (replay pairs (pi1 params * prop0 params)%D (pi1 params)
                        (mu params)
                        (List.filter
                           (practises (seating_arrangement st) items table)
                           (seq 0 k)) q))
           (cache_trial recall items st) end_trial p0 cache);
    [split; [lia|done] | | done].
  intros k s s1 Hk [Hlen Hs] Hbody. unfold cache_trial in Hbody.
  inv_ret Hbody. simpl_ret. subst s1.
  rename a into did_recall, a0 into item, a1 into table', a2 into params',
         a3 into cur.
  split; [apply lookup_lt_Some in Ha0; lia|].
  rewrite filter_seq_S. unfold replay. rewrite foldl_app.
  destruct (Hpairs _ _ Ha0) as (r & Hr & Hpair).
  assert (r = did_recall) by congruence. subst r.
  unfold practises at 2. rewrite Ha0. simpl. rewrite Ha1.
  case_bool_decide as Ht.
  - injection Ht as ->. rewrite lookup_insert_eq. simpl. rewrite Hpair.
    simpl. f_equal. f_equal.
    + congruence.
    + congruence.
    + congruence.
    + unfold replay in Hs. congruence.
  - rewrite lookup_insert_ne by congruence. done.
Qed.
(** For one affected student, the cached mode returns what the from-scratch
    mode returns. *)
Lemma student_modes_agree ds st table (params : bkt_parameters D)
    (affected_students first_exposures : list nat)
    (init_p_hat : list (gmap nat D)) (k : nat) (acc acc' : D) :
  dataset_wf ds -> ledger_inv ds st ->
  parameters st !! table = Some params ->
  cache_all ds affected_students first_exposures st = Ret init_p_hat ->
  scratch_student ds st table params affected_students first_exposures k acc
  = Ret acc' ->
  cached_student ds st table params affected_students first_exposures
    init_p_hat k acc = Ret acc'.
Proof.
  intros Hwf Hinv Hparams Hcaches Hrun.
  unfold scratch_student in Hrun. inv_ret Hrun. simpl_ret.
  rename a into student, a0 into start, a1 into x.
  unfold scratch_student_log_lik in Ha1. inv_ret Ha1. simpl_ret.
  rename a into pairs, a0 into by_student, a1 into trials, a3 into res.
  rename Ha into Hstudent, Ha0 into Hstart, Ha3 into Hpairs,
         Ha4 into Hby, Ha5 into Htrials, Ha6 into Hloop.
  pose proof Htrials as Hexp.
  rewrite (inv_lookup _ _ Hinv _ _ Hby) in Hexp.
  destruct (expected_trials_sorted _ _ _ _ _ Hexp) as [Hsorted _].
  unfold expected_trials in Hexp. case_bool_decide as Htrain; [|done].
  destruct (item_sequences ds !! student) as [items|] eqn:Hitems; [|done].
  assert (Htr : trials
                = List.filter (practises (seating_arrangement st) items table)
                    (seq 0 (length items))).
  { destruct (List.filter _ _); [done|]. by injection Hexp. }
  clear Hexp.
  destruct (wf_sequences _ Hwf student (proj2 Htrain))
    as (items' & recall & pairs' & studied & Hi & Hr & Hp & _ & _ & _ & _
        & Hrel & _).
  assert (items' = items) by congruence. subst items'.
  assert (pairs' = pairs) by congruence. subst pairs'.
  apply map_each_seq in Hcaches as [_ Hcaches].
  destruct (Hcaches k (lookup_lt_Some _ _ _ Hstudent)) as (cache & Hcache & Hc).
  unfold vec_at in Hc. rewrite Hstudent, Hstart in Hc. simpl in Hc.
  unfold cache_p_hat, vec_at in Hc. rewrite Hr, Hi in Hc. simpl in Hc.
  apply (cache_loop st recall items pairs table start params _ cache
           (psi params) Hrel Hparams) in Hc as [Hle Hcur].
  2:{ apply lookup_union_Some_raw. left. by rewrite lookup_fmap, Hparams. }
  unfold cached_student, vec_at, map_at. rewrite Hstudent, Hby. simpl.
  rewrite Htrials. unfold cached_student_log_lik, vec_at, map_at.
  rewrite Hstart, Hpairs, Hcache. simpl. rewrite Hcur. simpl.
  apply modes_loop in Hloop; [|done].
  rewrite Htr, (filter_before _ _ _ Hle), <- Htr in Hloop.
  rewrite Hloop. simpl. rewrite Ha1, Ha2. simpl. by subst acc'.
Qed.

(** The sum that the from-scratch loop accumulates is at most 0. *)
Lemma scratch_sum_nonpositive ds st table (params : bkt_parameters D)
    (affected_students first_exposures : list nat) (total : D) :
  for_range (length affected_students)
    (scratch_student ds st table params affected_students first_exposures)
    0%D = Ret total ->
  (total <=? 0)%D = true.
Proof using HO.
  apply (for_range_inv (fun _ acc => (acc <=? 0)%D = true)).
  - apply leb_zero_refl.
  - intros k acc acc' _ Hacc Hbody. unfold scratch_student in Hbody.
    inv_ret Hbody. simpl_ret. subst acc'. apply add_nonpos; [done|].
    unfold clamp_nonpositive. destruct (0 <? a1)%D eqn:Hpos.
    + apply leb_zero_refl.
    + by apply not_pos_leb.
Qed.

(** C2: in a reachable chain state, for any skill and any affected students
    with their start trials, when the cached beliefs are those that
    [cache_p_hat] computes at the start trials, the cached version of
    [skill_log_likelihood] returns the log-likelihood that the
    from-scratch version returns: the two modes perform the same
    operations on the trials from the start trial on. *)
Theorem C2_evaluation_modes_agree ds st table
    (affected_students first_exposures : list nat)
    (init_p_hat : list (gmap nat D)) (r : D) :
  reachable ds st ->
  cache_all ds affected_students first_exposures st = Ret init_p_hat ->
  skill_log_likelihood ds table affected_students first_exposures st = Ret r ->
  skill_log_likelihood_cached ds table affected_students first_exposures
    init_p_hat st = Ret r.
Proof using HO.
  intros Hreach Hcaches Hrun.
  destruct (reachable_inv _ _ Hreach) as (Hwf & _ & Hinv & _).
  unfold skill_log_likelihood in Hrun. inv_ret Hrun. simpl_ret.
  rename a into params, a0 into total.
  rename Ha into Hparams, Ha0 into Hloop, Ha1 into Hfinite.
  assert (Hlive : table ∈ dom (table_sizes st)).
  { rewrite <- (inv_parameters _ _ Hinv). by apply elem_of_dom_2 in Hparams. }
  pose proof (ledger_size_lookup _ _ _ Hinv Hlive) as Hsize.
  apply (ledger_dom_seated _ _ _ Hinv) in Hlive as [_ Hpos].
  unfold skill_log_likelihood_cached. rewrite Hsize.
  rewrite !bool_decide_eq_false_2; [|intros [=]; lia|done].
  unfold map_at at 1. rewrite Hparams. simpl.
  pose proof (scratch_sum_nonpositive _ _ _ _ _ _ _ Hloop) as Hsign.
  rewrite (for_range_mono _ _ _ _ _
             (fun k acc acc' _ =>
                student_modes_agree ds st table params affected_students
                  first_exposures init_p_hat k acc acc' Hwf Hinv Hparams
                  Hcaches) Hloop).
  simpl. rewrite Hfinite, Hsign. simpl. subst r. f_equal.
  unfold d_min. destruct (total <? 0)%D eqn:Hneg; [done|].
  by apply nonpos_min.
Qed.
End ModesAgree.

Section ModesAgreeWitness.
#[local] Existing Instance Z_Double.
#[local] Existing Instance demo_Constants.
#[local] Existing Instance demo_Random.

Lemma demo_tuned_reachable :
  @reachable nat Z Z_Double demo_Constants demo_Random
    demo_dataset demo_tuned.
Proof.
  apply reach_parameters; [exact demo_reachable|]. vm_compute. reflexivity.
Qed.

Lemma C2_evaluation_modes_agree_witness :
  skill_log_likelihood (G := nat) demo_dataset 1 [0; 1] [2; 1] demo_tuned
  = Ret (-2)%Z /\
  skill_log_likelihood_cached (G := nat) demo_dataset 1 [0; 1] [2; 1]
    demo_caches demo_tuned
  = Ret (-2)%Z.
Proof.
  split; [vm_compute; reflexivity|].
  apply (@C2_evaluation_modes_agree nat Z Z_Double Z_DoubleOrder
           demo_Constants demo_Random demo_dataset demo_tuned 1 [0; 1] [2; 1]
           demo_caches).
  - exact demo_tuned_reachable.
  - vm_compute. reflexivity.
  - vm_compute. reflexivity.
Defined.
End ModesAgreeWitness.

(** ** The seating statistic K *)

(** A loop whose body returns under the invariant returns, and keeps it. *)
Lemma for_range_total {St} (P : nat -> St -> Prop)
    (body : nat -> St -> outcome St) (n : nat) (s0 : St) :
  P 0 s0 ->
  (forall k s, k < n -> P k s -> exists s1, body k s = Ret s1 /\ P (S k) s1) ->
  exists s', for_range n body s0 = Ret s' /\ P n s'.
Proof.
  intros H0 Hstep. induction n as [|n IH].
  - exists s0. done.
  - destruct IH as (s & Hrun & Hs).
    { intros k s Hk. apply Hstep. lia. }
    destruct (Hstep n s) as (s1 & Hbody & Hs1); [lia|done|].
    exists s1. rewrite for_range_S, Hrun. done.
Qed.

Section CountLoop.
Context {G D : Type} `{Double D, Constants D, Random G D}.
Implicit Type st : chain G D.
Implicit Type ds : dataset.

(** The counting loop of [compute_K] returns; the labels it counts are
    expert labels; and over a table that is pure in the item's label it
    counts that label only. *)
Lemma count_loop ds st (item table_id : nat) (generative_mode : bool)
    (label : nat) :
  labels_wf ds ->
  length (seating_arrangement st) = num_items ds ->
  item < num_items ds ->
  provided_skill_assignments ds !! item = Some label ->
  exists counts max_count,
    for_range (if generative_mode then item else num_items ds)
      (count_label st ds item table_id) (∅, 0%Z)
    = Ret (counts, max_count) /\
    (forall l, l ∈ dom counts -> l < num_expert_provided_skills ds) /\
    (pure_table ds st item table_id generative_mode ->
     let n := length (others_at_table ds st item table_id generative_mode) in
     max_count = Z.of_nat n /\
     counts = if decide (n = 0) then ∅ else {[label := Z.of_nat n]}).
Proof.
  intros Hlabels Hlen Hitem Hlabel.
  set (end_idx := if generative_mode then item else num_items ds).
  assert (Hend : end_idx <= num_items ds).
  { subst end_idx. destruct generative_mode; lia. }
  set (at_table := fun other_item =>
         bool_decide (item ≠ other_item
                      ∧ seating_arrangement st !! other_item = Some table_id)).
  destruct (for_range_total
              (fun k (acc : gmap nat Z * Z) =>
                 (forall l, l ∈ dom acc.1 -> l < num_expert_provided_skills ds) /\
                 (pure_table ds st item table_id generative_mode ->
                  let n := length (List.filter at_table (seq 0 k)) in
                  acc.2 = Z.of_nat n /\
                  acc.1 = if decide (n = 0) then ∅
                          else {[label := Z.of_nat n]}))
              (count_label st ds item table_id) end_idx (∅, 0%Z))
    as ([counts max_count] & Hrun & Hdom & Hpure).
  - split; [set_solver|]. intros _. done.
  - intros k [counts max_count] Hk [Hdom Hpure].
    assert (Hk' : k < num_items ds) by lia.
    destruct (lookup_lt_is_Some_2 (seating_arrangement st) k) as [seat Hseat];
      [lia|].
    destruct (Hlabels k Hk') as (l & Hl & Hbound).
    set (counts' := match counts !! l with
                    | Some c => <[l := (c + 1)%Z]> counts
                    | None => <[l := 1%Z]> counts
                    end).
    set (c' := default 0%Z (counts' !! l)).
    assert (Hbody : count_label st ds item table_id k (counts, max_count)
                    = Ret (if at_table k
                           then (counts',
                                 if (max_count <? c')%Z then c' else max_count)
                           else (counts, max_count))).
    { unfold count_label, vec_at, at_table. rewrite Hseat.
      destruct (decide (item ≠ k)) as [Hne|Heq].
      - rewrite (bool_decide_eq_true_2 _ Hne). simpl.
        destruct (decide (seat = table_id)) as [->|Hs].
        + rewrite !bool_decide_eq_true_2 by done. by rewrite Hl.
        + rewrite (bool_decide_eq_false_2 _ Hs).
          rewrite bool_decide_eq_false_2; [done|]. intros [_ [= ?]]. done.
      - rewrite (bool_decide_eq_false_2 _ Heq).
        rewrite bool_decide_eq_false_2; [done|]. intros [? _]. done. }
    rewrite Hbody. eexists. split; [reflexivity|].
    rewrite filter_seq_S. destruct (at_table k) eqn:Hat.
    + simpl. split.
      * intros l'. subst counts'. destruct (counts !! l); rewrite dom_insert;
          intros [->%elem_of_singleton|?]%elem_of_union; auto.
      * intros Hp. destruct (Hpure Hp) as [Hmax Hcounts].
        simpl in Hmax, Hcounts. rewrite length_app. simpl.
        assert (l = label) as ->.
        { unfold pure_table in Hp. rewrite Forall_forall in Hp.
          specialize (Hp k). rewrite Hl, Hlabel in Hp.
          enough (Some l = Some label) by congruence. apply Hp.
          unfold others_at_table. apply list_elem_of_In, filter_In. split.
          - apply in_seq. fold end_idx. lia.
          - exact Hat. }
        subst c' counts' max_count. rewrite Hcounts.
        destruct (decide (length (List.filter at_table (seq 0 k)) = 0))
          as [Hn|Hn].
        -- rewrite lookup_empty, insert_empty, lookup_singleton_eq. simpl.
           rewrite Hn. simpl. done.
        -- rewrite lookup_singleton_eq. cbv iota.
           rewrite insert_singleton, decide_True by done.
           rewrite lookup_singleton_eq.
           simpl. rewrite (proj2 (Z.ltb_lt _ _)) by lia.
           rewrite decide_False by lia. split; [lia|]. f_equal. lia.
    + rewrite app_nil_r. done.
  - exists counts, max_count. split; [done|]. split; [done|].
    intros Hp. apply Hpure. done.
Qed.
End CountLoop.

Section SumOfPowers.
Context {A : Type}.
Variable term : A -> R.
Hypothesis term_pos : forall x, (0 < term x)%R.

(** The denominator of K is a sum of positive terms: it is at least the
    value it starts from, and at least that value plus any one term. *)
Lemma sum_from_ge (l : list A) (base : R) :
  (base <= foldl (fun acc x => acc + term x) base l)%R.
Proof using term_pos.
  revert base. induction l as [|x l IH]; intros base; simpl; [lra|].
  specialize (IH (base + term x)%R). pose proof (term_pos x). lra.
Qed.

Lemma sum_from_elem (l : list A) (base : R) (x : A) :
  x ∈ l ->
  (base + term x <= foldl (fun acc x => acc + term x) base l)%R.
Proof using term_pos.
  intros Hx. revert base.
  induction Hx as [x l|x y l Hx IH]; intros base; simpl.
  - apply sum_from_ge.
  - specialize (IH (base + term y)%R). pose proof (term_pos y). lra.
Qed.
End SumOfPowers.

Lemma ratio_range (a b : R) : (0 < a)%R -> (a <= b)%R -> (0 < a / b <= 1)%R.
Proof.
  intros Ha Hab. assert (Hb : (0 < b)%R) by lra.
  pose proof (Rinv_0_lt_compat b Hb) as Hinv. unfold Rdiv. split.
  - by apply Rmult_lt_0_compat.
  - replace 1%R with (b * / b)%R by (field; lra).
    apply Rmult_le_compat_r; lra.
Qed.

Section SeatingStatistic.
Context {G : Type}.
Implicit Type st : chain G R.
Implicit Type ds : dataset.

(** What [compute_K] returns, from what its counting loop returns. *)
Lemma compute_K_value ds st (item table_id : nat) (generative_mode : bool)
    (label : nat) (counts : gmap nat Z) (max_count : Z) :
  (generative_mode = false ->
   seating_arrangement st !! item = Some UNASSIGNED) ->
  provided_skill_assignments ds !! item = Some label ->
  for_range (if generative_mode then item else num_items ds)
    (count_label st ds item table_id) (∅, 0%Z) = Ret (counts, max_count) ->
  compute_K ds item table_id generative_mode st
  = Ret (match counts !! label with
         | Some c => powerRZ (exp (log_gamma st)) (max_count - c)
         | None => powerRZ (exp (log_gamma st)) max_count
         end
         / foldl (fun acc kc =>
                    acc + powerRZ (exp (log_gamma st)) (max_count - kc.2))
             (IZR (wrap64 (Z.of_nat (num_expert_provided_skills ds)
                           - Z.of_nat (size counts)))
              * powerRZ (exp (log_gamma st)) max_count)
             (map_to_list counts))%R.
Proof.
  intros Hseat Hlabel Hrun. unfold compute_K, vec_at.
  assert (Hfirst : (if generative_mode then Ret ()
                    else obind match seating_arrangement st !! item with
                               | Some x => Ret x
                               | None => Fail OutOfRange
                               end
                           (fun seat => assert (bool_decide (seat = UNASSIGNED))))
                   = Ret ()).
  { destruct generative_mode; [done|]. by rewrite Hseat. }
  rewrite Hfirst. simpl. rewrite Hlabel. simpl. rewrite Hrun. simpl.
  unfold map_at. destruct (counts !! label); reflexivity.
Qed.

(** The number of labels counted at the table is at most the number of
    expert labels, and smaller when the label of the item is not among
    them. *)
Lemma counted_labels_bound (counts : gmap nat Z) (E label : nat) :
  (forall l, l ∈ dom counts -> l < E) ->
  label < E ->
  size counts <= E /\ (counts !! label = None -> size counts < E).
Proof.
  intros Hdom Hlabel. rewrite <- size_dom.
  assert (HE : size (set_seq (C := gset nat) 0 E) = E) by apply size_set_seq.
  split.
  - assert (Hsub : dom counts ⊆ set_seq (C := gset nat) 0 E).
    { intros l Hl. apply elem_of_set_seq. specialize (Hdom l Hl). lia. }
    apply subseteq_size in Hsub. lia.
  - intros Hnone.
    assert (Hsub : dom counts ⊆ set_seq (C := gset nat) 0 E ∖ {[label]}).
    { intros l Hl. apply elem_of_difference. split.
      - apply elem_of_set_seq. specialize (Hdom l Hl). lia.
      - intros ->%elem_of_singleton. by apply not_elem_of_dom in Hnone. }
    apply subseteq_size in Hsub. rewrite size_difference in Hsub.
    + rewrite HE, size_singleton in Hsub. lia.
    + intros l ->%elem_of_singleton. apply elem_of_set_seq. lia.
Qed.
(** C3: with the doubles read as real numbers ([log_gamma] finite, so that
    gamma = exp(log_gamma) is positive, and exact arithmetic), for an item
    and a table of a chain whose seating covers the items (the item
    unseated, unless the generative mode is on), [compute_K] returns a
    value K with 0 < K <= 1; and when all [n] other items at the table share
    the expert label of the item, K is 1 / (1 + (E - 1) * gamma ^ n), where
    E is the number of expert labels: it is 1 exactly when there is one
    expert label only. *)
Theorem C3_compute_K_range ds st (item table_id : nat)
    (generative_mode : bool) :
  labels_wf ds ->
  (Z.of_nat (num_expert_provided_skills ds) < 2 ^ 64)%Z ->
  length (seating_arrangement st) = num_items ds ->
  item < num_items ds ->
  (generative_mode = false ->
   seating_arrangement st !! item = Some UNASSIGNED) ->
  exists K : R,
    compute_K ds item table_id generative_mode st = Ret K /\
    (0 < K <= 1)%R /\
    (pure_table ds st item table_id generative_mode ->
     K = (1 / (1 + (IZR (Z.of_nat (num_expert_provided_skills ds)) - 1)
                  * powerRZ (exp (log_gamma st))
                      (Z.of_nat
                         (length (others_at_table ds st item table_id
                                    generative_mode)))))%R /\
     (K = 1%R <-> num_expert_provided_skills ds = 1)).
Proof.
  intros Hlabels HE Hlen Hitem Hseat.
  destruct (Hlabels item Hitem) as (label & Hlabel & Hbound).
  destruct (count_loop ds st item table_id generative_mode label
              Hlabels Hlen Hitem Hlabel)
    as (counts & max_count & Hrun & Hdom & Hpure).
  destruct (counted_labels_bound counts _ label Hdom Hbound) as [Hsize Hnone].
  pose proof (exp_pos (log_gamma st)) as Hgamma.
  set (gamma := exp (log_gamma st)) in *.
  assert (Hpow : forall z, (0 < powerRZ gamma z)%R).
  { intros z. by apply powerRZ_lt. }
  eexists. split; [exact (compute_K_value _ _ _ _ _ _ _ _ Hseat Hlabel Hrun)|].
  fold gamma. split.
  - apply ratio_range.
    { destruct (counts !! label); apply Hpow. }
    pose proof (sum_from_ge (fun kc : nat * Z => powerRZ gamma (max_count - kc.2))
                  (fun kc => Hpow _) (map_to_list counts)) as Hge.
    pose proof (sum_from_elem
                  (fun kc : nat * Z => powerRZ gamma (max_count - kc.2))
                  (fun kc => Hpow _) (map_to_list counts)) as Helem.
    destruct (counts !! label) as [c|] eqn:Hc.
    + specialize (Helem
        (IZR (wrap64 (Z.of_nat (num_expert_provided_skills ds)
                      - Z.of_nat (size counts))) * powerRZ gamma max_count)%R
        (label, c)).
      simpl in Helem. etrans; [|apply Helem; by apply elem_of_map_to_list].
      rewrite wrap64_small by lia.
      assert (0 <= IZR (Z.of_nat (num_expert_provided_skills ds)
                        - Z.of_nat (size counts)))%R by (apply IZR_le; lia).
      pose proof (Hpow max_count). pose proof (Hpow (max_count - c)%Z). nra.
    + etrans; [|apply Hge]. specialize (Hnone eq_refl).
      rewrite wrap64_small by lia.
      assert (1 <= IZR (Z.of_nat (num_expert_provided_skills ds)
                        - Z.of_nat (size counts)))%R by (apply IZR_le; lia).
      pose proof (Hpow max_count). nra.
  - intros Hp. destruct (Hpure Hp) as [Hmax Hcounts]. simpl in Hmax, Hcounts.
    set (n := length (others_at_table ds st item table_id generative_mode)) in *.
    set (E := num_expert_provided_skills ds) in *.
    assert (HK : (match counts !! label with
                  | Some c => powerRZ gamma (max_count - c)
                  | None => powerRZ gamma max_count
                  end
                  / foldl (fun acc kc => acc + powerRZ gamma (max_count - kc.2))
                      (IZR (wrap64 (Z.of_nat E - Z.of_nat (size counts)))
                       * powerRZ gamma max_count)
                      (map_to_list counts)
                  = 1 / (1 + (IZR (Z.of_nat E) - 1)
                             * powerRZ gamma (Z.of_nat n)))%R).
    { destruct (decide (n = 0)) as [Hn|Hn]; subst counts max_count.
      - rewrite lookup_empty, map_to_list_empty, map_size_empty, Hn. simpl.
        rewrite wrap64_small by lia. rewrite Z.sub_0_r. f_equal. ring.
      - rewrite lookup_singleton_eq, map_to_list_singleton, map_size_singleton.
        simpl. rewrite Z.sub_diag. simpl.
        rewrite wrap64_small by lia. rewrite minus_IZR. f_equal. ring. }
    rewrite HK. split; [done|].
    pose proof (Hpow (Z.of_nat n)) as Hx.
    assert (HE1 : (1 <= IZR (Z.of_nat E))%R) by (apply IZR_le; lia).
    split.
    + intros H1.
      assert (Hy : ((IZR (Z.of_nat E) - 1) * powerRZ gamma (Z.of_nat n) = 0)%R).
      { assert (Hden : (0 < 1 + (IZR (Z.of_nat E) - 1)
                                * powerRZ gamma (Z.of_nat n))%R) by nra.
        apply (f_equal (fun k => k * (1 + (IZR (Z.of_nat E) - 1)
                                          * powerRZ gamma (Z.of_nat n)))%R)
          in H1.
        field_simplify in H1; lra. }
      apply Rmult_integral in Hy as [Hy|Hy]; [|lra].
      assert (IZR (Z.of_nat E) = IZR 1) as Heq%eq_IZR by lra. lia.
    + intros ->. simpl. field_simplify; lra.
Qed.
End SeatingStatistic.

Section SeatingExample.
Context {D : Type} `{Double D}.

(** [compute_K] for item 0 and table 1 of the small dataset, where item 1
    sits with the same expert label and two expert labels exist: the
    operations on doubles that the code performs. *)
Lemma compute_K_unseated (x_log_gamma p : D) :
  compute_K demo_dataset 0 1 false (unseated_chain x_log_gamma p)
  = Ret (d_pow (d_exp x_log_gamma) 0
         / (d_of_Z 1 * d_pow (d_exp x_log_gamma) 1
            + d_pow (d_exp x_log_gamma) 0))%D.
Proof. vm_compute. reflexivity. Qed.
End SeatingExample.

Lemma demo_labels_wf : labels_wf demo_dataset.
Proof.
  intros item Hitem.
  assert (Hn : num_items demo_dataset = 3) by (vm_compute; reflexivity).
  assert (HE : num_expert_provided_skills demo_dataset = 2)
    by (vm_compute; reflexivity).
  assert (Hp : provided_skill_assignments demo_dataset = [0; 0; 1])
    by (vm_compute; reflexivity).
  rewrite Hn in Hitem. rewrite HE, Hp.
  destruct item as [|[|[|item]]]; [exists 0|exists 0|exists 1|lia];
    (split; [reflexivity|lia]).
Qed.

Lemma C3_pure_table_K_not_one :
  let st := unseated_chain (ln (1 - 1 / 2)) (1 / 2)%R in
  seating_arrangement st !! 0 = Some UNASSIGNED /\
  1 ∈ extant_tables st /\
  others_at_table demo_dataset st 0 1 false = [1] /\
  pure_table demo_dataset st 0 1 false /\
  compute_K demo_dataset 0 1 false st = Ret (2 / 3)%R /\
  (2 / 3)%R ≠ 1%R.
Proof.
  intros st. subst st.
  assert (Hothers : forall x p : R,
             others_at_table demo_dataset (unseated_chain x p) 0 1 false = [1]).
  { intros x p. unfold others_at_table.
    cbn [seating_arrangement unseated_chain]. vm_compute. reflexivity. }
  split_and!.
  - reflexivity.
  - cbn [extant_tables unseated_chain]. set_solver.
  - apply Hothers.
  - unfold pure_table. rewrite Hothers. constructor; [|constructor].
    vm_compute. reflexivity.
  - rewrite compute_K_unseated. f_equal.
    cbn [d_pow d_exp d_of_Z d_mul d_add d_div R_Double].
    rewrite exp_ln by lra. simpl. field.
  - lra.
Qed.

Lemma C3_compute_K_range_witness :
  exists K : R,
    compute_K demo_dataset 0 1 false
      (unseated_chain (ln (1 - 1 / 2)) (1 / 2)%R) = Ret K /\
    (0 < K <= 1)%R.
Proof.
  destruct (C3_compute_K_range (G := nat) demo_dataset
              (unseated_chain (ln (1 - 1 / 2)) (1 / 2)%R) 0 1 false)
    as (K & HK & Hrange & _).
  - exact demo_labels_wf.
  - vm_compute. reflexivity.
  - cbn [seating_arrangement unseated_chain]. vm_compute. reflexivity.
  - vm_compute. lia.
  - intros _. reflexivity.
  - exists K. split; [exact HK | exact Hrange].
Defined.

(** ** The Gibbs step stays within the reachable states *)

Section GibbsReachable.
Context {G D : Type} `{Double D, Constants D, Random G D}.
Implicit Type st : chain G D.
Implicit Type ds : dataset.

(** Probing an extant table seats the unseated item there and takes it away
    again: the seating and the set of tables are as before. *)
Lemma probe_table_reachable ds (item : nat)
    (affected_students first_exposures : list nat)
    (p_hat : list (gmap nat D)) (table : nat) (pr pr' : probe G D) :
  reachable ds (probe_chain pr) ->
  seating_arrangement (probe_chain pr) !! item = Some UNASSIGNED ->
  table ∈ extant_tables (probe_chain pr) ->
  probe_table ds item affected_students first_exposures p_hat table pr
  = Ret pr' ->
  reachable ds (probe_chain pr') /\
  seating_arrangement (probe_chain pr') = seating_arrangement (probe_chain pr) /\
  extant_tables (probe_chain pr') = extant_tables (probe_chain pr) /\
  keys pr' = keys pr ++ [table] /\
  same_samples (probe_chain pr) (probe_chain pr').
Proof.
  intros Hreach Hitem Htable Hrun. unfold probe_table in Hrun.
  apply obind_ret in Hrun as (st1 & Hassign & Hrun).
  apply obind_ret in Hrun as (lp_with & _ & Hrun).
  apply obind_ret in Hrun as ([deleted st2] & Hremove & Hrun).
  apply obind_ret in Hrun as (lp_without & _ & Hrun).
  apply obind_ret in Hrun as (K & _ & Hrun).
  apply obind_ret in Hrun as (num_seated & _ & [= <-]). simpl.
  destruct (reachable_inv _ _ Hreach) as (Hwf & _ & Hinv & _).
  pose proof Htable as Hdom. rewrite (inv_extant _ _ Hinv) in Hdom.
  destruct (assign_extant_step _ _ _ _ _ Hwf Hinv Hitem Hdom Hassign)
    as (Hinv1 & Hseat1 & Hdom1 & _ & _ & Hsame1).
  assert (Hreach1 : reachable ds st1) by (eapply reach_assign_extant; eauto).
  destruct (proj1 (ledger_dom_seated _ _ _ Hinv) Hdom) as [Hne Hpos].
  assert (Hitem1 : seating_arrangement st1 !! item = Some table).
  { rewrite Hseat1. apply list_lookup_insert_eq. by eapply lookup_lt_Some. }
  destruct (remove_step _ _ _ _ _ _ Hwf Hinv1 Hitem1 Hne Hremove)
    as (Hinv2 & Hseat2 & Hdel & Hdom2 & _ & _ & _ & Hsame2).
  assert (Hreach2 : reachable ds st2) by (eapply reach_remove; eauto).
  split_and!; [done| | |done|by eapply same_samples_trans].
  - rewrite Hseat2, Hseat1, list_insert_insert_eq. by apply list_insert_id.
  - rewrite (inv_extant _ _ Hinv2), (inv_extant _ _ Hinv), Hdom2, <- Hdom1.
    destruct deleted; [|done].
    pose proof (seated_insert _ _ _ table table Hitem) as Hcount.
    rewrite <- Hseat1 in Hcount.
    rewrite bool_decide_eq_false_2 in Hcount by done.
    rewrite bool_decide_eq_true_2 in Hcount by done.
    pose proof (proj1 Hdel eq_refl). lia.
Qed.

(** The loop over the extant tables. *)
Lemma probe_loop_reachable ds (item : nat)
    (affected_students first_exposures : list nat)
    (p_hat : list (gmap nat D)) (tables : list nat) (pr pr' : probe G D) :
  reachable ds (probe_chain pr) ->
  seating_arrangement (probe_chain pr) !! item = Some UNASSIGNED ->
  Forall (fun table => table ∈ extant_tables (probe_chain pr)) tables ->
  Forall (fun table => table ∈ extant_tables (probe_chain pr)) (keys pr) ->
  for_each tables
    (probe_table ds item affected_students first_exposures p_hat) pr
  = Ret pr' ->
  reachable ds (probe_chain pr') /\
  seating_arrangement (probe_chain pr') = seating_arrangement (probe_chain pr) /\
  Forall (fun table => table ∈ extant_tables (probe_chain pr')) (keys pr') /\
  same_samples (probe_chain pr) (probe_chain pr').
Proof.
  revert pr. induction tables as [|table tables IH];
    intros pr Hreach Hitem Htables Hkeys Hrun; simpl in Hrun.
  - injection Hrun as <-. split_and!; done.
  - apply obind_ret in Hrun as (pr1 & Hprobe & Hrun).
    apply Forall_cons in Htables as [Htable Htables].
    destruct (probe_table_reachable _ _ _ _ _ _ _ _ Hreach Hitem Htable Hprobe)
      as (Hreach1 & Hseat1 & Hext1 & Hkeys1 & Hsame1).
    destruct (IH pr1) as (Hreach' & Hseat' & Hkeys' & Hsame'); try done.
    + by rewrite Hseat1.
    + by rewrite Hext1.
    + rewrite Hext1, Hkeys1. apply Forall_app. split; [done|].
      by constructor.
    + split_and!; [done| |done|by eapply same_samples_trans].
      by rewrite Hseat'.
Qed.

(** [gibbs_resample_skill] goes through reachable states only, and moves
    the one item. *)
Lemma gibbs_resample_skill_step ds st (item : nat) st' :
  reachable ds st -> settled st ->
  gibbs_resample_skill ds item st = Ret st' ->
  reachable ds st' /\
  (exists table,
      table ≠ UNASSIGNED /\ table ∈ extant_tables st' /\
      seating_arrangement st' = <[item := table]> (seating_arrangement st)) /\
  same_samples st st'.
Proof.
  intros Hreach Hsettled Hrun. unfold gibbs_resample_skill in Hrun.
  apply obind_ret in Hrun as (cur & Hcur%vec_at_ret & Hrun).
  apply obind_ret in Hrun as (studs & _ & Hrun).
  apply obind_ret in Hrun as (fe & _ & Hrun).
  apply obind_ret in Hrun as ([deleted st0] & Hremove & Hrun).
  apply obind_ret in Hrun as (p_hat & _ & Hrun).
  apply obind_ret in Hrun as (pr & Hloop & Hrun).
  apply obind_ret in Hrun as (singleton & _ & Hrun).
  apply obind_ret in Hrun as (? & _ & Hrun).
  apply obind_ret in Hrun as (? & _ & Hrun).
  apply obind_ret in Hrun as (? & _ & Hrun).
  apply obind_ret in Hrun as (probs & _ & Hrun).
  destruct (reachable_inv _ _ Hreach) as (Hwf & _ & Hinv & _).
  assert (Hne : cur ≠ UNASSIGNED).
  { unfold settled in Hsettled. rewrite Forall_lookup in Hsettled. eauto. }
  destruct (remove_step _ _ _ _ _ _ Hwf Hinv Hcur Hne Hremove)
    as (_ & Hseat0 & _ & _ & _ & _ & _ & Hsame0).
  assert (Hreach0 : reachable ds st0) by (eapply reach_remove; eauto).
  assert (Hitem0 : seating_arrangement st0 !! item = Some UNASSIGNED).
  { rewrite Hseat0. apply list_lookup_insert_eq. by eapply lookup_lt_Some. }
  destruct (probe_loop_reachable ds item studs fe p_hat
              (set_in_order (extant_tables st0))
              {| probe_chain := st0; data_lp_with_item := [];
                 data_lp_without_item := []; seating_lp := []; keys := [] |}
              pr)
    as (Hreach1 & Hseat1 & Hkeys & Hsame1);
    [exact Hreach0 | exact Hitem0 | | constructor | exact Hloop |].
  { apply Forall_forall. intros table Htable. simpl.
    unfold set_in_order in Htable. rewrite merge_sort_Permutation in Htable.
    by apply elem_of_elements in Htable. }
  simpl in Hseat1.
  set (st1 := probe_chain pr) in *.
  assert (Hmoved : forall t (s : chain G D),
             seating_arrangement s = <[item := t]> (seating_arrangement st1) ->
             seating_arrangement s = <[item := t]> (seating_arrangement st)).
  { intros t s Hs. rewrite Hs, Hseat1, Hseat0.
    by rewrite list_insert_insert_eq. }
  assert (Hsame01 : same_samples st st1) by (by eapply same_samples_trans).
  assert (Hitem1 : seating_arrangement st1 !! item = Some UNASSIGNED)
    by (by rewrite Hseat1).
  destruct (sampleUnnormalizedDiscrete probs (generator st1))
    as [drawn g] eqn:Hdraw.
  assert (Hreachg : reachable ds (set_generator g st1))
    by (by apply reach_generator).
  destruct (reachable_inv _ _ Hreachg) as (_ & _ & Hinvg & Hfresh & _).
  destruct (size (extant_tables st1) <=? drawn).
  - apply obind_ret in Hrun as (st2 & Hassign & Hrun).
    apply obind_ret in Hrun as (seat & Hseat%vec_at_ret & Hrun).
    apply obind_ret in Hrun as (params & _ & [= <-]).
    destruct (fresh_not_dom _ Hfresh) as [Hnot Hnu].
    destruct (assign_new_step ds
                (set_tables_ever_instantiated
                   (S (tables_ever_instantiated (set_generator g st1)))
                   (set_generator g st1))
                item (tables_ever_instantiated (set_generator g st1)) st2 Hwf)
      as (Hinv2 & Hseat2 & Hdom2 & _ & _ & _ & Hsame2); try done.
    { by apply (ledger_inv_frame ds (set_generator g st1)). }
    assert (Hreach2 : reachable ds st2) by (eapply reach_assign_new; eauto).
    simpl in Hseat2.
    assert (seat = tables_ever_instantiated (set_generator g st1)) as ->.
    { rewrite Hseat2, list_lookup_insert_eq in Hseat;
        [by injection Hseat as <-|].
      by eapply lookup_lt_Some. }
    split_and!.
    + apply reach_parameters; [done|].
      rewrite (inv_parameters _ _ Hinv2), Hdom2. set_solver.
    + eexists. split_and!; [exact Hnu| |by apply Hmoved].
      simpl. rewrite (inv_extant _ _ Hinv2), Hdom2. set_solver.
    + eapply same_samples_trans; [exact Hsame01|]. exact Hsame2.
  - apply obind_ret in Hrun as (table & Htable%vec_at_ret & Hrun).
    rewrite Forall_lookup in Hkeys. specialize (Hkeys _ _ Htable).
    assert (Hdom : table ∈ dom (table_sizes (set_generator g st1))).
    { rewrite <- (inv_extant _ _ Hinvg). exact Hkeys. }
    destruct (proj1 (ledger_dom_seated _ _ _ Hinvg) Hdom) as [Hnu _].
    destruct (assign_extant_step _ _ _ _ _ Hwf Hinvg Hitem1 Hdom Hrun)
      as (Hinv2 & Hseat2 & Hdom2 & _ & _ & Hsame2).
    split_and!.
    + eapply reach_assign_extant; [exact Hreachg|done|done|done].
    + eexists. split_and!; [exact Hnu| |by apply Hmoved].
      rewrite (inv_extant _ _ Hinv2), Hdom2. exact Hdom.
    + eapply same_samples_trans; [exact Hsame01|]. exact Hsame2.
Qed.

(** From a reachable state in which every item has a table,
    [gibbs_resample_skill] ends in such a state. *)
Lemma gibbs_resample_skill_reachable ds st (item : nat) st' :
  reachable ds st -> settled st ->
  gibbs_resample_skill ds item st = Ret st' ->
  reachable ds st' /\ settled st'.
Proof.
  intros Hreach Hsettled Hrun.
  destruct (gibbs_resample_skill_step _ _ _ _ Hreach Hsettled Hrun)
    as (Hreach' & (table & Hne & _ & Hseat) & _).
  split; [done|]. unfold settled. rewrite Hseat. by apply Forall_insert.
Qed.
End GibbsReachable.

(** * Further properties of the ledger *)

Section LedgerOperations.
Context {G D : Type} `{Double D, Constants D, Random G D}.
Implicit Type st : chain G D.
Implicit Type ds : dataset.

(** [remove_item_from_table] on an item of a reachable state returns; it
    returns [true] exactly when the item was the last one at its table, and
    then the table is erased from every container; otherwise the size of
    the table goes down by one and the set of tables and the parameters
    stay.  The sizes of the other tables are untouched. *)
Theorem remove_item_from_table_effect ds st item table :
  reachable ds st ->
  seating_arrangement st !! item = Some table ->
  table ≠ UNASSIGNED ->
  exists deleted st',
    remove_item_from_table ds item table st = Ret (deleted, st') /\
    seating_arrangement st'
    = <[item := UNASSIGNED]> (seating_arrangement st) /\
    (deleted = true <-> seated (seating_arrangement st) table = 1) /\
    (deleted = true ->
     (table ∉ extant_tables st') /\ table_sizes st' !! table = None /\
     parameters st' !! table = None /\ trial_lookup st' !! table = None /\
     num_used_skills st' = (num_used_skills st - 1)%Z) /\
    (deleted = false ->
     table_sizes st' !! table
     = Some (Z.of_nat (seated (seating_arrangement st) table) - 1)%Z /\
     extant_tables st' = extant_tables st /\
     parameters st' = parameters st /\
     num_used_skills st' = num_used_skills st) /\
    (forall t', t' ≠ table -> table_sizes st' !! t' = table_sizes st !! t').
Proof.
  intros (Hwf & _ & Hinv & _ & _)%reachable_inv Hitem Hne.
  assert (0 < seated (seating_arrangement st) table) as Hpos.
  { apply seated_pos, list_elem_of_lookup. eauto. }
  destruct (decide (seated (seating_arrangement st) table = 1)) as [Hone|Hmany].
  - destruct (remove_last_ok ds st item table Hwf Hinv Hitem Hne Hone)
      as [Hrun _].
    eexists true, _. split; [exact Hrun|]. simpl. split_and!; try done.
    + intros _. split_and!; try done;
        try (by apply lookup_delete_eq). set_solver.
    + intros t' Ht'. by apply lookup_delete_ne.
  - destruct (remove_shared_ok ds st item table Hwf Hinv Hitem Hne)
      as (tl & Hrun & _); [lia|].
    eexists false, _. split; [exact Hrun|]. simpl. split_and!; try done.
    + intros _. split_and!; try done. by rewrite lookup_insert_eq.
    + intros t' Ht'. by apply lookup_insert_ne.
Qed.

(** The loop of the existing-table branch of [assign_item_to_table]
    returns whenever the trials of its students are there. *)
Lemma assign_students_total ds item t students
    (tl : gmap nat (gmap nat (list nat))) :
  (forall s, s ∈ students -> exists ts, trials_of ds s item = Ret ts) ->
  exists tl', for_each students (assign_student ds item t) tl = Ret tl'.
Proof.
  revert tl. induction students as [|s students IH]; intros tl Hts; simpl.
  - eauto.
  - destruct (Hts s) as [ts Hs]; [by left|].
    unfold assign_student at 1. rewrite Hs. simpl.
    destruct (default ∅ (tl !! t) !! s); simpl;
      apply IH; intros s' Hs'; apply Hts; by right.
Qed.

(** With an item unseated there are fewer tables than items. *)
Lemma sizes_bound_unseated ds st item :
  ledger_inv ds st ->
  seating_arrangement st !! item = Some UNASSIGNED ->
  size (table_sizes st) < num_items ds.
Proof.
  intros Hinv Hitem.
  pose proof (take_drop_middle _ _ _ Hitem) as Hsplit.
  pose proof (sizes_bound (table_sizes st)
                (take item (seating_arrangement st)
                 ++ drop (S item) (seating_arrangement st))) as Hbound.
  assert (Hlen : num_items ds
                 = length (take item (seating_arrangement st))
                   + S (length (drop (S item) (seating_arrangement st)))).
  { rewrite <- (inv_seating_len _ _ Hinv).
    apply (f_equal length) in Hsplit. rewrite length_app in Hsplit.
    simpl in Hsplit. lia. }
  rewrite length_app in Hbound.
  enough (size (table_sizes st)
          <= length (take item (seating_arrangement st))
             + length (drop (S item) (seating_arrangement st))) by lia.
  apply Hbound. intros table. rewrite (inv_sizes _ _ Hinv table).
  assert (Hseated : table ≠ UNASSIGNED ->
            seated (seating_arrangement st) table
            = seated (take item (seating_arrangement st)
                      ++ drop (S item) (seating_arrangement st)) table).
  { intros Hne. rewrite <- Hsplit at 1. unfold seated.
    rewrite !List.filter_app. simpl.
    destruct (Nat.eqb_spec table UNASSIGNED); [done|].
    by rewrite !length_app. }
  destruct (decide (table = UNASSIGNED)) as [->|Hne].
  - rewrite !bool_decide_eq_false_2; [done|tauto|tauto].
  - by rewrite (Hseated Hne).
Qed.

(** The final assertion of [assign_item_to_table] checks [is_new_table]:
    for an unseated item of a reachable state the call returns when the
    flag says whether the table is new, and stops on the assertion when the
    flag is wrong. *)
Theorem assign_item_to_table_checks_flag ds st item table :
  reachable ds st ->
  seating_arrangement st !! item = Some UNASSIGNED ->
  table ≠ UNASSIGNED ->
  (exists st',
      assign_item_to_table ds item table
        (bool_decide (table ∉ extant_tables st)) st = Ret st' /\
      seating_arrangement st' = <[item := table]> (seating_arrangement st)) /\
  assign_item_to_table ds item table (bool_decide (table ∈ extant_tables st)) st
  = Fail AssertionFailed.
Proof.
  intros (Hwf & _ & Hinv & _ & _)%reachable_inv Hitem Hne.
  pose proof (lookup_lt_Some _ _ _ Hitem) as Hlt.
  destruct (ledger_students _ _ _ Hwf Hinv Hlt) as [students Hstudents].
  destruct (wf_students _ Hwf _ _ Hstudents) as [Hnd _].
  assert (Hts : forall s, s ∈ students -> exists ts, trials_of ds s item = Ret ts).
  { intros s Hs. destruct (wf_trials_of _ _ _ _ Hwf Hstudents Hs)
      as (items & _ & _ & _ & _ & Hts). eauto. }
  pose proof (sizes_bound_unseated _ _ _ Hinv Hitem) as Hsizes.
  pose proof (wf_items_bound _ Hwf) as Hbound.
  rewrite (inv_extant _ _ Hinv).
  destruct (decide (table ∈ dom (table_sizes st))) as [Hin|Hout].
  - rewrite (bool_decide_eq_false_2 (table ∉ _)) by tauto.
    rewrite (bool_decide_eq_true_2 (table ∈ _)) by done. split.
    + destruct (assign_extant_ok ds st item table Hwf Hinv Hitem Hin)
        as (tl & Hrun & _). eexists. split; [exact Hrun|done].
    + destruct (seed_students_run ds item students ∅ Hnd Hts)
        as (inner & Hseed & _).
      unfold assign_item_to_table.
      destruct (draw_bkt_param_prior (generator st)) as [new_params g].
      unfold vec_set. rewrite decide_True by done. simpl.
      unfold vec_at at 1. rewrite Hstudents. simpl. rewrite Hseed. simpl.
      apply elem_of_dom in Hin as [n Hn].
      rewrite map_size_insert_Some by eauto.
      rewrite (inv_num_used _ _ Hinv), wrap64_small by lia.
      rewrite (proj2 (Z.eqb_neq _ _)) by lia. done.
  - rewrite (bool_decide_eq_true_2 (table ∉ _)) by done.
    rewrite (bool_decide_eq_false_2 (table ∈ _)) by done. split.
    + destruct (assign_new_ok ds st item table Hwf Hinv Hitem Hout Hne)
        as (inner & Hrun & _). eexists. split; [exact Hrun|done].
    + destruct (assign_students_total ds item table students (trial_lookup st)
                  Hts) as (tl' & Hloop).
      unfold assign_item_to_table.
      unfold vec_set. rewrite decide_True by done. simpl.
      unfold vec_at at 1. rewrite Hstudents. simpl. rewrite Hloop. simpl.
      apply not_elem_of_dom in Hout.
      rewrite map_size_insert_None by done.
      rewrite (inv_num_used _ _ Hinv).
      rewrite (proj2 (Z.eqb_neq _ _)) by lia. done.
Qed.




End LedgerOperations.

(** * Further properties of the Gibbs step *)

Section GibbsProperties.
Context {G D : Type} `{Double D, Constants D, Random G D}.
Implicit Type st : chain G D.
Implicit Type ds : dataset.

(** When [gibbs_resample_skill] returns, from a reachable state in which
    every item has a table, the item sits at an extant table, every other
    item sits where it sat, the recorded samples are untouched, and the
    state is again reachable with every item seated. *)
Theorem gibbs_resample_skill_moves_one_item ds st (item : nat) st' :
  reachable ds st -> settled st ->
  gibbs_resample_skill ds item st = Ret st' ->
  reachable ds st' /\ settled st' /\
  (exists table,
      table ∈ extant_tables st' /\
      seating_arrangement st' !! item = Some table) /\
  (forall other, other ≠ item ->
     seating_arrangement st' !! other = seating_arrangement st !! other) /\
  pRT_samples st' = pRT_samples st /\
  skill_label_samples st' = skill_label_samples st /\
  train_ll_samples st' = train_ll_samples st.
Proof.
  intros Hreach Hsettled Hrun.
  assert (Hlt : item < length (seating_arrangement st)).
  { unfold gibbs_resample_skill in Hrun.
    apply obind_ret in Hrun as (cur & Hcur%vec_at_ret & _).
    by eapply lookup_lt_Some. }
  destruct (gibbs_resample_skill_step _ _ _ _ Hreach Hsettled Hrun)
    as (Hreach' & (table & Hne & Hext & Hseat) & Hp & Hl & Ht).
  split_and!; try done.
  - unfold settled. rewrite Hseat. by apply Forall_insert.
  - exists table. split; [done|]. rewrite Hseat.
    by apply list_lookup_insert_eq.
  - intros other Hother. rewrite Hseat. by apply list_lookup_insert_ne.
Qed.

(** The resweep of [run_mcmc] keeps the chain among the reachable states
    with every item seated, and does not touch the recorded samples. *)
Theorem resample_partition_keeps_seated ds st st' :
  reachable ds st -> settled st ->
  resample_partition ds st = Ret st' ->
  reachable ds st' /\ settled st' /\
  length (seating_arrangement st') = length (seating_arrangement st) /\
  pRT_samples st' = pRT_samples st /\
  skill_label_samples st' = skill_label_samples st /\
  train_ll_samples st' = train_ll_samples st.
Proof.
  intros Hreach Hsettled. unfold resample_partition.
  destruct (shuffle (all_items st) (generator st)) as [items g].
  set (st0 := set_all_items items (set_generator g st)).
  assert (Hreach0 : reachable ds st0).
  { by apply reach_shuffle, reach_generator. }
  assert (Hinit : settled st0 /\
                  length (seating_arrangement st0)
                  = length (seating_arrangement st) /\
                  same_samples st st0) by done.
  clearbody st0. simpl.
  generalize (all_items st0). intros l. revert st0 Hreach0 Hinit.
  induction l as [|item l IH]; intros st0 Hreach0 (Hs0 & Hlen0 & Hsame0) Hrun;
    simpl in Hrun.
  - injection Hrun as <-. destruct Hsame0 as (? & ? & ?). done.
  - apply obind_ret in Hrun as (st1 & Hstep & Hrun).
    destruct (gibbs_resample_skill_step _ _ _ _ Hreach0 Hs0 Hstep)
      as (Hreach1 & (table & Hne & _ & Hseat) & Hsame1).
    apply (IH st1); [done| |done]. split_and!.
    + unfold settled. rewrite Hseat. by apply Forall_insert.
    + by rewrite Hseat, length_insert.
    + by eapply same_samples_trans.
Qed.
End GibbsProperties.

Section GibbsWitnesses.
#[local] Existing Instance Z_Double.
#[local] Existing Instance demo_Constants.
#[local] Existing Instance demo_Random.

Lemma demo_settled : settled demo_chain.
Proof.
  assert (Hseating : seating_arrangement demo_chain = [1; 1; 7])
    by (vm_compute; reflexivity).
  unfold settled. rewrite Hseating. by repeat constructor.
Qed.

Lemma demo_resampled_run :
  gibbs_resample_skill demo_dataset 2 demo_chain = Ret demo_resampled.
Proof. vm_compute. reflexivity. Qed.

Lemma demo_reswept_run :
  resample_partition demo_dataset demo_chain = Ret demo_reswept.
Proof. vm_compute. reflexivity. Qed.

Lemma gibbs_resample_skill_moves_one_item_witness :
  reachable demo_dataset demo_resampled /\ settled demo_resampled /\
  (exists table,
      table ∈ extant_tables demo_resampled /\
      seating_arrangement demo_resampled !! 2 = Some table) /\
  (forall other, other ≠ 2 ->
     seating_arrangement demo_resampled !! other
     = seating_arrangement demo_chain !! other) /\
  pRT_samples demo_resampled = pRT_samples demo_chain /\
  skill_label_samples demo_resampled = skill_label_samples demo_chain /\
  train_ll_samples demo_resampled = train_ll_samples demo_chain.
Proof.
  exact (gibbs_resample_skill_moves_one_item demo_dataset demo_chain 2
           demo_resampled demo_reachable demo_settled demo_resampled_run).
Defined.

Lemma resample_partition_keeps_seated_witness :
  reachable demo_dataset demo_reswept /\ settled demo_reswept /\
  length (seating_arrangement demo_reswept)
  = length (seating_arrangement demo_chain) /\
  pRT_samples demo_reswept = pRT_samples demo_chain /\
  skill_label_samples demo_reswept = skill_label_samples demo_chain /\
  train_ll_samples demo_reswept = train_ll_samples demo_chain.
Proof.
  exact (resample_partition_keeps_seated demo_dataset demo_chain demo_reswept
           demo_reachable demo_settled demo_reswept_run).
Defined.
End GibbsWitnesses.

Section LedgerWitnesses.
#[local] Existing Instance Z_Double.
#[local] Existing Instance demo_Constants.
#[local] Existing Instance demo_Random.

Lemma demo_unseated_run :
  remove_item_from_table demo_dataset 0 1 demo_chain
  = Ret (false, demo_unseated).
Proof. vm_compute. reflexivity. Qed.

Lemma demo_unseated_reachable : reachable demo_dataset demo_unseated.
Proof.
  eapply (reach_remove demo_dataset demo_chain 0 1);
    [exact demo_reachable| |unfold UNASSIGNED; lia|exact demo_unseated_run].
  vm_compute. reflexivity.
Qed.

Lemma remove_item_from_table_effect_witness :
  exists deleted st',
    remove_item_from_table demo_dataset 2 7 demo_chain = Ret (deleted, st') /\
    (deleted = true <-> seated (seating_arrangement demo_chain) 7 = 1).
Proof.
  destruct (remove_item_from_table_effect demo_dataset demo_chain 2 7)
    as (deleted & st' & Hrun & _ & Hdel & _).
  - exact demo_reachable.
  - vm_compute. reflexivity.
  - unfold UNASSIGNED. lia.
  - exists deleted, st'. split; [exact Hrun | exact Hdel].
Defined.

Lemma assign_item_to_table_checks_flag_witness :
  (exists st',
      assign_item_to_table demo_dataset 0 7
        (bool_decide (7 ∉ extant_tables demo_unseated)) demo_unseated
      = Ret st' /\
      seating_arrangement st'
      = <[0 := 7]> (seating_arrangement demo_unseated)) /\
  assign_item_to_table demo_dataset 0 7
    (bool_decide (7 ∈ extant_tables demo_unseated)) demo_unseated
  = Fail AssertionFailed.
Proof.
  apply (assign_item_to_table_checks_flag demo_dataset demo_unseated 0 7).
  - exact demo_unseated_reachable.
  - vm_compute. reflexivity.
  - unfold UNASSIGNED. lia.
Defined.


End LedgerWitnesses.

(** * Further properties of the likelihood engine *)

(** A loop that returns has run its body at every index. *)
Lemma for_range_ret_body {St} (body : nat -> St -> outcome St) (n : nat)
    (s0 s' : St) :
  for_range n body s0 = Ret s' ->
  forall k, k < n -> exists a a', body k a = Ret a'.
Proof.
  apply (for_range_inv
           (fun j _ => forall k, k < j -> exists a a', body k a = Ret a')).
  - intros k Hk. lia.
  - intros j s s1 _ IH Hbody k Hk.
    destruct (decide (k = j)) as [->|Hne]; [eauto|]. apply IH. lia.
Qed.

Section LikelihoodEdges.
Context {G D : Type} `{Double D, Constants D, Random G D}.
Implicit Type st : chain G D.
Implicit Type ds : dataset.

(** On a table that does not exist the two versions of
    [skill_log_likelihood] differ: the cached one returns 0.0, the
    from-scratch one throws [std::out_of_range]. *)
Theorem skill_log_likelihood_dead_table ds st table
    (affected_students first_exposures : list nat)
    (init_p_hat : list (gmap nat D)) :
  reachable ds st ->
  table ∉ extant_tables st ->
  skill_log_likelihood_cached ds table affected_students first_exposures
    init_p_hat st = Ret 0%D /\
  skill_log_likelihood ds table affected_students first_exposures st
  = Fail OutOfRange.
Proof.
  intros (_ & _ & Hinv & _ & _)%reachable_inv Hdead.
  rewrite (inv_extant _ _ Hinv) in Hdead.
  pose proof Hdead as Hparams. rewrite <- (inv_parameters _ _ Hinv) in Hparams.
  apply not_elem_of_dom in Hdead, Hparams. split.
  - unfold skill_log_likelihood_cached. rewrite Hdead.
    by rewrite bool_decide_eq_true_2.
  - unfold skill_log_likelihood, map_at. by rewrite Hparams.
Qed.

(** For an affected student without a trial of the skill the two versions
    differ as well: the from-scratch one does not return (it looks the
    student up with [at]), the cached one skips the student. *)
Theorem skill_log_likelihood_student_without_trials ds st table
    (affected_students first_exposures : list nat)
    (k student : nat) (by_student : gmap nat (list nat)) :
  affected_students !! k = Some student ->
  trial_lookup st !! table = Some by_student ->
  by_student !! student = None ->
  (forall r,
      skill_log_likelihood ds table affected_students first_exposures st
      ≠ Ret r) /\
  (forall params init_p_hat acc,
      cached_student ds st table params affected_students first_exposures
        init_p_hat k acc = Ret acc).
Proof.
  intros Hk Htable Hstudent. split.
  - intros r Hrun. unfold skill_log_likelihood in Hrun.
    apply obind_ret in Hrun as (params & _ & Hrun).
    apply obind_ret in Hrun as (total & Hloop & _).
    destruct (for_range_ret_body _ _ _ _ Hloop k) as (a & a' & Hbody).
    { by eapply lookup_lt_Some. }
    unfold scratch_student, vec_at in Hbody. rewrite Hk in Hbody.
    simpl in Hbody.
    apply obind_ret in Hbody as (start & _ & Hbody).
    apply obind_ret in Hbody as (x & Hx & _).
    unfold scratch_student_log_lik in Hx.
    apply obind_ret in Hx as (recall_items & _ & Hx).
    unfold map_at in Hx. rewrite Htable in Hx. simpl in Hx.
    by rewrite Hstudent in Hx.
  - intros params init_p_hat acc.
    unfold cached_student, vec_at, map_at. rewrite Hk, Htable. simpl.
    by rewrite Hstudent.
Qed.
End LikelihoodEdges.

Section LikelihoodEdgeWitnesses.
#[local] Existing Instance Z_Double.
#[local] Existing Instance demo_Constants.
#[local] Existing Instance demo_Random.

Lemma skill_log_likelihood_dead_table_witness :
  skill_log_likelihood_cached (G := nat) demo_dataset 5 [0; 1] [0; 0] []
    demo_chain = Ret 0%Z /\
  skill_log_likelihood demo_dataset 5 [0; 1] [0; 0] demo_chain
  = Fail OutOfRange.
Proof.
  apply (@skill_log_likelihood_dead_table nat Z Z_Double demo_Constants
           demo_Random demo_dataset demo_chain 5 [0; 1] [0; 0] []).
  - exact demo_reachable.
  - vm_compute. discriminate.
Defined.

Lemma skill_log_likelihood_student_without_trials_witness :
  (forall r,
      skill_log_likelihood (G := nat) demo_dataset 7 [0] [0] demo_chain
      ≠ Ret r) /\
  (forall params init_p_hat acc,
      cached_student (G := nat) demo_dataset demo_chain 7 params [0] [0]
        init_p_hat 0 acc = Ret acc).
Proof.
  apply (@skill_log_likelihood_student_without_trials nat Z Z_Double
           demo_Constants demo_dataset demo_chain 7 [0] [0] 0 0
           {[1 := [1]]}).
  - reflexivity.
  - vm_compute. reflexivity.
  - vm_compute. reflexivity.
Defined.
End LikelihoodEdgeWitnesses.

(** * Further properties of the constructor *)

Lemma seated_one_unique (l : list nat) (t i j : nat) :
  seated l t = 1 -> l !! i = Some t -> l !! j = Some t -> i = j.
Proof.
  intros Hone Hi Hj. destruct (decide (i = j)) as [|Hne]; [done|exfalso].
  pose proof (seated_insert l i t (S t) t Hi) as Hins.
  rewrite bool_decide_eq_true_2 in Hins by done.
  rewrite bool_decide_eq_false_2 in Hins by lia.
  assert (0 < seated (<[i := S t]> l) t); [|lia].
  apply seated_pos, list_elem_of_lookup. exists j.
  by rewrite list_lookup_insert_ne.
Qed.

Section ConstructorPartition.
Context {G D : Type} `{Double D, Constants D, Random G D}.
Implicit Type st : chain G D.
Implicit Type ds : dataset.

(** Scoring an item as a singleton skill leaves it where it sat, or, when
    it sat alone, at a table with an id that no item has. *)
Lemma singleton_item_seating ds st item st' :
  dataset_wf ds -> ledger_inv ds st -> fresh_inv st -> settled st ->
  singleton_item ds item st = Ret st' ->
  exists cur t',
    seating_arrangement st !! item = Some cur /\
    seating_arrangement st' = <[item := t']> (seating_arrangement st) /\
    (t' = cur \/
     (seated (seating_arrangement st) cur = 1 /\
      t' ∉ seating_arrangement st)).
Proof.
  intros Hwf Hinv Hfresh Hsettled Hrun. unfold singleton_item in Hrun.
  inv_ret Hrun. simpl_ret.
  rename a1 into cur, b into deleted, c into st1, a3 into st2,
    c0 into st3, l into lps, b0 into deleted', c1 into st4, Hlt into Hrows.
  assert (cur ≠ UNASSIGNED) as Hcur.
  { unfold settled in Hsettled. rewrite Forall_forall in Hsettled.
    apply Hsettled. apply list_elem_of_lookup. eauto. }
  pose proof (lookup_lt_Some _ _ _ Ha1) as Hlt.
  destruct (remove_step _ _ _ _ _ _ Hwf Hinv Ha1 Hcur Ha2)
    as (Hinv1 & Hseat1 & Hdel1 & Hdom1 & _ & _ & Hever1 & Hsame1).
  destruct Hfresh as [Hu Hfresh].
  assert (Hsub1 : dom (table_sizes st1) ⊆ dom (table_sizes st)).
  { rewrite Hdom1. destruct deleted; set_solver. }
  set (tmp := tables_ever_instantiated st1) in *.
  assert (Htmp : (tmp ∉ dom (table_sizes st1)) /\ (tmp ≠ UNASSIGNED)).
  { subst tmp. rewrite Hever1. split; [|lia].
    intros Hin. apply Hsub1, Hfresh in Hin. lia. }
  destruct Htmp as [Htmp Htmpu].
  assert (Hitem1 : seating_arrangement st1 !! item = Some UNASSIGNED).
  { rewrite Hseat1. by apply list_lookup_insert_eq. }
  destruct (assign_new_step ds (set_tables_ever_instantiated (S tmp) st1)
              item tmp st2 Hwf)
    as (Hinv2 & Hseat2 & Hdom2 & Hsize2 & _ & Hever2 & Hsame2); try done.
  { by apply (ledger_inv_frame ds st1). }
  simpl in *.
  assert (Htmp2 : tmp ∈ dom (parameters st2)).
  { rewrite (inv_parameters _ _ Hinv2), Hdom2. set_solver. }
  destruct (singleton_scores_loop _ _ _ _ _ _ _ _ Htmp2 Ha4) as [Hl3 Hsame3].
  pose proof (same_ledger_inv _ _ _ Hl3 Hinv2) as Hinv3.
  destruct Hl3 as (Hseat3 & _ & Hts3 & _ & _ & Hever3 & _).
  set (st3' := set_singleton_skill_data_lp a5 st3) in *.
  assert (Hinv3' : ledger_inv ds st3') by by apply (ledger_inv_frame ds st3).
  assert (Hitem3 : seating_arrangement st3' !! item = Some tmp).
  { simpl. rewrite Hseat3, Hseat2. apply list_lookup_insert_eq.
    by rewrite Hseat1, length_insert. }
  destruct (remove_step _ _ _ _ _ _ Hwf Hinv3' Hitem3 Htmpu Ha6)
    as (Hinv4 & Hseat4 & Hdel4 & Hdom4 & _ & _ & Hever4 & Hsame4).
  assert (deleted' = true) as ->.
  { apply Hdel4. pose proof (inv_sizes _ _ Hinv3 tmp) as Hs.
    rewrite Hts3, Hsize2 in Hs. simpl.
    case_bool_decide; [|done]. injection Hs as Hs. lia. }
  simpl in Hseat4, Hdom4, Hever4.
  rewrite Hts3, Hdom2 in Hdom4.
  assert (Hdom4' : dom (table_sizes st4) = dom (table_sizes st1))
    by set_solver.
  assert (Hseat4' : seating_arrangement st4
                    = <[item := UNASSIGNED]> (seating_arrangement st)).
  { rewrite Hseat4, Hseat3, Hseat2, Hseat1.
    by rewrite !list_insert_insert_eq. }
  assert (Hitem4 : seating_arrangement st4 !! item = Some UNASSIGNED).
  { rewrite Hseat4'. by apply list_lookup_insert_eq. }
  assert (Hever4' : tables_ever_instantiated st4 = S tmp) by congruence.
  exists cur. destruct deleted.
  - destruct (assign_new_step ds
                (set_tables_ever_instantiated
                   (S (tables_ever_instantiated st4)) st4)
                item (tables_ever_instantiated st4) st' Hwf)
      as (Hinv5 & Hseat5 & _); try done.
    { by apply (ledger_inv_frame ds st4). }
    { simpl. rewrite Hdom4', Hever4'. intros Hin.
      apply Hsub1, Hfresh in Hin. subst tmp. lia. }
    { rewrite Hever4'. done. }
    simpl in Hseat5. exists (tables_ever_instantiated st4).
    split; [done|]. split.
    + by rewrite Hseat5, Hseat4', list_insert_insert_eq.
    + right. split; [by apply Hdel1|].
      intros Hin. rewrite Hever4' in Hin.
      assert (S tmp ∈ dom (table_sizes st)) as Hd.
      { apply (ledger_dom_seated _ _ _ Hinv). split; [done|].
        by apply seated_pos. }
      apply Hfresh in Hd. subst tmp. lia.
  - assert (Hin : cur ∈ dom (table_sizes st4)).
    { rewrite Hdom4', Hdom1.
      apply (ledger_dom_seated _ _ _ Hinv). split; [done|].
      apply seated_pos. apply list_elem_of_lookup. eauto. }
    destruct (assign_extant_step _ _ _ _ _ Hwf Hinv4 Hitem4 Hin Hrun)
      as (Hinv5 & Hseat5 & _).
    exists cur. split; [done|]. split; [|by left].
    by rewrite Hseat5, Hseat4', list_insert_insert_eq.
Qed.
Lemma seats_by_label_move (provided l : list nat) (item cur t' : nat) :
  l !! item = Some cur ->
  (t' = cur \/ (seated l cur = 1 /\ t' ∉ l)) ->
  seats_by_label provided l ->
  seats_by_label provided (<[item := t']> l).
Proof.
  intros Hitem [->|[Hone Hfresh]] Hpart; [by rewrite list_insert_id|].
  pose proof (lookup_lt_Some _ _ _ Hitem) as Hlt.
  intros i j li lj ti tj Hli Hlj Hti Htj.
  destruct (decide (i = item)) as [->|Hi], (decide (j = item)) as [->|Hj].
  - rewrite list_lookup_insert_eq in Hti, Htj by done.
    split; intros _; congruence.
  - rewrite list_lookup_insert_eq in Hti by done.
    rewrite list_lookup_insert_ne in Htj by done. injection Hti as <-.
    split.
    + intros ->. exfalso. apply Hfresh, list_elem_of_lookup. eauto.
    + intros Hl. apply (Hpart item j li lj cur tj) in Hl; try done.
      subst tj. exfalso. apply Hj. symmetry.
      by apply (seated_one_unique l cur).
  - rewrite list_lookup_insert_ne in Hti by done.
    rewrite list_lookup_insert_eq in Htj by done. injection Htj as <-.
    split.
    + intros <-. exfalso. apply Hfresh, list_elem_of_lookup. eauto.
    + intros Hl. apply (Hpart i item li lj ti cur) in Hl; try done.
      subst ti. exfalso. apply Hi. by apply (seated_one_unique l cur).
  - rewrite list_lookup_insert_ne in Hti, Htj by done.
    by apply (Hpart i j).
Qed.

(** The second half of the constructor seats the items by expert label. *)
Lemma initial_chain_partition ds st0 st :
  dataset_wf ds -> ledger_inv ds st0 ->
  seating_arrangement st0 = replicate (num_items ds) UNASSIGNED ->
  tables_ever_instantiated st0 = UNASSIGNED + 1 ->
  (Z.of_nat (foldr Nat.max 0%nat (provided_skill_assignments ds)) + 1 < 2 ^ 64)%Z ->
  num_expert_provided_skills ds
  = 1 + foldr Nat.max 0 (provided_skill_assignments ds) ->
  initial_chain ds st0 = Ret st ->
  seats_by_label (provided_skill_assignments ds) (seating_arrangement st) /\
  (use_expert_labels ds = true ->
   forall item, item < num_items ds ->
     exists label, provided_skill_assignments ds !! item = Some label /\
                   seating_arrangement st !! item = Some (1 + label)).
Proof.
  intros Hwf Hinv0 Hseat0 Hever0 Hmax Hexpert Hrun.
  pose proof Hrun as Hrun0. unfold initial_chain in Hrun.
  inv_ret Hrun. rename c into st1.
  destruct (seat_expert_loop _ _ _ _ Hwf Hinv0 Hseat0 Hmax Ha)
    as (Hinv1 & Hsettled1 & Hever1 & Hsame1 & Hlabels).
  assert (Hpart1 : seats_by_label (provided_skill_assignments ds)
                     (seating_arrangement st1)).
  { intros i j li lj ti tj Hli Hlj Hti Htj.
    destruct (Hlabels i) as (li' & Hli' & Hti').
    { apply lookup_lt_Some in Hti. by rewrite (inv_seating_len _ _ Hinv1) in Hti. }
    destruct (Hlabels j) as (lj' & Hlj' & Htj').
    { apply lookup_lt_Some in Htj. by rewrite (inv_seating_len _ _ Hinv1) in Htj. }
    assert (ti = 1 + li) by congruence. assert (tj = 1 + lj) by congruence.
    lia. }
  destruct (use_expert_labels ds) eqn:Huse.
  { injection Hrun as <-. simpl. split; [done|]. intros _. exact Hlabels. }
  split; [|done].
  set (st1' := set_tables_ever_instantiated
                 (tables_ever_instantiated st1
                  + (num_expert_provided_skills ds + 1)) st1) in *.
  assert (Hinv1' : ledger_inv ds st1') by by apply (ledger_inv_frame ds st1).
  assert (Hfresh1 : fresh_inv st1').
  { split; simpl; [unfold UNASSIGNED; lia|].
    intros t Ht. apply (ledger_dom_seated _ _ _ Hinv1) in Ht as [_ Hpos].
    apply seated_pos, list_elem_of_lookup in Hpos as [j Hj].
    destruct (Hlabels j) as (label & Hl & Hs).
    { apply lookup_lt_Some in Hj. by rewrite (inv_seating_len _ _ Hinv1) in Hj. }
    rewrite Hj in Hs. injection Hs as ->.
    assert (label <= foldr Nat.max 0 (provided_skill_assignments ds)); [|lia].
    apply foldr_max_ge. apply list_elem_of_lookup. eauto. }
  destruct (draw_prior_samples _ _) as [priors g'] eqn:Hdraw.
  set (st2 := set_prior_samples priors _) in Hrun.
  pose (Q := fun (k : nat) (s : chain G D) =>
    ledger_inv ds s /\ fresh_inv s /\ settled s /\
    seats_by_label (provided_skill_assignments ds) (seating_arrangement s)).
  assert (HQ : Q (num_items ds) st); [|by destruct HQ as (? & ? & ? & ?)].
  eapply (for_range_inv Q _ _ st2); [| |exact Hrun].
  - split_and!; try done. by apply (ledger_inv_frame ds st1').
  - intros k s s1 _ (Hi & Hf & Hs & Hp) Hbody.
    destruct (singleton_item_step _ _ _ _ Hwf Hi Hf Hs Hbody)
      as (? & ? & ? & ? & _).
    destruct (singleton_item_seating _ _ _ _ Hwf Hi Hf Hs Hbody)
      as (cur & t' & Hcur & Hseat & Hcase).
    split_and!; try done. rewrite Hseat.
    by apply (seats_by_label_move _ _ _ cur).
Qed.

(** The constructor seats the items by their expert labels, when these
    fit ([labels_fit]): two items share a table exactly when they share
    their expert label; when the expert labels are used as they are ([beta]
    is 1), the table of an item is its label plus one; and the counter
    [tables_ever_instantiated] ends below [2 ^ 64], so that no table id of
    the constructor has wrapped around. *)
Theorem constructor_seats_expert_partition (g : G) (train : gset nat)
    (recall : list (list bool)) (items : list (list nat))
    (provided : list nat) (beta init_alpha_prime : D)
    (n_students n_items n_subsamples : nat) ds st :
  (Z.of_nat n_items < 2 ^ 64)%Z ->
  Forall (fun l : list nat => (Z.of_nat (length l) < 2 ^ 64)%Z) items ->
  labels_fit provided n_items ->
  MixtureWCRP g train recall items provided beta init_alpha_prime
    n_students n_items n_subsamples = Ret (ds, st) ->
  length (seating_arrangement st) = n_items /\
  seats_by_label provided (seating_arrangement st) /\
  (equals_one beta = true ->
   forall item, item < n_items ->
     exists label, provided !! item = Some label /\
                   seating_arrangement st !! item = Some (1 + label)) /\
  (Z.of_nat (tables_ever_instantiated st) < 2 ^ 64)%Z.
Proof.
  intros Hbound Hlens Hfit Hrun.
  destruct (constructed_inv _ _ _ _ _ _ _ _ _ _ _ _ Hbound Hlens Hfit Hrun)
    as (Hwf & _ & (Hinv & _) & _ & _ & Hcounter).
  apply labels_fit_max in Hfit.
  unfold MixtureWCRP in Hrun. inv_ret Hrun. subst.
  rename a3 into samples.
  destruct (index_dataset_fields _ _ _ _ _ _ _ _ _ Hfit Ha2)
    as (Hn & _ & _ & Hp & Hexpert).
  assert (Huse : use_expert_labels ds = equals_one beta).
  { unfold index_dataset in Ha2. inv_ret Ha2. by subst ds. }
  destruct (blank_chain_fields ds g samples beta init_alpha_prime)
    as (Hseat0 & Hever0 & _).
  rewrite <- Hp in Hexpert, Hfit.
  destruct (initial_chain_partition ds _ _ Hwf
              (ledger_blank ds g samples beta init_alpha_prime)
              Hseat0 Hever0 Hfit Hexpert Ha4) as [Hpart Hexact].
  rewrite <- Hn, <- Hp. split_and!.
  - apply (inv_seating_len _ _ Hinv).
  - done.
  - rewrite <- Huse. done.
  - done.
Qed.
End ConstructorPartition.

Lemma demo_expert_constructed :
  demo_expert_run = Ret (demo_expert_dataset, demo_expert_chain).
Proof. vm_compute. reflexivity. Qed.

Lemma constructor_seats_expert_partition_witness :
  length (seating_arrangement demo_expert_chain) = 3 /\
  seats_by_label [0; 0; 1] (seating_arrangement demo_expert_chain) /\
  (@equals_one Z Z_Double demo_Constants 1%Z = true ->
   forall item, item < 3 ->
     exists label, [0; 0; 1] !! item = Some label /\
                   seating_arrangement demo_expert_chain !! item
                   = Some (1 + label)) /\
  (Z.of_nat (tables_ever_instantiated demo_expert_chain) < 2 ^ 64)%Z.
Proof.
  apply (@constructor_seats_expert_partition nat Z Z_Double demo_Constants
           demo_Random 0 {[0; 1]}
           [[true; false; true]; [false; true]; [true]]
           [[0; 1; 0]; [1; 2]; [2]] [0; 0; 1] 1%Z 1%Z 3 3 2
           demo_expert_dataset demo_expert_chain).
  - done.
  - repeat constructor.
  - unfold labels_fit. repeat (constructor; [lia|]). constructor.
  - exact demo_expert_constructed.
Defined.

(** * The range of the prior draws *)

Section PriorRange.
Context {G : Type} `{Constants R, Random G R}.

(** With [TOL <= ONEMINUSTOL] and uniform draws from the unit interval,
    every parameter that [draw_bkt_param_prior] draws lies between [TOL]
    and [ONEMINUSTOL]. *)
Theorem draw_bkt_param_prior_range (g : G) :
  (TOL <= ONEMINUSTOL)%R ->
  uniform_in_unit_interval ->
  let params := (draw_bkt_param_prior g).1 in
  (TOL <= psi params <= ONEMINUSTOL)%R /\
  (TOL <= mu params <= ONEMINUSTOL)%R /\
  (TOL <= pi1 params <= ONEMINUSTOL)%R /\
  (TOL <= prop0 params <= ONEMINUSTOL)%R.
Proof.
  intros Htol Hunit. unfold draw_bkt_param_prior.
  pose proof (Hunit g) as H1.
  destruct (sampleUniform01 g) as [u1 g1].
  pose proof (Hunit g1) as H2.
  destruct (sampleUniform01 g1) as [u2 g2].
  pose proof (Hunit g2) as H3.
  destruct (sampleUniform01 g2) as [u3 g3].
  pose proof (Hunit g3) as H4.
  destruct (sampleUniform01 g3) as [u4 g4].
  simpl in *. split_and!; nra.
Qed.
End PriorRange.

Lemma draw_bkt_param_prior_range_witness :
  let params := (@draw_bkt_param_prior nat R R_Double real_Constants
                   half_Random 0).1 in
  (1 / 1000 <= psi params <= 999 / 1000)%R /\
  (1 / 1000 <= mu params <= 999 / 1000)%R /\
  (1 / 1000 <= pi1 params <= 999 / 1000)%R /\
  (1 / 1000 <= prop0 params <= 999 / 1000)%R.
Proof.
  apply (@draw_bkt_param_prior_range nat real_Constants half_Random 0).
  - simpl. lra.
  - intros g. simpl. lra.
Defined.

(** * The filter of knowledge tracing over the reals *)

(** With parameters strictly between 0 and 1 and a belief in the unit
    interval, the predicted probability of a correct response is strictly
    between 0 and 1 and the next belief is in the unit interval again. *)
Lemma bkt_step_unit (params : bkt_parameters R) (p : R) (did_recall : bool) :
  valid_bkt params -> (0 <= p <= 1)%R ->
  let skill_pi1 := pi1 params in
  let skill_pi0 := (skill_pi1 * prop0 params)%R in
  (0 < predict_correct skill_pi0 skill_pi1 p < 1)%R /\
  (0 <= update_belief did_recall skill_pi0 skill_pi1 (mu params) p <= 1)%R /\
  (log_response did_recall skill_pi0 skill_pi1 p < 0)%R.
Proof.
  intros (Hpsi & Hmu & Hpi1 & Hprop0) Hp. simpl.
  set (a := pi1 params) in *. set (b := (a * prop0 params)%R).
  set (m := mu params) in *.
  assert (Hb : (0 < b < a)%R) by (subst b; nra).
  assert (Hpred : (0 < predict_correct b a p < 1)%R).
  { unfold predict_correct. cbn [d_add d_sub d_mul d_of_Z R_Double]. nra. }
  split; [done|]. split.
  - unfold update_belief, update_correct, update_incorrect.
    cbn [d_add d_sub d_mul d_div d_of_Z R_Double].
    destruct did_recall.
    + assert (Hd : (0 < a * p + b * (1 - p))%R) by nra.
      assert (Hc : (0 <= b * (1 - p))%R) by (apply Rmult_le_pos; lra).
      assert (Hn : (0 <= a * p + m * b * (1 - p) <= a * p + b * (1 - p))%R).
      { replace (m * b * (1 - p))%R with (m * (b * (1 - p)))%R by ring.
        nra. }
      split.
      * apply Rmult_le_pos; [lra|]. left. by apply Rinv_0_lt_compat.
      * apply (Rmult_le_reg_r (a * p + b * (1 - p))); [done|].
        unfold Rdiv. rewrite Rmult_assoc, Rinv_l by lra. lra.
    + assert (Hd : (0 < (1 - a) * p + (1 - b) * (1 - p))%R) by nra.
      assert (Hc : (0 <= (1 - b) * (1 - p))%R) by (apply Rmult_le_pos; lra).
      assert (Hn : (0 <= (1 - a) * p + m * (1 - b) * (1 - p)
                    <= (1 - a) * p + (1 - b) * (1 - p))%R).
      { replace (m * (1 - b) * (1 - p))%R
          with (m * ((1 - b) * (1 - p)))%R by ring.
        nra. }
      split.
      * apply Rmult_le_pos; [lra|]. left. by apply Rinv_0_lt_compat.
      * apply (Rmult_le_reg_r ((1 - a) * p + (1 - b) * (1 - p))); [done|].
        unfold Rdiv. rewrite Rmult_assoc, Rinv_l by lra. lra.
  - unfold log_response. cbn [d_log d_sub d_of_Z R_Double].
    rewrite <- ln_1. destruct did_recall; apply ln_increasing; lra.
Qed.

Section RealLikelihood.
Context {G : Type}.
Implicit Type st : chain G R.
Implicit Type ds : dataset.

(** Over the reals, when every item sits at a table whose parameters are
    strictly between 0 and 1, [data_log_likelihood] returns for every
    student: no lookup is out of range, neither assertion fails, and the
    log-likelihood is at most 0. *)
Theorem data_log_likelihood_returns ds st (student start_trial : nat) :
  dataset_wf ds ->
  student < num_students ds ->
  length (seating_arrangement st) = num_items ds ->
  seats_have_valid_parameters st ->
  exists (ll : R) (item_sequence : list nat),
    item_sequences ds !! student = Some item_sequence /\
    data_log_likelihood ds student start_trial st
    = Ret (ll, length item_sequence) /\
    (ll <= 0)%R.
Proof.
  intros Hwf Hstudent Hlen [Hseats Hvalid].
  destruct (wf_sequences _ Hwf student Hstudent)
    as (items & recall & pairs & studied & Hitems & Hrecall & _ & _ & _
        & Hbound & _ & Hrel & _).
  destruct (for_range_total
              (fun (k : nat) (acc : R * gmap nat R) =>
                 (acc.1 <= 0)%R /\
                 forall table params,
                   parameters st !! table = Some params ->
                   exists p, acc.2 !! table = Some p /\ (0 <= p <= 1)%R)
              (data_trial recall items st start_trial) (length items)
              (0%R, psi <$> parameters st))
    as ([ll p_hat] & Hloop & Hll & _).
  - split; [simpl; lra|]. intros table params Hparams. simpl.
    exists (psi params). rewrite lookup_fmap, Hparams. split; [done|].
    destruct (Hvalid _ _ Hparams) as (? & _). lra.
  - intros k [ll p_hat] Hk [Hll Hbeliefs]. simpl in Hll, Hbeliefs.
    destruct (lookup_lt_is_Some_2 items k Hk) as [item Hitem].
    destruct (Hrel _ _ Hitem) as (did_recall & Hdid & _).
    assert (item < num_items ds) as Hlt.
    { rewrite Forall_forall in Hbound. apply Hbound.
      apply list_elem_of_lookup. eauto. }
    destruct (lookup_lt_is_Some_2 (seating_arrangement st) item)
      as [table Htable]; [lia|].
    destruct (Hseats _ _ Htable) as [params Hparams].
    destruct (Hbeliefs _ _ Hparams) as (p & Hp & Hrange).
    destruct (bkt_step_unit params p did_recall (Hvalid _ _ Hparams) Hrange)
      as (_ & Hnext & Hlog).
    unfold data_trial, vec_at, map_at.
    rewrite Hdid, Hitem. simpl. rewrite Htable. simpl.
    rewrite Hparams. simpl. rewrite Hp. simpl.
    eexists. split; [reflexivity|]. simpl. split.
    + destruct (start_trial <=? k); [|done]. simpl in Hlog. lra.
    + intros table' params' Hparams'.
      destruct (decide (table' = table)) as [->|Hne].
      * rewrite lookup_insert_eq. eauto.
      * rewrite lookup_insert_ne by done. eauto.
  - exists ll, items. split; [done|]. split; [|done].
    unfold data_log_likelihood, vec_at. rewrite Hrecall, Hitems. simpl.
    rewrite Hloop. simpl. simpl in Hll.
    by rewrite bool_decide_eq_true_2.
Qed.
End RealLikelihood.

Lemma demo_dataset_wf : dataset_wf demo_dataset.
Proof.
  by destruct (reachable_inv _ _ demo_reachable) as (? & _).
Qed.

Lemma seated_chain_valid (x_log_gamma p : R) :
  (0 < p < 1)%R -> seats_have_valid_parameters (seated_chain x_log_gamma p).
Proof.
  intros Hp. split.
  - intros item table Hitem. simpl in *.
    destruct item as [|[|[|item]]]; simpl in Hitem; try done;
      injection Hitem as <-.
    + by rewrite lookup_insert_eq.
    + by rewrite lookup_insert_eq.
    + rewrite lookup_insert_ne by done. by rewrite lookup_singleton_eq.
  - intros table params Hparams. simpl in Hparams.
    destruct (decide (table = 1)) as [->|H1].
    + rewrite lookup_insert_eq in Hparams. injection Hparams as <-.
      unfold valid_bkt. simpl. lra.
    + rewrite lookup_insert_ne in Hparams by done.
      apply lookup_singleton_Some in Hparams as [_ <-].
      unfold valid_bkt. simpl. lra.
Qed.

Lemma data_log_likelihood_returns_witness :
  exists (ll : R) (item_sequence : list nat),
    item_sequences demo_dataset !! 0 = Some item_sequence /\
    data_log_likelihood demo_dataset 0 1
      (seated_chain (ln (1 / 2)) (1 / 2)%R)
    = Ret (ll, length item_sequence) /\
    (ll <= 0)%R.
Proof.
  apply (data_log_likelihood_returns demo_dataset
           (seated_chain (ln (1 / 2)) (1 / 2)%R) 0 1).
  - exact demo_dataset_wf.
  - vm_compute. lia.
  - cbn [seating_arrangement seated_chain]. vm_compute. reflexivity.
  - apply seated_chain_valid. lra.
Defined.

(** * The log-likelihood of the whole dataset *)

Lemma wrap64_add_l (a b : Z) : wrap64 (wrap64 a + b) = wrap64 (a + b).
Proof. unfold wrap64. by rewrite Z.add_mod_idemp_l. Qed.

Lemma sum_list_with_complement {A} (h : A -> nat) (f g : A -> bool)
    (l : list A) :
  (forall x, f x = negb (g x)) ->
  sum_list_with h (List.filter f l) + sum_list_with h (List.filter g l)
  = sum_list_with h l.
Proof.
  intros Hfg. induction l as [|x l IH]; cbn [List.filter sum_list_with]; [done|].
  rewrite (Hfg x). destruct (g x); cbn [negb sum_list_with]; lia.
Qed.

Section FullLikelihood.
Context {G D : Type} `{HO : DoubleOrder D, !Constants D, !Random G D}.
Implicit Type st : chain G D.
Implicit Type ds : dataset.

(** What [data_log_likelihood] returns when it returns: a log-likelihood
    that passed both assertions, and the length of the sequence. *)
Lemma data_log_likelihood_ret ds st student start_trial ll n :
  data_log_likelihood ds student start_trial st = Ret (ll, n) ->
  (ll <=? 0)%D = true /\ d_isfinite ll = true /\
  exists item_sequence,
    item_sequences ds !! student = Some item_sequence /\
    n = length item_sequence.
Proof.
  intros Hrun. unfold data_log_likelihood in Hrun.
  apply obind_ret in Hrun as (recall & _ & Hrun).
  apply obind_ret in Hrun as (items & Hitems%vec_at_ret & Hrun).
  apply obind_ret in Hrun as (r & _ & Hrun).
  apply obind_ret in Hrun as (? & Hfinite%assert_ret & Hrun).
  apply obind_ret in Hrun as (? & Hsign%assert_ret & [= <- <-]).
  eauto.
Qed.

(** When [full_data_log_likelihood] returns, the log-likelihood is at most
    0 and [trials_included] is the number of trials of the students it
    includes (the training students, or the others), modulo 2^64; every
    student is included by exactly one of the two selections, so that the
    two numbers of trials add up to the number of all trials. *)
Theorem full_data_log_likelihood_counts ds st (is_training : bool) ll n :
  full_data_log_likelihood ds is_training st = Ret (ll, n) ->
  (ll <=? 0)%D = true /\
  n = wrap64 (Z.of_nat (number_of_trials ds (included_students ds is_training)))
  /\
  number_of_trials ds (included_students ds true)
  + number_of_trials ds (included_students ds false)
  = number_of_trials ds (seq 0 (num_students ds)).
Proof using HO.
  intros Hrun.
  assert (Hall : number_of_trials ds (included_students ds true)
                 + number_of_trials ds (included_students ds false)
                 = number_of_trials ds (seq 0 (num_students ds))).
  { unfold included_students, number_of_trials.
    apply sum_list_with_complement. intros s.
    by destruct (bool_decide (s ∈ train_students ds)). }
  enough ((ll <=? 0)%D = true /\
          n = wrap64 (Z.of_nat (number_of_trials ds
                                  (included_students ds is_training))))
    as [? ?] by done.
  clear Hall. unfold full_data_log_likelihood in Hrun.
  set (included := fun student =>
         (is_training && bool_decide (student ∈ train_students ds))
         || (negb is_training
             && negb (bool_decide (student ∈ train_students ds)))) in *.
  pose (P := fun (k : nat) (acc : D * Z) =>
              (acc.1 <=? 0)%D = true /\
              acc.2 = wrap64 (Z.of_nat
                                (number_of_trials ds
                                   (List.filter included (seq 0 k))))).
  enough (HP : P (num_students ds) (ll, n)) by exact HP.
  eapply (for_range_inv P _ _ (0%D, 0%Z)); [| |exact Hrun].
  { split; [apply leb_zero_refl|done]. }
  unfold P.
  intros k [ll0 n0] acc' _ [Hll Hn] Hbody. simpl in Hll, Hn.
  rewrite filter_seq_S. unfold number_of_trials.
  rewrite sum_list_with_app. fold (number_of_trials ds).
  destruct (included k) eqn:Hinc; unfold included in Hinc;
    rewrite Hinc in Hbody.
  - apply obind_ret in Hbody as ([l len] & Hdata & [= <-]). simpl.
    apply data_log_likelihood_ret in Hdata
      as (Hl & _ & items & Hitems & ->).
    split; [by apply add_nonpos|].
    rewrite Hn, wrap64_add_l, Hitems. simpl. f_equal.
    unfold number_of_trials. lia.
  - injection Hbody as <-. simpl. split; [done|].
    rewrite Hn. f_equal. unfold number_of_trials. lia.
Qed.

End FullLikelihood.

Section FullLikelihoodWitnesses.
#[local] Existing Instance Z_Double.
#[local] Existing Instance demo_Constants.
#[local] Existing Instance demo_Random.

Lemma demo_full_train :
  full_data_log_likelihood (G := nat) demo_dataset true demo_tuned
  = Ret ((-4)%Z, 5%Z).
Proof. vm_compute. reflexivity. Qed.

Lemma full_data_log_likelihood_counts_witness :
  ((-4)%Z <=? 0)%D = true /\
  5%Z = wrap64 (Z.of_nat (number_of_trials demo_dataset
                            (included_students demo_dataset true))) /\
  number_of_trials demo_dataset (included_students demo_dataset true)
  + number_of_trials demo_dataset (included_students demo_dataset false)
  = number_of_trials demo_dataset (seq 0 (num_students demo_dataset)).
Proof.
  exact (full_data_log_likelihood_counts (HO := Z_DoubleOrder)
           demo_dataset demo_tuned true (-4)%Z 5%Z demo_full_train).
Defined.
End FullLikelihoodWitnesses.

(** * The seating probability over the reals *)

Lemma for_each_total {A St} (Q : St -> Prop) (body : A -> St -> outcome St)
    (l : list A) (s0 : St) :
  Q s0 ->
  (forall x s, x ∈ l -> Q s -> exists s1, body x s = Ret s1 /\ Q s1) ->
  exists s', for_each l body s0 = Ret s' /\ Q s'.
Proof.
  revert s0. induction l as [|x l IH]; intros s0 H0 Hstep; simpl.
  - eauto.
  - destruct (Hstep x s0) as (s1 & Hbody & H1); [by left|done|].
    rewrite Hbody. simpl. apply IH; [done|].
    intros y s Hy. apply Hstep. by right.
Qed.

(** A sum of positive numbers is at least each of them. *)
Lemma vector_sum_elem (l : list R) (x : R) :
  Forall (fun y => (0 < y)%R) l -> x ∈ l ->
  (0 < x <= vector_sum l)%R.
Proof.
  intros Hpos Hx. rewrite Forall_forall in Hpos. split; [by apply Hpos|].
  assert (Hgen : forall (l : list R) (base : R),
             Forall (fun y => (0 < y)%R) l ->
             (base <= foldl Rplus base l)%R /\
             (forall x, x ∈ l -> (base + x <= foldl Rplus base l)%R)).
  { clear. intros l. induction l as [|y l IH]; intros base Hpos; simpl.
    - split; [lra|]. by intros x ?%not_elem_of_nil.
    - apply Forall_cons in Hpos as [Hy Hpos].
      destruct (IH (base + y)%R Hpos) as [Hge Helem]. split; [lra|].
      intros x [->|Hx]%elem_of_cons; [done|].
      specialize (Helem x Hx). lra. }
  unfold vector_sum. destruct l as [|y l]; [by apply not_elem_of_nil in Hx|].
  cbn [d_add d_of_Z R_Double].
  destruct (Hgen (y :: l) 0%R) as [_ Helem]; [by apply Forall_forall|].
  specialize (Helem x Hx). lra.
Qed.

Section RealSeating.
Context {G : Type}.
Implicit Type st : chain G R.
Implicit Type ds : dataset.

(** In the generative mode [compute_K] returns for every item. *)
Lemma compute_K_generative_returns ds st (item table_id : nat) :
  labels_wf ds ->
  length (seating_arrangement st) = num_items ds ->
  item < num_items ds ->
  exists K : R, compute_K ds item table_id true st = Ret K.
Proof.
  intros Hlabels Hlen Hitem.
  destruct (Hlabels item Hitem) as (label & Hlabel & _).
  destruct (count_loop ds st item table_id true label Hlabels Hlen Hitem Hlabel)
    as (counts & max_count & Hrun & _).
  eexists. apply (compute_K_value ds st item table_id true label counts
                    max_count); [done|done|exact Hrun].
Qed.

(** Over the reals [log_seating_prob] returns a value that is at most 0:
    each item adds the logarithm of one of the positive summands of a sum,
    minus the logarithm of the sum. *)
Theorem log_seating_prob_nonpositive ds st :
  labels_wf ds ->
  length (seating_arrangement st) = num_items ds ->
  exists lp : R, log_seating_prob ds st = Ret lp /\ (lp <= 0)%R.
Proof.
  intros Hlabels Hlen.
  destruct (for_range_total
              (fun (k : nat) (acc : R * gmap nat Z) => (acc.1 <= 0)%R)
              (seat_next ds st) (num_items ds) (d_of_Z 0, ∅))
    as ([lp counts] & Hrun & Hlp).
  - simpl. lra.
  - intros item [lp counts] Hitem Hlp. simpl in Hlp.
    destruct (lookup_lt_is_Some_2 (seating_arrangement st) item)
      as [chosen Hchosen]; [lia|].
    destruct (for_each_total
                (fun acc : list R * option R =>
                   Forall (fun y => (0 < y)%R) acc.1 /\
                   forall p, acc.2 = Some p -> p ∈ acc.1)
                (old_table_prob ds st item chosen) (map_to_list counts)
                ([], None))
      as ([probs chose] & Hloop & Hpos & Hmem).
    { split; [constructor|]. intros p. discriminate. }
    { intros [table count] [probs chose] _ [Hpos Hmem].
      destruct (compute_K_generative_returns ds st item table Hlabels Hlen
                  Hitem) as [K HK].
      unfold old_table_prob. simpl. rewrite HK. simpl.
      eexists. split; [reflexivity|]. simpl. split.
      - apply Forall_app. split; [done|]. constructor; [|constructor].
        apply exp_pos.
      - intros p Hp. apply elem_of_app. case_bool_decide.
        + injection Hp as <-. right. by left.
        + left. by apply Hmem. }
    simpl in Hpos, Hmem.
    set (new_prob := d_exp (log_new_table_probability (log_alpha_prime st)
                              (log_gamma st) (num_expert_provided_skills ds))).
    assert (Hall : Forall (fun y => (0 < y)%R) (probs ++ [new_prob])).
    { apply Forall_app. split; [done|]. constructor; [|constructor].
      apply exp_pos. }
    assert (Hpick : exists p,
               match chose with
               | Some prob => Ret prob
               | None => vec_at (probs ++ [new_prob])
                           (length (probs ++ [new_prob]) - 1)
               end = Ret p /\ p ∈ probs ++ [new_prob]).
    { destruct chose as [p|].
      - exists p. split; [done|]. apply elem_of_app. left. by apply Hmem.
      - exists new_prob. split.
        + unfold vec_at. rewrite length_app. simpl.
          replace (length probs + 1 - 1) with (length probs + 0) by lia.
          by rewrite lookup_app_r, Nat.add_0_r, Nat.sub_diag by lia.
        + apply elem_of_app. right. by left. }
    destruct Hpick as (p & Hpick & Hin).
    destruct (vector_sum_elem _ _ Hall Hin) as [Hp Hsum].
    unfold seat_next. rewrite (proj2 (vec_at_ret _ _ _) Hchosen).
    cbn [obind]. rewrite Hloop. cbn [obind fst snd]. fold new_prob.
    rewrite Hpick. cbn [obind].
    eexists. split; [reflexivity|]. cbn [fst].
    assert (ln p <= ln (vector_sum (probs ++ [new_prob])))%R.
    { destruct Hsum as [Hlt|<-]; [|lra]. left. by apply ln_increasing. }
    cbn [d_log d_add d_sub R_Double] in *. lra.
  - exists lp. split; [|done]. unfold log_seating_prob. by rewrite Hrun.
Qed.
End RealSeating.

Lemma log_seating_prob_nonpositive_witness :
  exists lp : R,
    log_seating_prob demo_dataset (seated_chain (ln (1 / 2)) (1 / 2)%R)
    = Ret lp /\ (lp <= 0)%R.
Proof.
  apply (log_seating_prob_nonpositive (G := nat) demo_dataset
           (seated_chain (ln (1 / 2)) (1 / 2)%R)).
  - exact demo_labels_wf.
  - cbn [seating_arrangement seated_chain]. vm_compute. reflexivity.
Defined.

(** * The two list algorithms of the ledger *)

(** A sorted list is what membership in it selects from an interval that
    contains it. *)
Lemma sorted_filter_seq (a : list nat) (s n : nat) :
  StronglySorted lt a ->
  Forall (fun x => s <= x < s + n) a ->
  List.filter (fun x => bool_decide (x ∈ a)) (seq s n) = a.
Proof.
  intros Hsorted. revert s n.
  induction Hsorted as [|x a Hs IH Hall]; intros s n Hrange.
  - apply filter_none, Forall_forall. intros y _.
    apply bool_decide_eq_false_2, not_elem_of_nil.
  - apply Forall_cons in Hrange as [Hx Hrange].
    replace n with ((x - s) + S (n - S (x - s))) by lia.
    rewrite seq_app, List.filter_app. simpl.
    replace (s + (x - s)) with x by lia.
    rewrite (bool_decide_eq_true_2 (x ∈ x :: a)) by (by left).
    rewrite filter_none.
    + simpl. f_equal.
      etrans; [|apply (IH (S x) (n - S (x - s)))].
      * apply filter_ext_in_iff. intros y Hy%in_seq.
        apply bool_decide_ext. rewrite elem_of_cons. split; [|by right].
        intros [->|?]; [lia|done].
      * rewrite Forall_forall in Hall, Hrange |- *. intros y Hy.
        specialize (Hall y Hy). specialize (Hrange y Hy). lia.
    + apply Forall_forall. intros y Hy%list_elem_of_In%in_seq.
      apply bool_decide_eq_false_2. intros [->|Hin]%elem_of_cons; [lia|].
      rewrite Forall_forall in Hall. specialize (Hall y Hin). lia.
Qed.

(** [std::merge] and the removal loop of [remove_item_from_table] are
    inverse to each other: merging two disjoint strictly increasing lists
    of trials gives a strictly increasing list with the trials of both, and
    removing the second list from it gives back the first. *)
Theorem merge_remove_round_trip (cur trials : list nat) :
  StronglySorted lt cur -> StronglySorted lt trials ->
  (forall x, x ∈ cur -> x ∉ trials) ->
  StronglySorted lt (merge cur trials) /\
  (forall x, x ∈ merge cur trials <-> x ∈ cur \/ x ∈ trials) /\
  remove_trials (merge cur trials) trials = cur.
Proof.
  intros Hcur Htrials Hdisjoint.
  set (n := S (foldr Nat.max 0 (cur ++ trials))).
  assert (Hbound : forall l, l ⊆ cur ++ trials ->
                             Forall (fun x => 0 <= x < 0 + n) l).
  { intros l Hl. apply Forall_forall. intros x Hx.
    pose proof (foldr_max_ge (cur ++ trials) x (Hl x Hx)). subst n. lia. }
  pose proof (sorted_filter_seq cur 0 n Hcur
                (Hbound cur ltac:(set_solver))) as Ha.
  pose proof (sorted_filter_seq trials 0 n Htrials
                (Hbound trials ltac:(set_solver))) as Hb.
  set (in_cur := fun x => bool_decide (x ∈ cur)) in *.
  set (in_trials := fun x => bool_decide (x ∈ trials)) in *.
  assert (Hdis : forall x, x ∈ seq 0 n ->
                   in_cur x = true -> in_trials x = true -> False).
  { intros x _ Hx%bool_decide_eq_true Hx'%bool_decide_eq_true.
    by apply (Hdisjoint x). }
  assert (Hmerge : merge cur trials
                   = List.filter (fun x => in_cur x || in_trials x) (seq 0 n)).
  { rewrite <- Ha at 1. rewrite <- Hb at 1.
    apply merge_filter; [apply seq_sorted|done]. }
  rewrite Hmerge. split_and!.
  - apply filter_sorted, seq_sorted.
  - intros x.
    rewrite list_elem_of_In, filter_In, in_seq, orb_true_iff.
    unfold in_cur, in_trials. rewrite !bool_decide_eq_true.
    split; [tauto|]. intros Hx. split; [|done].
    assert (x ∈ cur ++ trials) as Hin by (apply elem_of_app; done).
    pose proof (Hbound _ (reflexivity _)) as Hall.
    rewrite Forall_forall in Hall. specialize (Hall x Hin). lia.
  - transitivity (remove_trials
                    (List.filter (fun x => in_cur x || in_trials x) (seq 0 n))
                    (List.filter in_trials (seq 0 n))); [by rewrite Hb|].
    rewrite remove_trials_filter; [exact Ha| |done].
    apply sorted_lt_NoDup, seq_sorted.
Qed.

Lemma merge_remove_round_trip_witness :
  StronglySorted lt (merge [1; 4] [0; 2; 7]) /\
  (forall x, x ∈ merge [1; 4] [0; 2; 7] <-> x ∈ [1; 4] \/ x ∈ [0; 2; 7]) /\
  remove_trials (merge [1; 4] [0; 2; 7]) [0; 2; 7] = [1; 4].
Proof.
  apply (merge_remove_round_trip [1; 4] [0; 2; 7]).
  - repeat constructor; lia.
  - repeat constructor; lia.
  - intros x Hx Hx'. set_solver.
Defined.

(** * Recorded predictions over the reals *)

Lemma sum_in_unit (l : list R) (base : R) :
  Forall (fun p => (0 < p < 1)%R) l ->
  (base <= foldl Rplus base l <= base + INR (length l))%R /\
  (l ≠ [] -> (base < foldl Rplus base l < base + INR (length l))%R).
Proof.
  intros Hall. revert base.
  induction Hall as [|p l Hp _ IH]; intros base.
  - simpl. split; [lra|done].
  - cbn [foldl]. rewrite length_cons, S_INR.
    destruct (IH (base + p)%R) as [Hle _]. split; [lra|]. intros _. lra.
Qed.

Section RealQueries.
Context {G : Type}.
Implicit Type st : chain G R.

(** Over the reals, when every recorded prediction is strictly between 0
    and 1, so is the estimate that [get_estimated_recall_prob] returns. *)
Theorem get_estimated_recall_prob_is_probability st (student trial : nat)
    (estimate : R) :
  predictions_in_unit st ->
  get_estimated_recall_prob st student trial = Ret estimate ->
  (0 < estimate < 1)%R.
Proof.
  intros Hunit Hrun. unfold get_estimated_recall_prob in Hrun.
  apply obind_ret in Hrun as (row & Hrow%vec_at_ret & Hrun).
  apply obind_ret in Hrun as (cell & Hcell%vec_at_ret & Hrun).
  apply obind_ret in Hrun as (? & Hne%assert_ret & Hrun).
  unfold vector_mean in Hrun.
  apply obind_ret in Hrun as (? & _ & [= <-]).
  assert (Hall : Forall (fun p => (0 < p < 1)%R) cell).
  { apply Forall_forall. intros p Hp. by apply (Hunit student row trial cell). }
  assert (cell ≠ []) as Hcell_ne.
  { intros ->. by rewrite bool_decide_eq_true_2 in Hne. }
  destruct (sum_in_unit cell 0%R Hall) as [_ Hsum].
  specialize (Hsum Hcell_ne).
  unfold vector_sum. destruct cell as [|p cell]; [done|].
  cbn [d_add d_div d_of_Z R_Double]. rewrite <- INR_IZR_INZ.
  set (total := foldl Rplus 0%R (p :: cell)) in *.
  assert (0 < INR (length (p :: cell)))%R as Hn.
  { rewrite length_cons, S_INR. pose proof (pos_INR (length cell)). lra. }
  split.
  - apply Rdiv_lt_0_compat; lra.
  - apply (Rmult_lt_reg_r (INR (length (p :: cell)))); [done|].
    unfold Rdiv. rewrite Rmult_assoc, Rinv_l by lra. lra.
Qed.
End RealQueries.

Section RealRecorder.
Context {G : Type}.
Implicit Type st : chain G R.
Implicit Type ds : dataset.

(** The relabelling loop of [record_sample] returns when the seating
    arrangement covers the items. *)
Lemma relabel_returns {D : Type} ds (st : chain G D) :
  length (seating_arrangement st) = num_items ds ->
  exists labels, relabel ds st = Ret labels.
Proof.
  intros Hlen. unfold relabel.
  destruct (for_range_total
              (fun (k : nat) (acc : gmap nat nat * list nat) =>
                 length acc.2 = num_items ds)
              (relabel_item st) (num_items ds)
              (∅, replicate (num_items ds) 0))
    as (r & Hrun & _).
  - simpl. apply length_replicate.
  - intros k [sl cur] Hk Hcur. simpl in Hcur.
    destruct (lookup_lt_is_Some_2 (seating_arrangement st) k)
      as [table Htable]; [lia|].
    unfold relabel_item, vec_at. rewrite Htable. simpl.
    assert (Hlabel : exists label,
               map_at (match sl !! table with
                       | Some _ => sl
                       | None => <[table := size sl]> sl
                       end) table = Ret label).
    { unfold map_at. destruct (sl !! table) as [label|] eqn:Hsl.
      - rewrite Hsl. eauto.
      - rewrite lookup_insert_eq. eauto. }
    destruct Hlabel as [label ->]. simpl.
    unfold vec_set. rewrite decide_True by lia. simpl.
    eexists. split; [reflexivity|]. simpl. by rewrite length_insert.
  - rewrite Hrun. simpl. eauto.
Qed.

Lemma push_prediction_ok ds (samples : list (list (list R)))
    (student trial : nat) (recall : list bool) (x : R) :
  samples_ok ds samples ->
  student < num_students ds ->
  recall_sequences ds !! student = Some recall ->
  trial < length recall ->
  (0 < x < 1)%R ->
  exists samples',
    push_prediction student trial x samples = Ret samples' /\
    samples_ok ds samples'.
Proof.
  intros (Hlen & Hshape & Hunit) Hstudent Hrecall Htrial Hx.
  destruct (lookup_lt_is_Some_2 samples student) as [row Hrow]; [lia|].
  destruct (Hshape _ _ Hrow) as (recall' & Hrecall' & Hrowlen).
  assert (recall' = recall) as -> by congruence.
  destruct (lookup_lt_is_Some_2 row trial) as [cell Hcell]; [lia|].
  unfold push_prediction, vec_get. rewrite Hrow. simpl. rewrite Hcell. simpl.
  eexists. split; [reflexivity|]. split_and!.
  - by rewrite length_insert.
  - intros s row' Hs.
    apply list_lookup_insert_Some in Hs as [(Hs1 & Hs2 & _)|[Hne Hs]].
    + subst s row'. exists recall. split; [done|]. by rewrite length_insert.
    + by apply Hshape.
  - intros s row' trial' cell' p Hs Hcell' Hp.
    apply list_lookup_insert_Some in Hs as [(Hs1 & Hs2 & _)|[Hne Hs]].
    + subst s row'.
      apply list_lookup_insert_Some in Hcell' as [(Ht1 & Ht2 & _)|[Hne Hc]].
      * subst trial' cell'.
        apply elem_of_app in Hp as [Hp|Hp%list_elem_of_singleton].
        -- by apply (Hunit student row trial cell).
        -- by subst p.
      * by apply (Hunit student row trial' cell').
    + by apply (Hunit s row' trial' cell').
Qed.

(** Over the reals, when every item sits at a table with parameters
    strictly between 0 and 1 and the recall sequences are as long as the
    item sequences, [record_sample] returns: nothing is out of range; and
    when the recorded predictions were strictly between 0 and 1, they
    still are. *)
Theorem record_sample_keeps_probabilities ds st (train_ll : R) :
  dataset_wf ds -> sequences_aligned ds ->
  samples_inv ds st ->
  length (seating_arrangement st) = num_items ds ->
  seats_have_valid_parameters st ->
  predictions_in_unit st ->
  exists st',
    record_sample ds train_ll st = Ret st' /\
    predictions_in_unit st' /\
    train_ll_samples st' = train_ll_samples st ++ [train_ll].
Proof.
  intros Hwf Haligned Hsamples Hlen [Hseats Hvalid] Hunit.
  unfold record_sample.
  set (st1 := set_train_ll_samples (train_ll_samples st ++ [train_ll]) st).
  destruct (relabel_returns ds st1 Hlen) as [labels Hlabels].
  rewrite Hlabels. cbn [obind].
  set (st2 := set_skill_label_samples _ st1).
  assert (Hok0 : samples_ok ds (pRT_samples st2)).
  { split_and!.
    - apply (inv_samples_rows _ _ Hsamples).
    - intros s row Hrow.
      destruct (inv_samples_cells _ _ Hsamples _ _ Hrow)
        as (recall & ? & ? & _). eauto.
    - exact Hunit. }
  destruct (for_range_total (fun _ samples => samples_ok ds samples)
              (record_student ds st2) (num_students ds) (pRT_samples st2)
              Hok0) as (samples & Hrun & Hok).
  - intros student samples0 Hstudent Hsok.
    destruct (wf_sequences _ Hwf student Hstudent)
      as (items & recall & pairs & studied & Hitems & Hrecall & _ & _ & _
          & Hbound & _ & _).
    pose proof (Haligned _ _ _ Hrecall Hitems) as Hsame.
    unfold record_student.
    rewrite (proj2 (vec_at_ret _ _ _) Hrecall). cbn [obind].
    rewrite (proj2 (vec_at_ret _ _ _) Hitems). cbn [obind].
    destruct (for_range_total
                (fun (k : nat) (acc : gmap nat R * list (list (list R))) =>
                   (forall table params,
                       parameters st !! table = Some params ->
                       exists p, acc.1 !! table = Some p /\ (0 <= p <= 1)%R) /\
                   samples_ok ds acc.2)
                (record_trial st2 student recall items) (length recall)
                (psi <$> parameters st2, samples0))
      as ([p_hat samples1] & Hloop & _ & Hsok1).
    + split; [|done]. intros table params Hparams. simpl.
      exists (psi params). rewrite lookup_fmap, Hparams. split; [done|].
      destruct (Hvalid _ _ Hparams) as (? & _). lra.
    + intros trial [p_hat samples1] Htrial [Hbeliefs Hsok1].
      simpl in Hbeliefs, Hsok1.
      destruct (lookup_lt_is_Some_2 recall trial Htrial) as [did Hdid].
      destruct (lookup_lt_is_Some_2 items trial) as [item Hitem]; [lia|].
      assert (item < num_items ds) as Hlt.
      { rewrite Forall_forall in Hbound. apply Hbound.
        apply list_elem_of_lookup. eauto. }
      destruct (lookup_lt_is_Some_2 (seating_arrangement st) item)
        as [table Htable]; [lia|].
      destruct (Hseats _ _ Htable) as [params Hparams].
      destruct (Hbeliefs _ _ Hparams) as (p & Hp & Hrange).
      destruct (bkt_step_unit params p did (Hvalid _ _ Hparams) Hrange)
        as (Hpred & Hnext & _).
      destruct (push_prediction_ok ds samples1 student trial recall
                  (predict_correct (pi1 params * prop0 params)%R
                     (pi1 params) p)
                  Hsok1 Hstudent Hrecall Htrial Hpred)
        as (samples2 & Hpush & Hsok2).
      unfold record_trial.
      change (seating_arrangement st2) with (seating_arrangement st).
      change (parameters st2) with (parameters st).
      rewrite (proj2 (vec_at_ret _ _ _) Hdid). cbn [obind].
      rewrite (proj2 (vec_at_ret _ _ _) Hitem). cbn [obind].
      rewrite (proj2 (vec_at_ret _ _ _) Htable). cbn [obind].
      rewrite (proj2 (map_at_ret _ _ _) Hparams). cbn [obind].
      rewrite (proj2 (map_at_ret _ _ _) Hp). cbn [obind].
      cbn [d_mul R_Double]. rewrite Hpush. cbn [obind].
      eexists. split; [reflexivity|]. simpl. split; [|done].
      intros table' params' Hparams'.
      destruct (decide (table' = table)) as [->|Hne].
      * rewrite lookup_insert_eq. eauto.
      * rewrite lookup_insert_ne by done. eauto.
    + rewrite Hloop. simpl. eauto.
  - rewrite Hrun. simpl. eexists. split; [reflexivity|]. split; [|done].
    destruct Hok as (_ & _ & Hunit'). exact Hunit'.
Qed.
End RealRecorder.

Lemma demo_sequences :
  recall_sequences demo_dataset
  = [[true; false; true]; [false; true]; [true]] /\
  item_sequences demo_dataset = [[0; 1; 0]; [1; 2]; [2]] /\
  num_students demo_dataset = 3 /\ num_items demo_dataset = 3.
Proof. vm_compute. done. Qed.

Lemma demo_sequences_aligned : sequences_aligned demo_dataset.
Proof.
  destruct demo_sequences as (Hr & Hi & _).
  intros student recall items. rewrite Hr, Hi.
  destruct student as [|[|[|student]]]; simpl; intros [= <-] [= <-]; done.
Qed.

Lemma seated_chain_samples_inv (x_log_gamma p : R) :
  samples_inv demo_dataset (seated_chain x_log_gamma p).
Proof.
  destruct demo_sequences as (Hr & _ & Hn & _).
  constructor;
    cbn [pRT_samples train_ll_samples skill_label_samples seated_chain].
  - rewrite Hn. reflexivity.
  - intros student row. rewrite Hr. clear Hr Hn.
    destruct student as [|[|[|student]]];
      cbn [lookup list_lookup]; try discriminate;
      intros [= <-]; eexists; (split; [reflexivity|]);
      (split; [reflexivity|]);
      intros trial cell Hcell;
      repeat (destruct trial as [|trial]; cbn [lookup list_lookup] in Hcell;
              [injection Hcell as <-; reflexivity|]); discriminate.
  - reflexivity.
Qed.

Lemma seated_chain_predictions (x_log_gamma p : R) :
  predictions_in_unit (seated_chain x_log_gamma p).
Proof.
  intros student row trial cell q Hrow Hcell Hq.
  cbn [pRT_samples seated_chain] in Hrow.
  destruct student as [|[|[|student]]];
    cbn [lookup list_lookup] in Hrow; try discriminate;
    injection Hrow as <-;
    repeat (destruct trial as [|trial]; cbn [lookup list_lookup] in Hcell;
            [injection Hcell as <-; by apply not_elem_of_nil in Hq|]);
    discriminate.
Qed.

Lemma record_sample_keeps_probabilities_witness :
  exists st',
    record_sample demo_dataset (-3)%R (seated_chain (ln (1 / 2)) (1 / 2)%R)
    = Ret st' /\
    predictions_in_unit st' /\
    train_ll_samples st' = [] ++ [(-3)%R].
Proof.
  apply (record_sample_keeps_probabilities (G := nat) demo_dataset
           (seated_chain (ln (1 / 2)) (1 / 2)%R) (-3)%R).
  - exact demo_dataset_wf.
  - exact demo_sequences_aligned.
  - apply seated_chain_samples_inv.
  - cbn [seating_arrangement seated_chain]. vm_compute. reflexivity.
  - apply seated_chain_valid. lra.
  - apply seated_chain_predictions.
Defined.

Lemma recorded_chain_predictions : predictions_in_unit recorded_chain.
Proof.
  intros student row trial cell q Hrow Hcell Hq.
  cbn [pRT_samples recorded_chain set_train_ll_samples
         set_skill_label_samples set_pRT_samples] in Hrow.
  destruct student as [|[|[|student]]];
    cbn [lookup list_lookup] in Hrow; try discriminate;
    injection Hrow as <-;
    repeat (destruct trial as [|trial]; cbn [lookup list_lookup] in Hcell;
            [injection Hcell as <-;
             repeat (apply elem_of_cons in Hq as [->|Hq]; [lra|]);
             by apply not_elem_of_nil in Hq|]);
    discriminate.
Qed.

Lemma recorded_chain_estimate :
  get_estimated_recall_prob recorded_chain 0 0
  = Ret ((0 + 1 / 2 + 1 / 4) / 2)%R.
Proof.
  unfold get_estimated_recall_prob, vec_at.
  cbn [pRT_samples recorded_chain set_train_ll_samples
         set_skill_label_samples set_pRT_samples lookup list_lookup obind].
  reflexivity.
Qed.

Lemma get_estimated_recall_prob_is_probability_witness :
  get_estimated_recall_prob recorded_chain 0 0
  = Ret ((0 + 1 / 2 + 1 / 4) / 2)%R /\
  (0 < (0 + 1 / 2 + 1 / 4) / 2 < 1)%R.
Proof.
  split; [exact recorded_chain_estimate|].
  apply (get_estimated_recall_prob_is_probability recorded_chain 0 0).
  - exact recorded_chain_predictions.
  - exact recorded_chain_estimate.
Defined.
